(** * banking22: Observer / Strategy / Command banking demo (script.js)

    A shallow embedding of [script.js] and the properties of its
    accounts, commands and undo stack.

    Numbers.  Every JavaScript number is an IEEE 754 binary64 value, and
    so is Rocq's primitive [float]: [+], [-], [*] and the comparisons of
    the script are the primitive operations [add], [sub], [mul], [leb],
    [ltb] and [eqb] (round to nearest, ties to even), and a decimal
    literal such as [0.04] denotes the same double in both languages.
    Balances and amounts are therefore modelled as [float], bit for bit.

    Objects.  [Account] objects are shared and mutated in place (the
    [accounts] map, the commands and the closures all point at the same
    object), so they live in a heap indexed by object identity.  The value
    [undefined], which [accounts.get] returns for an unknown id, is [None].

    Exceptions.  A JavaScript [throw] does not roll the state back: an
    outcome is either a normal return or a thrown exception, and both carry
    the state reached at that point.

    Page.  The DOM is modelled by what the script stores in it: the
    notification feed, the toasts, the command history and the two
    counters.  [renderAccountsList] and [showAccountDetails] repaint the
    page from the state and store nothing back, so they do not appear; the
    two buttons that [showAccountDetails] installs are the handlers
    [subscribe] and [unsubscribe].
    Template strings keep their data and drop the typography: a message is
    a constructor applied to the values that the template interpolates. *)

From Stdlib Require Import ZArith Floats String Ascii List Bool Lia.
From stdpp Require Import base option list gmap.

Set Warnings "-inexact-float".

Local Open Scope Z_scope.

(** ** Observers and notifications *)

(** [class CustomerObserver]: [name] and [email]; [feedEl] is a DOM node that
    [update] never reads. *)
Record CustomerObserver := {
  obs_name : string;
  obs_email : string
}.

(** Titles passed to [addNotification]. *)
Inductive Title :=
| TitleObserver (name email owner : string)
    (* `${this.name} (${this.email}) — ${account.owner}` *)
| TitleSystem
| TitleError
| TitleUndo
| TitleUndoError
| TitleAccountCreated
| TitleInterest
| TitleDemo
| TitleSubscribe.

(** What an exception carries: [new Error(message)], or the [TypeError] of
    a property access on [undefined]. *)
Inductive Exception :=
| Error (message : string)
| TypeError.

(** Messages, one constructor per template string of the script. *)
Inductive Message :=
| MsgDeposited (amount balance : float)
| MsgWithdrawn (amount balance : float)
| MsgTransferred (amount : float) (owner : string) (id : Z)
| MsgReceived (amount : float) (owner : string) (id : Z)
| MsgInterestApplied (interest balance : float)
| MsgUndoDeposit (amount : float) (owner : string)
| MsgUndoWithdraw (amount : float) (owner : string)
| MsgUndoTransfer (amount : float) (fromOwner toOwner : string)
| MsgUndone (constructorName : string)
| MsgErr (err : Exception)
| MsgAccountCreated (owner type : string) (id : Z) (balance : float)
| MsgInterestOn (owner : string)
| MsgDemoCreated
| MsgSubscribed (name owner : string).

Inductive Toast :=
| ToastNotification (title : Title) (message : Message)
| ToastText (text : string).

(** ** Accounts, commands and the application state *)

(** An object reference to an [Account]. *)
Abbreviation ref := positive.

(** [class Account]; [observers] is [this.subject.observers]. *)
Record Account := {
  id : Z;
  owner : string;
  type : string;
  balance : float;
  observers : list CustomerObserver;
  subscribers : list string
}.

Definition set_balance (b : float) (a : Account) : Account :=
  {| id := id a; owner := owner a; type := type a; balance := b;
     observers := observers a; subscribers := subscribers a |}.

Definition set_observers (os : list CustomerObserver) (a : Account) : Account :=
  {| id := id a; owner := owner a; type := type a; balance := balance a;
     observers := os; subscribers := subscribers a |}.

(** The concrete commands.  Their account fields hold whatever
    [accounts.get] returned: a reference, or [undefined]. *)
Inductive Command :=
| DepositCommand (account : option ref) (amount : float)
| WithdrawCommand (account : option ref) (amount : float)
| TransferCommand (fromAcc toAcc : option ref) (amount : float).

(** The state of the page: the heap of accounts, the three globals
    [accounts], [commandStack] and [nextAcctId], and the DOM content that
    the script writes.  [commandStack] is in array order (oldest first);
    the feed and the history are in document order (newest first, both are
    filled with [prepend]); toasts are in order of appearance. *)
Record World := {
  heap : gmap ref Account;
  accounts : gmap Z ref;
  commandStack : list Command;
  nextAcctId : Z;
  notificationsFeed : list (Title * Message);
  toasts : list Toast;
  commandHistory : list string;
  statCommands : nat;
  statObservers : nat
}.

Definition with_heap (f : gmap ref Account -> gmap ref Account) (w : World) : World :=
  {| heap := f (heap w); accounts := accounts w; commandStack := commandStack w;
     nextAcctId := nextAcctId w; notificationsFeed := notificationsFeed w;
     toasts := toasts w; commandHistory := commandHistory w;
     statCommands := statCommands w; statObservers := statObservers w |}.

Definition with_accounts (f : gmap Z ref -> gmap Z ref) (w : World) : World :=
  {| heap := heap w; accounts := f (accounts w); commandStack := commandStack w;
     nextAcctId := nextAcctId w; notificationsFeed := notificationsFeed w;
     toasts := toasts w; commandHistory := commandHistory w;
     statCommands := statCommands w; statObservers := statObservers w |}.

Definition with_commandStack (f : list Command -> list Command) (w : World) : World :=
  {| heap := heap w; accounts := accounts w; commandStack := f (commandStack w);
     nextAcctId := nextAcctId w; notificationsFeed := notificationsFeed w;
     toasts := toasts w; commandHistory := commandHistory w;
     statCommands := statCommands w; statObservers := statObservers w |}.

Definition with_nextAcctId (n : Z) (w : World) : World :=
  {| heap := heap w; accounts := accounts w; commandStack := commandStack w;
     nextAcctId := n; notificationsFeed := notificationsFeed w;
     toasts := toasts w; commandHistory := commandHistory w;
     statCommands := statCommands w; statObservers := statObservers w |}.

Definition with_feed (f : list (Title * Message) -> list (Title * Message))
    (w : World) : World :=
  {| heap := heap w; accounts := accounts w; commandStack := commandStack w;
     nextAcctId := nextAcctId w; notificationsFeed := f (notificationsFeed w);
     toasts := toasts w; commandHistory := commandHistory w;
     statCommands := statCommands w; statObservers := statObservers w |}.

Definition with_toasts (f : list Toast -> list Toast) (w : World) : World :=
  {| heap := heap w; accounts := accounts w; commandStack := commandStack w;
     nextAcctId := nextAcctId w; notificationsFeed := notificationsFeed w;
     toasts := f (toasts w); commandHistory := commandHistory w;
     statCommands := statCommands w; statObservers := statObservers w |}.

Definition with_history (f : list string -> list string) (w : World) : World :=
  {| heap := heap w; accounts := accounts w; commandStack := commandStack w;
     nextAcctId := nextAcctId w; notificationsFeed := notificationsFeed w;
     toasts := toasts w; commandHistory := f (commandHistory w);
     statCommands := statCommands w; statObservers := statObservers w |}.

Definition with_statCommands (n : nat) (w : World) : World :=
  {| heap := heap w; accounts := accounts w; commandStack := commandStack w;
     nextAcctId := nextAcctId w; notificationsFeed := notificationsFeed w;
     toasts := toasts w; commandHistory := commandHistory w;
     statCommands := n; statObservers := statObservers w |}.

Definition with_statObservers (n : nat) (w : World) : World :=
  {| heap := heap w; accounts := accounts w; commandStack := commandStack w;
     nextAcctId := nextAcctId w; notificationsFeed := notificationsFeed w;
     toasts := toasts w; commandHistory := commandHistory w;
     statCommands := statCommands w; statObservers := n |}.

(** The page as the script finds it when it is loaded. *)
Definition initial : World :=
  {| heap := ∅; accounts := ∅; commandStack := []; nextAcctId := 1001;
     notificationsFeed := []; toasts := []; commandHistory := [];
     statCommands := 0; statObservers := 0 |}.

(** ** Computations: state and exceptions *)

Inductive Outcome (A : Type) :=
| Returned (a : A) (w : World)
| Thrown (e : Exception) (w : World).
Arguments Returned {A} a w.
Arguments Thrown {A} e w.

Definition JS (A : Type) : Type := World -> Outcome A.

Definition ret {A} (a : A) : JS A := fun w => Returned a w.

Definition throw {A} (e : Exception) : JS A := fun w => Thrown e w.

Definition bind {A B} (m : JS A) (k : A -> JS B) : JS B :=
  fun w =>
    match m w with
    | Returned a w' => k a w'
    | Thrown e w' => Thrown e w'
    end.

(** [try { body } catch (err) { handler }] *)
Definition try_catch {A} (body : JS A) (handler : Exception -> JS A) : JS A :=
  fun w =>
    match body w with
    | Returned a w' => Returned a w'
    | Thrown e w' => handler e w'
    end.

Definition get : JS World := fun w => Returned w w.

Definition modify (f : World -> World) : JS unit := fun w => Returned tt (f w).

Declare Scope js_scope.
Delimit Scope js_scope with js.
Notation "x <- m ;; k" := (bind m (fun x => k))
  (at level 100, m at next level, right associativity) : js_scope.
Notation "m ;; k" := (bind m (fun _ => k))
  (at level 100, right associativity) : js_scope.
Local Open Scope js_scope.

(** [xs.forEach(f)] *)
Fixpoint forEach {A} (f : A -> JS unit) (xs : list A) : JS unit :=
  match xs with
  | [] => ret tt
  | x :: xs' => f x ;; forEach f xs'
  end.

(** The state an outcome ends in, and whether it is a normal return. *)
Definition final {A} (o : Outcome A) : World :=
  match o with
  | Returned _ w => w
  | Thrown _ w => w
  end.

Definition succeeds {A} (o : Outcome A) : bool :=
  match o with
  | Returned _ _ => true
  | Thrown _ _ => false
  end.

(** ** UI helpers *)

(** [showToast(text)]: the toast is appended to the page (its removal three
    seconds later is a timer and changes nothing the script reads). *)
Definition showToast (t : Toast) : JS unit :=
  modify (with_toasts (fun ts => ts ++ [t])).

(** [addNotification(title, message)]: prepend to the feed, then toast
    `${title}: ${message}`. *)
Definition addNotification (title : Title) (message : Message) : JS unit :=
  modify (with_feed (fun fd => (title, message) :: fd)) ;;
  showToast (ToastNotification title message).

(** [updateObserverStat()]: count the observers of the accounts of the
    [accounts] map. *)
Definition updateObserverStat : JS unit :=
  modify (fun w =>
    with_statObservers
      (map_fold (fun _ r count =>
                   match heap w !! r with
                   | Some a => (count + length (observers a))%nat
                   | None => count
                   end) 0%nat (accounts w)) w).

(** ** Observer pattern: [AccountSubject] and [CustomerObserver] *)

(** Reading the object behind a reference. *)
Definition deref (r : ref) : JS Account :=
  fun w =>
    match heap w !! r with
    | Some a => Returned a w
    | None => Thrown TypeError w
    end.

(** Using [undefined] as an object is a [TypeError]. *)
Definition defined (o : option ref) : JS ref :=
  match o with
  | Some r => ret r
  | None => throw TypeError
  end.

(** An assignment to a field of the object behind [r]. *)
Definition update (r : ref) (f : Account -> Account) : JS unit :=
  modify (with_heap (fun h =>
    match h !! r with
    | Some a => <[r := f a]> h
    | None => h
    end)).

(** [CustomerObserver.update(account, message)] *)
Definition observer_update (obs : CustomerObserver) (account : Account)
    (message : Message) : JS unit :=
  addNotification (TitleObserver (obs_name obs) (obs_email obs) (owner account)) message.

(** [AccountSubject.attach(observer)] *)
Definition attach (this : ref) (observer : CustomerObserver) : JS unit :=
  a <- deref this ;;
  update this (set_observers (observers a ++ [observer])) ;;
  updateObserverStat.

(** [AccountSubject.detach(observerEmail)] *)
Definition detach (this : ref) (observerEmail : string) : JS unit :=
  a <- deref this ;;
  update this (set_observers
    (List.filter (fun o => negb (String.eqb (obs_email o) observerEmail)) (observers a))) ;;
  updateObserverStat.

(** [AccountSubject.notify(message)] *)
Definition notify (this : ref) (message : Message) : JS unit :=
  a <- deref this ;;
  forEach (fun obs => observer_update obs a message) (observers a).

(** ** Strategy pattern *)

Inductive InterestStrategy :=
| BaseInterest      (* class InterestStrategy *)
| SavingsInterest
| FixedInterest
| CurrentInterest.

(** [strategy.calculate(balance)] *)
Definition calculate (strategy : InterestStrategy) (balance : float) : float :=
  match strategy with
  | BaseInterest => 0
  | SavingsInterest => balance * 0.04
  | FixedInterest => balance * 0.07
  | CurrentInterest => balance * 0.005
  end%float.

(** ** Account (receiver) *)

(** [new Account(id, owner, type, balance)]: a fresh object. *)
Definition new_Account (id : Z) (owner type : string) (balance : float) : JS ref :=
  w <- get ;;
  let r := fresh (dom (heap w)) in
  modify (with_heap (fun h =>
    <[r := {| id := id; owner := owner; type := type; balance := balance;
              observers := []; subscribers := [] |}]> h)) ;;
  ret r.

(** [Account.deposit(amount)] *)
Definition deposit (this : ref) (amount : float) : JS unit :=
  a <- deref this ;;
  if (amount <=? 0)%float then throw (Error "Amount must be > 0")
  else
    update this (set_balance (balance a + amount)%float) ;;
    notify this (MsgDeposited amount (balance a + amount)%float).

(** [Account.withdraw(amount)] *)
Definition withdraw (this : ref) (amount : float) : JS unit :=
  a <- deref this ;;
  if (amount <=? 0)%float then throw (Error "Amount must be > 0")
  else if (balance a <? amount)%float then throw (Error "Insufficient funds")
  else
    update this (set_balance (balance a - amount)%float) ;;
    notify this (MsgWithdrawn amount (balance a - amount)%float).

(** [Account.transferTo(targetAccount, amount)] *)
Definition transferTo (this : ref) (targetAccount : option ref) (amount : float)
    : JS unit :=
  a <- deref this ;;
  t <- defined targetAccount ;;
  ta <- deref t ;;
  if (id a =? id ta)%Z then throw (Error "Cannot transfer to same account")
  else
    withdraw this amount ;;
    deposit t amount ;;
    notify this (MsgTransferred amount (owner ta) (id ta)) ;;
    notify t (MsgReceived amount (owner a) (id a)).

(** [Account.applyInterest(strategy)] *)
Definition applyInterest (this : ref) (strategy : InterestStrategy) : JS unit :=
  a <- deref this ;;
  let interest := calculate strategy (balance a) in
  update this (set_balance (balance a + interest)%float) ;;
  notify this (MsgInterestApplied interest (balance a + interest)%float).

(** ** Command pattern *)

(** [cmd.execute()] *)
Definition execute (cmd : Command) : JS unit :=
  match cmd with
  | DepositCommand account amount =>
      this <- defined account ;; deposit this amount
  | WithdrawCommand account amount =>
      this <- defined account ;; withdraw this amount
  | TransferCommand fromAcc toAcc amount =>
      this <- defined fromAcc ;; transferTo this toAcc amount
  end.

(** [cmd.undo()] *)
Definition undo (cmd : Command) : JS unit :=
  match cmd with
  | DepositCommand account amount =>
      this <- defined account ;;
      withdraw this amount ;;
      a <- deref this ;;
      addNotification TitleSystem (MsgUndoDeposit amount (owner a))
  | WithdrawCommand account amount =>
      this <- defined account ;;
      deposit this amount ;;
      a <- deref this ;;
      addNotification TitleSystem (MsgUndoWithdraw amount (owner a))
  | TransferCommand fromAcc toAcc amount =>
      t <- defined toAcc ;;
      withdraw t amount ;;
      f <- defined fromAcc ;;
      deposit f amount ;;
      fa <- deref f ;;
      ta <- deref t ;;
      addNotification TitleSystem (MsgUndoTransfer amount (owner fa) (owner ta))
  end.

(** [cmd.constructor.name] *)
Definition constructor_name (cmd : Command) : string :=
  match cmd with
  | DepositCommand _ _ => "DepositCommand"
  | WithdrawCommand _ _ => "WithdrawCommand"
  | TransferCommand _ _ _ => "TransferCommand"
  end.

(** [cmd.constructor.name.replace('Command','')] *)
Definition label (cmd : Command) : string :=
  match cmd with
  | DepositCommand _ _ => "Deposit"
  | WithdrawCommand _ _ => "Withdraw"
  | TransferCommand _ _ _ => "Transfer"
  end.

(** [logCommand(cmd)] *)
Definition logCommand (cmd : Command) : JS unit :=
  modify (with_history (fun h => label cmd :: h)).

(** [$('stat-commands').textContent = commandStack.length] *)
Definition show_statCommands : JS unit :=
  modify (fun w => with_statCommands (length (commandStack w)) w).

(** [executeCommand(cmd)] *)
Definition executeCommand (cmd : Command) : JS unit :=
  try_catch
    (execute cmd ;;
     modify (with_commandStack (fun s => s ++ [cmd])) ;;
     logCommand cmd ;;
     show_statCommands)
    (fun err => addNotification TitleError (MsgErr err)).

(** ** UI actions

    A handler takes what it reads from the form as arguments: text fields
    after [trim()], number fields after [parseFloat] or [Number] (a
    [float], possibly [nan]), and select fields after [parseInt] ([None]
    is [NaN]). *)

(** [!x] for a number [x]: [NaN], [0] and [-0] are falsy. *)
Definition falsy (x : float) : bool := is_nan x || (x =? 0)%float.

(** [!id] for the result of [parseInt]. *)
Definition falsy_id (i : option Z) : bool :=
  match i with
  | None => true
  | Some n => (n =? 0)%Z
  end.

(** [accounts.get(id)] *)
Definition accounts_get (i : option Z) (w : World) : option ref :=
  match i with
  | Some n => accounts w !! n
  | None => None
  end.

(** [s.toLowerCase().replace(/\s+/g,'')] on ASCII text.  The strings of
    this development are texts of ASCII characters, one character each:
    on these, [toLowerCase] maps [A]-[Z] to [a]-[z] and [\s] matches the
    characters 9 to 13 and the blank.  A name with other characters is
    outside what [lower], [is_space], [squash] and [demo_email] describe
    (the source treats it with the Unicode case mapping and white space);
    no property below depends on the email built from such a name. *)
Definition lower (c : ascii) : ascii :=
  let n := nat_of_ascii c in
  if ((65 <=? n) && (n <=? 90))%nat then ascii_of_nat (n + 32) else c.

Definition is_space (c : ascii) : bool :=
  let n := nat_of_ascii c in
  ((9 <=? n) && (n <=? 13) || (n =? 32))%nat.

Fixpoint squash (s : string) : string :=
  match s with
  | EmptyString => EmptyString
  | String c s' => if is_space c then squash s' else String (lower c) (squash s')
  end.

Definition demo_email (name : string) : string :=
  (squash name ++ "@demo.bank")%string.

(** [$('create-acct').onclick] *)
Definition create_acct (name type : string) (parsed : float) : JS unit :=
  let balance := if falsy parsed then 0%float else parsed in
  if String.eqb name "" then showToast (ToastText "Please enter customer name")
  else
    w <- get ;;
    let newId := nextAcctId w in
    modify (with_nextAcctId (newId + 1)) ;;
    acct <- new_Account newId name type balance ;;
    modify (with_accounts (fun m => <[newId := acct]> m)) ;;
    addNotification TitleAccountCreated (MsgAccountCreated name type newId balance) ;;
    attach acct {| obs_name := name; obs_email := demo_email name |}.

(** [$('cmd-deposit').onclick] *)
Definition cmd_deposit (i : option Z) (amount : float) : JS unit :=
  if falsy_id i || falsy amount
  then showToast (ToastText "Select account and enter amount")
  else
    w <- get ;;
    executeCommand (DepositCommand (accounts_get i w) amount).

(** [$('cmd-withdraw').onclick] *)
Definition cmd_withdraw (i : option Z) (amount : float) : JS unit :=
  if falsy_id i || falsy amount
  then showToast (ToastText "Select account and enter amount")
  else
    w <- get ;;
    executeCommand (WithdrawCommand (accounts_get i w) amount).

(** [$('cmd-transfer').onclick] *)
Definition cmd_transfer (fromId toId : option Z) (amount : float) : JS unit :=
  if falsy_id fromId || falsy_id toId || falsy amount
  then showToast (ToastText "Select both accounts and enter amount")
  else
    w <- get ;;
    executeCommand (TransferCommand (accounts_get fromId w) (accounts_get toId w) amount).

(** [commandStack.pop()] on a non-empty array: the last element and the
    array without it. *)
Fixpoint pop (s : list Command) : option (Command * list Command) :=
  match s with
  | [] => None
  | c :: s' =>
      match pop s' with
      | None => Some (c, [])
      | Some (last, rest) => Some (last, c :: rest)
      end
  end.

(** [$('cmd-undo').onclick] *)
Definition cmd_undo : JS unit :=
  w <- get ;;
  match pop (commandStack w) with
  | None => showToast (ToastText "No commands to undo")
  | Some (last, rest) =>
      modify (with_commandStack (fun _ => rest)) ;;
      try_catch
        (undo last ;;
         addNotification TitleUndo (MsgUndone (constructor_name last)) ;;
         show_statCommands)
        (fun e => addNotification TitleUndoError (MsgErr e))
  end.

(** The strategy that [apply-interest] picks for an account type. *)
Definition strategy_for (type : string) : InterestStrategy :=
  if String.eqb type "savings" then SavingsInterest
  else if String.eqb type "fixed" then FixedInterest
  else if String.eqb type "current" then CurrentInterest
  else BaseInterest.

(** [$('apply-interest').onclick] *)
Definition apply_interest (i : option Z) : JS unit :=
  if falsy_id i then showToast (ToastText "Select an account")
  else
    w <- get ;;
    acct <- defined (accounts_get i w) ;;
    a <- deref acct ;;
    applyInterest acct (strategy_for (type a)) ;;
    addNotification TitleInterest (MsgInterestOn (owner a)).

(** [$('demo-setup').onclick] *)
Definition demo_setup : JS unit :=
  forEach (fun '(n, t, b) =>
      w <- get ;;
      let newId := nextAcctId w in
      modify (with_nextAcctId (newId + 1)) ;;
      acct <- new_Account newId n t b ;;
      attach acct {| obs_name := n; obs_email := demo_email n |} ;;
      modify (with_accounts (fun m => <[newId := acct]> m)))
    [("Alice"%string, "savings"%string, 5000%float);
     ("Bob"%string, "current"%string, 1200%float);
     ("CorpX"%string, "fixed"%string, 25000%float)] ;;
  addNotification TitleDemo MsgDemoCreated.

(** [email.split('@')[0]] *)
Fixpoint before_at (s : string) : string :=
  match s with
  | EmptyString => EmptyString
  | String c s' => if Ascii.eqb c "@" then EmptyString else String c (before_at s')
  end.

(** [$('subscribe-btn').onclick], as [showAccountDetails(acct)] installs it. *)
Definition subscribe (acct : ref) (email : string) : JS unit :=
  if String.eqb email "" then showToast (ToastText "Enter email")
  else
    let name := before_at email in
    attach acct {| obs_name := name; obs_email := email |} ;;
    a <- deref acct ;;
    addNotification TitleSubscribe (MsgSubscribed name (owner a)).

(** The [onclick] of an "Unsub" button of [showAccountDetails(acct)]. *)
Definition unsubscribe (acct : ref) (email : string) : JS unit :=
  detach acct email.

(** [$('clear-all').onclick] *)
Definition clear_all : JS unit :=
  modify (with_accounts (fun _ => ∅)) ;;
  modify (with_commandStack (fun _ => [])) ;;
  modify (with_nextAcctId 1001) ;;
  modify (with_feed (fun _ => [])) ;;
  modify (with_history (fun _ => [])) ;;
  modify (with_statCommands 0) ;;
  modify (with_statObservers 0).

(** The balance of the account behind a reference. *)
Definition balance_of (w : World) (r : ref) : option float :=
  balance <$> heap w !! r.

(** [w] with its notification feed and its toasts replaced: what an
    operation that only notifies leaves behind. *)
Definition repaint (fd : list (Title * Message)) (ts : list Toast) (w : World) : World :=
  with_toasts (fun _ => ts) (with_feed (fun _ => fd) w).

(** [w] with the object behind [r] replaced. *)
Definition store (r : ref) (a : Account) (w : World) : World :=
  with_heap (fun h => <[r := a]> h) w.

(** The page after one click on [demo-setup]: Alice (savings, 5000), Bob
    (current, 1200) and CorpX (fixed, 25000), behind the references 1, 2
    and 3. *)
Definition demo : World := final (demo_setup initial).

Definition alice : Account :=
  {| id := 1001; owner := "Alice"; type := "savings"; balance := 5000;
     observers := [{| obs_name := "Alice"; obs_email := "alice@demo.bank" |}];
     subscribers := [] |}.

Definition bob : Account :=
  {| id := 1002; owner := "Bob"; type := "current"; balance := 1200;
     observers := [{| obs_name := "Bob"; obs_email := "bob@demo.bank" |}];
     subscribers := [] |}.

Definition corpx : Account :=
  {| id := 1003; owner := "CorpX"; type := "fixed"; balance := 25000;
     observers := [{| obs_name := "CorpX"; obs_email := "corpx@demo.bank" |}];
     subscribers := [] |}.

(** ** The page as a transition system *)

(** The clicks that the script handles, with what each handler reads from
    the form. *)
Inductive Action :=
| CreateAcct (name type : string) (parsed : float)
| CmdDeposit (i : option Z) (amount : float)
| CmdWithdraw (i : option Z) (amount : float)
| CmdTransfer (fromId toId : option Z) (amount : float)
| CmdUndo
| ApplyInterest (i : option Z)
| DemoSetup
| ClearAll
| Subscribe (acct : ref) (email : string)
| Unsubscribe (acct : ref) (email : string).

Definition perform (act : Action) : JS unit :=
  match act with
  | CreateAcct name type parsed => create_acct name type parsed
  | CmdDeposit i amount => cmd_deposit i amount
  | CmdWithdraw i amount => cmd_withdraw i amount
  | CmdTransfer fromId toId amount => cmd_transfer fromId toId amount
  | CmdUndo => cmd_undo
  | ApplyInterest i => apply_interest i
  | DemoSetup => demo_setup
  | ClearAll => clear_all
  | Subscribe acct email => subscribe acct email
  | Unsubscribe acct email => unsubscribe acct email
  end.

(** A session: the handlers run one after the other, each on the state
    that the previous one left (an exception that escapes a handler ends
    that handler only). *)
Fixpoint run (acts : list Action) (w : World) : World :=
  match acts with
  | [] => w
  | act :: acts' => run acts' (final (perform act w))
  end.

(** ** Specification vocabulary *)

(** [withdraw(amount)] on the source followed by [deposit(amount)] on the
    target, the sequence that a transfer is compared with. *)
Definition withdraw_then_deposit (source target : ref) (amount : float) : JS unit :=
  withdraw source amount ;; deposit target amount.

(** The exact value of a finite double, in units of [2^-1074] (the least
    positive double), so that it is an integer; infinities and [NaN] have
    none.  [Prim2SF] decomposes a double into sign, mantissa and exponent. *)
Definition SF2Z (x : spec_float) : option Z :=
  match x with
  | S754_zero _ => Some 0
  | S754_finite s m e => Some (cond_Zopp s (Zpos m) * 2 ^ (e + 1074))
  | S754_infinity _ | S754_nan => None
  end.

Definition exact_value (x : float) : option Z := SF2Z (Prim2SF x).

(** [x + y] is computed without rounding: the double [x + y] is the exact
    sum of the finite doubles [x] and [y]. *)
Definition exact_add (x y : float) : bool :=
  match exact_value x, exact_value y, exact_value (x + y)%float with
  | Some vx, Some vy, Some vz => (vz =? vx + vy)%Z
  | _, _, _ => false
  end.

(** [x - y] is computed without rounding. *)
Definition exact_sub (x y : float) : bool :=
  match exact_value x, exact_value y, exact_value (x - y)%float with
  | Some vx, Some vy, Some vz => (vz =? vx - vy)%Z
  | _, _, _ => false
  end.

(** The exact sum of the balances of two accounts, and their sum as the
    script would compute it ([a.balance + b.balance]). *)
Definition total (w : World) (r1 r2 : ref) : option Z :=
  match balance_of w r1, balance_of w r2 with
  | Some x, Some y =>
      match exact_value x, exact_value y with
      | Some vx, Some vy => Some (vx + vy)
      | _, _ => None
      end
  | _, _ => None
  end.

Definition float_total (w : World) (r1 r2 : ref) : option float :=
  match balance_of w r1, balance_of w r2 with
  | Some x, Some y => Some (x + y)%float
  | _, _ => None
  end.

(** The page after two accounts have been created through the form, with
    opening balances [x] and [y]; they are behind the references 1 and 2. *)
Definition two_accounts (x y : float) : World :=
  final ((create_acct "Ann" "savings" x ;; create_acct "Ben" "current" y) initial).

(** The accounts that a command works on. *)
Definition involved (cmd : Command) : list ref :=
  match cmd with
  | DepositCommand account _ => option_list account
  | WithdrawCommand account _ => option_list account
  | TransferCommand fromAcc toAcc _ => option_list fromAcc ++ option_list toAcc
  end.

(** None of the additions and subtractions that [execute()] and then
    [undo()] perform for [cmd], started in [w], is rounded. *)
Definition round_trip_exact (cmd : Command) (w : World) : bool :=
  match cmd with
  | DepositCommand (Some r) amount =>
      match balance_of w r with
      | Some b => exact_add b amount && exact_sub (b + amount) amount
      | None => false
      end
  | WithdrawCommand (Some r) amount =>
      match balance_of w r with
      | Some b => exact_sub b amount && exact_add (b - amount) amount
      | None => false
      end
  | TransferCommand (Some f) (Some t) amount =>
      match balance_of w f, balance_of w t with
      | Some s, Some b =>
          exact_sub s amount && exact_add (s - amount) amount
          && exact_add b amount && exact_sub (b + amount) amount
      | _, _ => false
      end
  | _ => false
  end%float.

(** [w'] differs from [w] at most in the accounts of the heap, the feed
    and the toasts, and a computation is [quiet] when that is all it ever
    changes: it leaves the globals, the command history and the counters
    alone. *)
Definition writes_accounts_only (w w' : World) : Prop :=
  exists h fd ts, w' = repaint fd ts (with_heap (fun _ => h) w).

Definition quiet {A} (m : JS A) : Prop :=
  forall w, writes_accounts_only w (final (m w)).

(** The sign of a double, read on its decomposition: not below zero
    ([NaN] and both zeros included). *)
Definition SFnonneg (x : spec_float) : bool :=
  match x with
  | S754_infinity s | S754_finite s _ _ => negb s
  | S754_zero _ | S754_nan => true
  end.

(** The opening balance typed in the form is not negative. *)
Definition validated (act : Action) : bool :=
  match act with
  | CreateAcct _ _ parsed => negb (parsed <? 0)%float
  | _ => true
  end.

(** No account of the heap has a negative balance. *)
Definition solvent (w : World) : Prop :=
  forall (r : ref) (a : Account), heap w !! r = Some a -> (balance a <? 0)%float = false.

(** Every entry [i -> r] of the [accounts] map points at an account whose
    id is [i]. *)
Definition registered (w : World) : Prop :=
  forall (i : Z) (r : ref), accounts w !! i = Some r ->
    exists a, heap w !! r = Some a /\ id a = i.

(** Hoare triples for computations that may throw: from a state in [P], a
    normal return with [a] ends in [Q a] and an exception ends in [E]. *)
Definition triple {A} (P : World -> Prop) (m : JS A)
    (Q : A -> World -> Prop) (E : World -> Prop) : Prop :=
  forall w, P w ->
    match m w with
    | Returned a w' => Q a w'
    | Thrown _ w' => E w'
    end.

(** [m] keeps the invariant [I], whether it returns or throws. *)
Definition preserves {A} (I : World -> Prop) (m : JS A) : Prop :=
  triple I m (fun _ => I) I.

(** ** Vocabulary for the properties of the page *)

(** [cmd.amount] *)
Definition amount_of (cmd : Command) : float :=
  match cmd with
  | DepositCommand _ amount => amount
  | WithdrawCommand _ amount => amount
  | TransferCommand _ _ amount => amount
  end.

(** A command that [undo()] can work on: its accounts are objects of the
    heap and its amount passes the guard [amount <= 0] of [deposit] and
    [withdraw]. *)
Definition well_formed (w : World) (cmd : Command) : Prop :=
  match cmd with
  | DepositCommand (Some r) _ => is_Some (heap w !! r)
  | WithdrawCommand (Some r) _ => is_Some (heap w !! r)
  | TransferCommand (Some f) (Some t) _ =>
      is_Some (heap w !! f) /\ is_Some (heap w !! t)
  | _ => False
  end
  /\ (amount_of cmd <=? 0)%float = false.

Definition stack_well_formed (w : World) : Prop :=
  Forall (well_formed w) (commandStack w).

(** Account ids are the numbers from 1001 up to, and without, the next id. *)
Definition ids_in_range (w : World) : Prop :=
  1001 <= nextAcctId w
  /\ forall (i : Z) (r : ref), accounts w !! i = Some r -> 1001 <= i < nextAcctId w.

(** The title and the toast of the notification that [obs] gets about an
    account owned by [owner]. *)
Definition observer_title (owner : string) (obs : CustomerObserver) : Title :=
  TitleObserver (obs_name obs) (obs_email obs) owner.

(** A session on a fresh page: an account opened with an empty balance
    field, a deposit of 0.41, a withdrawal of 0.09, and two clicks on
    undo. *)
Definition ann_session : list Action :=
  [CreateAcct "Ann" "savings" nan;
   CmdDeposit (Some 1001) 0.41;
   CmdWithdraw (Some 1001) 0.09;
   CmdUndo;
   CmdUndo].

(** The demo page after "eve@mail.org" has subscribed to Alice's account,
    and Alice's account on that page. *)
Definition demo_with_eve : World := final (subscribe 1 "eve@mail.org" demo).

Definition alice_with_eve : Account :=
  set_observers
    [{| obs_name := "Alice"; obs_email := "alice@demo.bank" |};
     {| obs_name := "eve"; obs_email := "eve@mail.org" |}] alice.

(** [o.email !== observerEmail], the test of [detach]. *)
Definition other_email (email : string) (o : CustomerObserver) : bool :=
  negb (String.eqb (obs_email o) email).

(** A computation is blind to a part [proj] of the page when it always
    leaves that part as it found it, whether it returns or throws. *)
Definition blind {A B} (proj : World -> B) (m : JS A) : Prop :=
  forall w, proj (final (m w)) = proj w.

(** The part of the page that belongs to the command pattern, and the part
    that numbers the accounts. *)
Definition command_part (w : World) : list Command * list string :=
  (commandStack w, commandHistory w).

(** The labels of the commands on the stack, the most recent first: the
    order in which [logCommand] prepends them to the history. *)
Definition stack_labels (w : World) : list string :=
  map label (rev (commandStack w)).

Definition numbering_part (w : World) : gmap Z ref * Z :=
  (accounts w, nextAcctId w).

(** The object behind [r] is still there after [m]: the script never
    deletes an account object, it only loses the references to it. *)
Definition keeps_objects {A} (m : JS A) : Prop :=
  forall r : ref, preserves (fun w => is_Some (heap w !! r)) m.

(** What [updateObserverStat()] counts: the observers of the accounts of
    the map [m], read in the heap [h]. *)
Definition observer_count (h : gmap ref Account) (m : gmap Z ref) : nat :=
  map_fold (fun _ r count =>
              match h !! r with
              | Some a => (count + length (observers a))%nat
              | None => count
              end) 0%nat m.

Definition count_observers (w : World) : nat :=
  observer_count (heap w) (accounts w).

(** One round of the loop of [demo-setup]. *)
Definition demo_item (n t : string) (b : float) : JS unit :=
  w <- get ;;
  let newId := nextAcctId w in
  modify (with_nextAcctId (newId + 1)) ;;
  acct <- new_Account newId n t b ;;
  attach acct {| obs_name := n; obs_email := demo_email n |} ;;
  modify (with_accounts (fun m => <[newId := acct]> m)).

(** What the page shows after [executeCommand] has caught [e]: the page
    [w] with the notification 'Error' on top of the feed and as a toast. *)
Definition error_reported (e : Exception) (w : World) : World :=
  repaint ((TitleError, MsgErr e) :: notificationsFeed w)
    (toasts w ++ [ToastNotification TitleError (MsgErr e)]) w.

(** A session that leaves an account with the balance [NaN]: a deposit of
    [Infinity] and its undo. *)
Definition infinity_session : list Action :=
  [CreateAcct "Ann" "savings" nan; CmdDeposit (Some 1001) infinity; CmdUndo].

Definition ann_nan : Account :=
  {| id := 1001; owner := "Ann"; type := "savings"; balance := nan;
     observers := [{| obs_name := "Ann"; obs_email := "ann@demo.bank" |}];
     subscribers := [] |}.

(** A text without the character [@]. *)
Fixpoint no_at (s : string) : bool :=
  match s with
  | EmptyString => true
  | String c s' => negb (Ascii.eqb c "@") && no_at s'
  end.

(** The page after a successful click on [subscribe-btn]: [observer] is the
    last observer of the account behind [acct], the counter shows [n], and
    the notification 'Subscribe' is on top of the feed and shown as a
    toast. *)
Definition subscribed (acct : ref) (a : Account) (observer : CustomerObserver)
    (n : nat) (w : World) : World :=
  let w1 :=
    with_statObservers n
      (store acct (set_observers (observers a ++ [observer]) a) w) in
  repaint
    ((TitleSubscribe, MsgSubscribed (obs_name observer) (owner a))
       :: notificationsFeed w1)
    (toasts w1
       ++ [ToastNotification TitleSubscribe
             (MsgSubscribed (obs_name observer) (owner a))])
    w1.

(** What the feed gains when the account [a] notifies [message]: one entry
    for each observer, the entry of the last observer on top. *)
Definition notices (a : Account) (message : Message) : list (Title * Message) :=
  rev (map (fun obs => (observer_title (owner a) obs, message)) (observers a)).

(** The command panel of the page: the undo stack, the history and the
    counter. *)
Definition command_panel (w : World) : list Command * list string * nat :=
  (commandStack w, commandHistory w, statCommands w).

(** The buttons of the command panel. *)
Definition uses_commands (act : Action) : bool :=
  match act with
  | CmdDeposit _ _ | CmdWithdraw _ _ | CmdTransfer _ _ _ | CmdUndo | ClearAll => true
  | _ => false
  end.

(** The buttons that can change a balance. *)
Definition moves_money (act : Action) : bool :=
  match act with
  | CmdDeposit _ _ | CmdWithdraw _ _ | CmdTransfer _ _ _ | CmdUndo
  | ApplyInterest _ => true
  | _ => false
  end.

(** The object behind [r] is the account [a], up to its observers. *)
Definition holds_account (r : ref) (a : Account) (w : World) : Prop :=
  exists a', heap w !! r = Some a' /\ set_observers [] a' = set_observers [] a.

(** The account numbers in use and the next one to hand out. *)
Definition numbering (w : World) : Z * gset Z :=
  (nextAcctId w, dom (accounts w)).

(** The buttons that add or remove accounts. *)
Definition numbers_accounts (act : Action) : bool :=
  match act with
  | CreateAcct _ _ _ | DemoSetup | ClearAll => true
  | _ => false
  end.

(** ** The undo action over a session

    The claim about [cmd-undo] speaks of the commands that were executed
    and are not yet undone.  The script keeps no record of them: the
    ledger below is kept beside a session, in the words of the claim, to
    compare the script with. *)

(** The command that a click on a command button builds and hands to
    [executeCommand], when the form passes the check of the handler. *)
Definition command_of (act : Action) (w : World) : option Command :=
  match act with
  | CmdDeposit i amount =>
      if falsy_id i || falsy amount then None
      else Some (DepositCommand (accounts_get i w) amount)
  | CmdWithdraw i amount =>
      if falsy_id i || falsy amount then None
      else Some (WithdrawCommand (accounts_get i w) amount)
  | CmdTransfer fromId toId amount =>
      if falsy_id fromId || falsy_id toId || falsy amount then None
      else Some (TransferCommand (accounts_get fromId w) (accounts_get toId w) amount)
  | _ => None
  end.

(** Whether the [undo()] that a click on [cmd-undo] invokes returns; on an
    empty stack none is invoked. *)
Definition undo_returns (w : World) : bool :=
  match pop (commandStack w) with
  | None => true
  | Some (c, rest) => succeeds (undo c (with_commandStack (fun _ => rest) w))
  end.

(** [stamps] holds, for each command on the stack of the script, the number
    of the click that executed it, the bottom first: a stamp is pushed and
    popped whenever the script pushes and pops.  [in_effect] holds the
    commands that were executed and are not yet undone, each with the
    number of its click, the oldest first. *)
Record Ledger := { stamps : list nat; in_effect : list (nat * Command) }.

(** The ledger after click number [t].  A command whose [execute()] returns
    is executed; the command that [cmd-undo] pops is undone when its
    [undo()] returns, and still in effect when its [undo()] throws;
    [clear-all] discards the accounts and all that was done to them. *)
Definition ledger_step (t : nat) (act : Action) (w : World) (g : Ledger) : Ledger :=
  match act with
  | CmdUndo =>
      match pop (commandStack w), last (stamps g) with
      | Some _, Some k =>
          {| stamps := removelast (stamps g);
             in_effect :=
               if undo_returns w
               then List.filter (fun e => negb (fst e =? k)%nat) (in_effect g)
               else in_effect g |}
      | _, _ => g
      end
  | ClearAll => {| stamps := []; in_effect := [] |}
  | _ =>
      match command_of act w with
      | Some cmd =>
          if succeeds (execute cmd w)
          then {| stamps := stamps g ++ [t];
                  in_effect := in_effect g ++ [(t, cmd)] |}
          else g
      | None => g
      end
  end.

Fixpoint ledger (t : nat) (acts : list Action) (w : World) (g : Ledger) : Ledger :=
  match acts with
  | [] => g
  | act :: acts' => ledger (S t) acts' (final (perform act w)) (ledger_step t act w g)
  end.

(** The ledger of a session from the page as loaded. *)
Definition ledger_of (acts : list Action) : Ledger :=
  ledger 0 acts initial {| stamps := []; in_effect := [] |}.

(** The claim, at one moment: the command that a click on [cmd-undo] would
    pop, the top of the stack, is the most recently executed command that
    is not yet undone.  (Nothing is popped from an empty stack.) *)
Definition targets_most_recent (g : Ledger) : bool :=
  match last (stamps g), last (in_effect g) with
  | None, _ => true
  | Some k, Some (k', _) => (k =? k')%nat
  | Some _, None => false
  end.

(** No [undo()] that the clicks of a session invoke throws. *)
Fixpoint undos_return (acts : list Action) (w : World) : bool :=
  match acts with
  | [] => true
  | act :: acts' =>
      match act with
      | CmdUndo => undo_returns w
      | _ => true
      end && undos_return acts' (final (perform act w))
  end.

(** A session in which an undo throws: Bob gets 1, Ann gets 0.41 and takes
    out 0.09; the withdrawal is undone, and then the undo of Ann's deposit
    throws 'Insufficient funds', because 0.41 - 0.09 + 0.09 is
    0.40999999999999992. *)
Definition lost_undo_session : list Action :=
  [CreateAcct "Ann" "savings" nan; CreateAcct "Bob" "savings" nan;
   CmdDeposit (Some 1002) 1; CmdDeposit (Some 1001) 0.41;
   CmdWithdraw (Some 1001) 0.09; CmdUndo; CmdUndo].

(** A session whose undos all return. *)
Definition plain_undo_session : list Action :=
  [DemoSetup; CmdDeposit (Some 1001) 100; CmdTransfer (Some 1001) (Some 1002) 300;
   CmdWithdraw (Some 1003) 5; CmdUndo].

(** The ledger agrees with the script after [t] clicks: the stamps are those
    of the commands in effect, which are the commands of the stack in the
    order of the stack, and every stamp is the number of one earlier
    click. *)
Definition ledger_agrees (t : nat) (w : World) (g : Ledger) : Prop :=
  stamps g = map fst (in_effect g)
  /\ commandStack w = map snd (in_effect g)
  /\ NoDup (stamps g)
  /\ Forall (fun k => (k < t)%nat) (stamps g).

(** * Properties *)

(** ** Notifications touch nothing but the feed and the toasts *)

Lemma repaint_id (w : World) : repaint (notificationsFeed w) (toasts w) w = w.
Proof. destruct w; reflexivity. Qed.

Lemma addNotification_spec (title : Title) (message : Message) (w : World) :
  addNotification title message w
  = Returned tt (repaint ((title, message) :: notificationsFeed w)
                         (toasts w ++ [ToastNotification title message]) w).
Proof. reflexivity. Qed.

Lemma forEach_observer_update (a : Account) (message : Message)
    (os : list CustomerObserver) (w : World) :
  exists fd ts,
    forEach (fun obs => observer_update obs a message) os w
    = Returned tt (repaint fd ts w).
Proof.
  revert w; induction os as [|obs os IH]; intros w.
  - exists (notificationsFeed w), (toasts w). now rewrite repaint_id.
  - cbn [forEach]. unfold bind at 1. unfold observer_update at 1.
    rewrite addNotification_spec.
    destruct (IH (repaint ((TitleObserver (obs_name obs) (obs_email obs) (owner a), message)
                             :: notificationsFeed w)
                          (toasts w ++ [ToastNotification
                             (TitleObserver (obs_name obs) (obs_email obs) (owner a)) message]) w))
      as (fd & ts & ->).
    now exists fd, ts.
Qed.

Lemma notify_spec (this : ref) (a : Account) (message : Message) (w : World) :
  heap w !! this = Some a ->
  exists fd ts, notify this message w = Returned tt (repaint fd ts w).
Proof.
  intros Ha. unfold notify, bind, deref. rewrite Ha.
  apply forEach_observer_update.
Qed.

Lemma notify_undefined (this : ref) (message : Message) (w : World) :
  heap w !! this = None -> notify this message w = Thrown TypeError w.
Proof. intros Ha. unfold notify, bind, deref. now rewrite Ha. Qed.

Lemma update_spec (this : ref) (a : Account) (f : Account -> Account) (w : World) :
  heap w !! this = Some a ->
  update this f w = Returned tt (store this (f a) w).
Proof.
  intros Ha. unfold update, modify, store, with_heap. now rewrite Ha.
Qed.

Lemma heap_store (r : ref) (a : Account) (w : World) :
  heap (store r a w) = <[r := a]> (heap w).
Proof. reflexivity. Qed.

Lemma heap_repaint fd ts (w : World) : heap (repaint fd ts w) = heap w.
Proof. reflexivity. Qed.

(** ** What [deposit] and [withdraw] do *)

Lemma deposit_rejects (this : ref) (a : Account) (amount : float) (w : World) :
  heap w !! this = Some a ->
  (amount <=? 0)%float = true ->
  deposit this amount w = Thrown (Error "Amount must be > 0") w.
Proof.
  intros Ha Hle. unfold deposit, bind, deref. now rewrite Ha, Hle.
Qed.

Lemma deposit_accepts (this : ref) (a : Account) (amount : float) (w : World) :
  heap w !! this = Some a ->
  (amount <=? 0)%float = false ->
  exists fd ts,
    deposit this amount w
    = Returned tt (repaint fd ts (store this (set_balance (balance a + amount)%float a) w)).
Proof.
  intros Ha Hle. unfold deposit, bind at 1, deref. rewrite Ha, Hle.
  unfold bind. rewrite (update_spec _ _ _ _ Ha).
  destruct (notify_spec this (set_balance (balance a + amount)%float a)
              (MsgDeposited amount (balance a + amount)%float)
              (store this (set_balance (balance a + amount)%float a) w))
    as (fd & ts & ->).
  - rewrite heap_store. apply lookup_insert_eq.
  - now exists fd, ts.
Qed.

Lemma deposit_undefined (this : ref) (amount : float) (w : World) :
  heap w !! this = None -> deposit this amount w = Thrown TypeError w.
Proof. intros Ha. unfold deposit, bind, deref. now rewrite Ha. Qed.

Lemma withdraw_rejects (this : ref) (a : Account) (amount : float) (w : World) :
  heap w !! this = Some a ->
  (amount <=? 0)%float = true ->
  withdraw this amount w = Thrown (Error "Amount must be > 0") w.
Proof.
  intros Ha Hle. unfold withdraw, bind, deref. now rewrite Ha, Hle.
Qed.

Lemma withdraw_insufficient (this : ref) (a : Account) (amount : float) (w : World) :
  heap w !! this = Some a ->
  (amount <=? 0)%float = false ->
  (balance a <? amount)%float = true ->
  withdraw this amount w = Thrown (Error "Insufficient funds") w.
Proof.
  intros Ha Hle Hlt. unfold withdraw, bind, deref. now rewrite Ha, Hle, Hlt.
Qed.

Lemma withdraw_accepts (this : ref) (a : Account) (amount : float) (w : World) :
  heap w !! this = Some a ->
  (amount <=? 0)%float = false ->
  (balance a <? amount)%float = false ->
  exists fd ts,
    withdraw this amount w
    = Returned tt (repaint fd ts (store this (set_balance (balance a - amount)%float a) w)).
Proof.
  intros Ha Hle Hlt. unfold withdraw, bind at 1, deref. rewrite Ha, Hle, Hlt.
  unfold bind. rewrite (update_spec _ _ _ _ Ha).
  destruct (notify_spec this (set_balance (balance a - amount)%float a)
              (MsgWithdrawn amount (balance a - amount)%float)
              (store this (set_balance (balance a - amount)%float a) w))
    as (fd & ts & ->).
  - rewrite heap_store. apply lookup_insert_eq.
  - now exists fd, ts.
Qed.

Lemma withdraw_undefined (this : ref) (amount : float) (w : World) :
  heap w !! this = None -> withdraw this amount w = Thrown TypeError w.
Proof. intros Ha. unfold withdraw, bind, deref. now rewrite Ha. Qed.

(** A throwing [deposit] or [withdraw] throws before it writes. *)
Lemma deposit_thrown (this : ref) (amount : float) (w w' : World) (e : Exception) :
  deposit this amount w = Thrown e w' -> w' = w.
Proof.
  destruct (heap w !! this) as [a|] eqn:Ha.
  - destruct (amount <=? 0)%float eqn:Hle.
    + rewrite (deposit_rejects _ _ _ _ Ha Hle). congruence.
    + destruct (deposit_accepts _ _ _ _ Ha Hle) as (fd & ts & ->). discriminate.
  - rewrite (deposit_undefined _ _ _ Ha). congruence.
Qed.

Lemma withdraw_thrown (this : ref) (amount : float) (w w' : World) (e : Exception) :
  withdraw this amount w = Thrown e w' -> w' = w.
Proof.
  destruct (heap w !! this) as [a|] eqn:Ha.
  - destruct (amount <=? 0)%float eqn:Hle.
    + rewrite (withdraw_rejects _ _ _ _ Ha Hle). congruence.
    + destruct (balance a <? amount)%float eqn:Hlt.
      * rewrite (withdraw_insufficient _ _ _ _ Ha Hle Hlt). congruence.
      * destruct (withdraw_accepts _ _ _ _ Ha Hle Hlt) as (fd & ts & ->). discriminate.
  - rewrite (withdraw_undefined _ _ _ Ha). congruence.
Qed.

Lemma balance_of_store (r : ref) (a : Account) fd ts (w : World) :
  balance_of (repaint fd ts (store r a w)) r = Some (balance a).
Proof.
  unfold balance_of. rewrite heap_repaint, heap_store, lookup_insert_eq. reflexivity.
Qed.

Lemma balance_of_store_ne (r r' : ref) (a : Account) fd ts (w : World) :
  r <> r' ->
  balance_of (repaint fd ts (store r a w)) r' = balance_of w r'.
Proof.
  intros Hne. unfold balance_of.
  rewrite heap_repaint, heap_store, lookup_insert_ne by exact Hne. reflexivity.
Qed.

(** ** Comparisons of doubles *)

Lemma Prim2SF_zero : Prim2SF 0 = S754_zero false.
Proof. reflexivity. Qed.

(** [0 < x] excludes [x <= 0] (and [x] is not [NaN]). *)
Lemma positive_not_le (x : float) :
  (0 <? x)%float = true -> (x <=? 0)%float = false.
Proof.
  rewrite ltb_spec, leb_spec, Prim2SF_zero.
  destruct (Prim2SF x) as [[|]|[|]| |[|] m e]; cbn; congruence.
Qed.

(** ** Deposit and withdraw (C4, C5) *)

(** An addition or subtraction that is not rounded gives the exact sum or
    difference of the values. *)
Lemma exact_add_inv (x y : float) :
  exact_add x y = true ->
  exists vx vy, exact_value x = Some vx /\ exact_value y = Some vy
                /\ exact_value (x + y)%float = Some (vx + vy).
Proof.
  unfold exact_add.
  destruct (exact_value x) as [vx|], (exact_value y) as [vy|],
    (exact_value (x + y)%float) as [vz|]; try discriminate.
  intros H. apply Z.eqb_eq in H. subst vz. now exists vx, vy.
Qed.

Lemma exact_sub_inv (x y : float) :
  exact_sub x y = true ->
  exists vx vy, exact_value x = Some vx /\ exact_value y = Some vy
                /\ exact_value (x - y)%float = Some (vx - vy).
Proof.
  unfold exact_sub.
  destruct (exact_value x) as [vx|], (exact_value y) as [vy|],
    (exact_value (x - y)%float) as [vz|]; try discriminate.
  intros H. apply Z.eqb_eq in H. subst vz. now exists vx, vy.
Qed.

(** C5, as stated, fails: on an account that holds 9007199254740992 (2^53),
    [deposit(1)] is accepted and the balance is what it was.  The double
    nearest to 2^53 + 1 is 2^53: the balance has not increased by the amount
    1. *)
Lemma C5_deposit_counterexample :
  let w := run [CreateAcct "Ann" "savings" 9007199254740992] initial in
  let w' := final (deposit 1 1 w) in
  (0 <? 1)%float = true
  /\ succeeds (deposit 1 1 w) = true
  /\ balance_of w 1%positive = Some 9007199254740992%float
  /\ balance_of w' 1%positive = Some 9007199254740992%float
  /\ exact_value 1 <> Some 0
  /\ exact_add 9007199254740992 1 = false.
Proof.
  cbv zeta. split; [vm_compute; reflexivity|].
  split; [vm_compute; reflexivity|]. split; [vm_compute; reflexivity|].
  split; [vm_compute; reflexivity|]. split; [vm_compute; discriminate|].
  vm_compute; reflexivity.
Qed.

(** C5, amended.  On an account with balance [b]: for every amount with
    [amount > 0], [deposit(amount)] returns and the balance becomes the
    double [b + amount], the script's own addition; that is [b] increased
    by exactly [amount] whenever the addition is not rounded (the values
    are integers in units of 2^-1074).  For every amount with
    [amount <= 0] it throws "Amount must be > 0" and the state, hence the
    balance, is unchanged. *)
Theorem C5_deposit (this : ref) (a : Account) (amount : float) (w : World) :
  heap w !! this = Some a ->
  ((0 <? amount)%float = true ->
   exists w' b',
     deposit this amount w = Returned tt w'
     /\ balance_of w' this = Some b'
     /\ b' = (balance a + amount)%float
     /\ (exact_add (balance a) amount = true ->
         exists vb va,
           exact_value (balance a) = Some vb /\ exact_value amount = Some va
           /\ exact_value b' = Some (vb + va)))
  /\ ((amount <=? 0)%float = true ->
      deposit this amount w = Thrown (Error "Amount must be > 0") w
      /\ balance_of w this = Some (balance a)).
Proof.
  intros Ha. split.
  - intros Hpos.
    destruct (deposit_accepts _ _ _ _ Ha (positive_not_le _ Hpos)) as (fd & ts & ->).
    eexists. exists (balance a + amount)%float.
    split; [reflexivity|]. split; [now rewrite balance_of_store|].
    split; [reflexivity|]. apply exact_add_inv.
  - intros Hle. split.
    + exact (deposit_rejects _ _ _ _ Ha Hle).
    + unfold balance_of. now rewrite Ha.
Qed.

Lemma C5_deposit_witness :
  (exists w' b',
      deposit 1 250 demo = Returned tt w'
      /\ balance_of w' 1%positive = Some b'
      /\ b' = (5000 + 250)%float
      /\ exists vb va,
           exact_value 5000 = Some vb /\ exact_value 250 = Some va
           /\ exact_value b' = Some (vb + va))
  /\ deposit 1 (-3) demo = Thrown (Error "Amount must be > 0") demo.
Proof.
  split.
  - destruct (C5_deposit 1 alice 250 demo) as [Hpos _]; [vm_compute; reflexivity|].
    destruct Hpos as (w' & b' & Hrun & Hb & Heq & Hexact); [vm_compute; reflexivity|].
    exists w', b'. split; [exact Hrun|]. split; [exact Hb|]. split; [exact Heq|].
    apply Hexact. vm_compute; reflexivity.
  - apply (C5_deposit 1 alice (-3) demo); vm_compute; reflexivity.
Defined.

(** C4, as stated, fails: on an account that holds 18014398509481984
    (2^54), [withdraw(1)] is accepted and the balance is what it was.  The
    double nearest to 2^54 - 1 is 2^54: the balance has not decreased by
    the amount 1. *)
Lemma C4_withdraw_counterexample :
  let w := run [CreateAcct "Ann" "savings" 18014398509481984] initial in
  let w' := final (withdraw 1 1 w) in
  (0 <? 1)%float = true
  /\ succeeds (withdraw 1 1 w) = true
  /\ balance_of w 1%positive = Some 18014398509481984%float
  /\ balance_of w' 1%positive = Some 18014398509481984%float
  /\ exact_value 1 <> Some 0
  /\ exact_sub 18014398509481984 1 = false.
Proof.
  cbv zeta. split; [vm_compute; reflexivity|].
  split; [vm_compute; reflexivity|]. split; [vm_compute; reflexivity|].
  split; [vm_compute; reflexivity|]. split; [vm_compute; discriminate|].
  vm_compute; reflexivity.
Qed.

(** C4, amended.  On an account with balance [b] and for every amount with
    [amount > 0]: [withdraw(amount)] throws "Insufficient funds" if and
    only if [amount > b]; otherwise it returns and the balance becomes the
    double [b - amount], the script's own subtraction; that is [b]
    decreased by exactly [amount] whenever the subtraction is not rounded
    (the values are integers in units of 2^-1074).  Whenever [withdraw]
    throws, for any amount at all, the state, hence the balance, is
    unchanged. *)
Theorem C4_withdraw (this : ref) (a : Account) (amount : float) (w : World) :
  heap w !! this = Some a ->
  (0 <? amount)%float = true ->
  ((exists w', withdraw this amount w = Thrown (Error "Insufficient funds") w')
   <-> (balance a <? amount)%float = true)
  /\ ((balance a <? amount)%float = false ->
      exists w' b',
        withdraw this amount w = Returned tt w'
        /\ balance_of w' this = Some b'
        /\ b' = (balance a - amount)%float
        /\ (exact_sub (balance a) amount = true ->
            exists vb va,
              exact_value (balance a) = Some vb /\ exact_value amount = Some va
              /\ exact_value b' = Some (vb - va)))
  /\ (forall (amount' : float) (e : Exception) (w' : World),
        withdraw this amount' w = Thrown e w' ->
        w' = w /\ balance_of w' this = Some (balance a)).
Proof.
  intros Ha Hpos. pose proof (positive_not_le _ Hpos) as Hle.
  split; [split|split].
  - intros [w' Hw'].
    destruct (balance a <? amount)%float eqn:Hlt; [reflexivity|].
    destruct (withdraw_accepts _ _ _ _ Ha Hle Hlt) as (fd & ts & Hok).
    rewrite Hok in Hw'. discriminate.
  - intros Hlt. exists w. exact (withdraw_insufficient _ _ _ _ Ha Hle Hlt).
  - intros Hlt.
    destruct (withdraw_accepts _ _ _ _ Ha Hle Hlt) as (fd & ts & ->).
    eexists. exists (balance a - amount)%float.
    split; [reflexivity|]. split; [now rewrite balance_of_store|].
    split; [reflexivity|]. apply exact_sub_inv.
  - intros amount' e w' Hthrown.
    apply withdraw_thrown in Hthrown. subst w'.
    split; [reflexivity|]. unfold balance_of. now rewrite Ha.
Qed.

Lemma C4_withdraw_witness :
  ((exists w', withdraw 2 1500 demo = Thrown (Error "Insufficient funds") w')
   <-> (1200 <? 1500)%float = true)
  /\ (exists w' b',
        withdraw 2 200 demo = Returned tt w'
        /\ balance_of w' 2%positive = Some b'
        /\ b' = (1200 - 200)%float
        /\ exists vb va,
             exact_value 1200 = Some vb /\ exact_value 200 = Some va
             /\ exact_value b' = Some (vb - va)).
Proof.
  split.
  - apply (C4_withdraw 2 bob 1500 demo); vm_compute; reflexivity.
  - destruct (C4_withdraw 2 bob 200 demo) as (_ & Hok & _);
      [vm_compute; reflexivity | vm_compute; reflexivity |].
    destruct Hok as (w' & b' & Hrun & Hb & Heq & Hexact); [vm_compute; reflexivity|].
    exists w', b'. split; [exact Hrun|]. split; [exact Hb|]. split; [exact Heq|].
    apply Hexact. vm_compute; reflexivity.
Defined.

(** ** Interest (C6) *)

Lemma applyInterest_spec (this : ref) (a : Account) (strategy : InterestStrategy)
    (w : World) :
  heap w !! this = Some a ->
  exists fd ts,
    applyInterest this strategy w
    = Returned tt (repaint fd ts
        (store this (set_balance (balance a + calculate strategy (balance a))%float a) w)).
Proof.
  intros Ha. unfold applyInterest, bind at 1, deref. rewrite Ha.
  unfold bind. rewrite (update_spec _ _ _ _ Ha).
  destruct (notify_spec this
              (set_balance (balance a + calculate strategy (balance a))%float a)
              (MsgInterestApplied (calculate strategy (balance a))
                 (balance a + calculate strategy (balance a))%float)
              (store this
                 (set_balance (balance a + calculate strategy (balance a))%float a) w))
    as (fd & ts & ->).
  - rewrite heap_store. apply lookup_insert_eq.
  - now exists fd, ts.
Qed.

Lemma apply_interest_spec (i : Z) (this : ref) (a : Account) (w : World) :
  i <> 0 ->
  accounts w !! i = Some this ->
  heap w !! this = Some a ->
  exists fd ts,
    apply_interest (Some i) w
    = Returned tt (repaint fd ts
        (store this
           (set_balance (balance a + calculate (strategy_for (type a)) (balance a))%float a)
           w)).
Proof.
  intros Hi Hacc Ha. unfold apply_interest. cbn [falsy_id].
  apply Z.eqb_neq in Hi. rewrite Hi.
  unfold bind at 1, get. cbn [accounts_get]. rewrite Hacc.
  unfold bind at 1, defined, ret. unfold bind at 1, deref. rewrite Ha.
  destruct (applyInterest_spec this a (strategy_for (type a)) w Ha) as (fd & ts & Hok).
  unfold bind. rewrite Hok, addNotification_spec. now eexists _, _.
Qed.

(** C6.  On an account of type 'savings', 'fixed' or 'current' with balance
    [b], [applyInterest] with the strategy that the page selects for that
    type returns and sets the balance to [b + b * r], where [r] is [0.04],
    [0.07] and [0.005] respectively; and so does a click on
    [apply-interest] with that account selected. *)
Theorem C6_applyInterest (this : ref) (a : Account) (r : float) (w : World) :
  heap w !! this = Some a ->
  (type a = "savings"%string /\ r = 0.04%float)
  \/ (type a = "fixed"%string /\ r = 0.07%float)
  \/ (type a = "current"%string /\ r = 0.005%float) ->
  (exists w',
     applyInterest this (strategy_for (type a)) w = Returned tt w'
     /\ balance_of w' this = Some (balance a + balance a * r)%float)
  /\ (forall i : Z, i <> 0 -> accounts w !! i = Some this ->
      exists w',
        apply_interest (Some i) w = Returned tt w'
        /\ balance_of w' this = Some (balance a + balance a * r)%float).
Proof.
  intros Ha Hr.
  assert (Hrate : calculate (strategy_for (type a)) (balance a) = (balance a * r)%float)
    by (destruct Hr as [[-> ->]|[[-> ->]|[-> ->]]]; reflexivity).
  split.
  - destruct (applyInterest_spec this a (strategy_for (type a)) w Ha) as (fd & ts & ->).
    eexists. split; [reflexivity|].
    rewrite balance_of_store. cbn [balance set_balance]. now rewrite Hrate.
  - intros i Hi Hacc.
    destruct (apply_interest_spec i this a w Hi Hacc Ha) as (fd & ts & ->).
    eexists. split; [reflexivity|].
    rewrite balance_of_store. cbn [balance set_balance]. now rewrite Hrate.
Qed.

Lemma C6_applyInterest_witness :
  (exists w', applyInterest 1 (strategy_for "savings") demo = Returned tt w'
              /\ balance_of w' 1%positive = Some (5000 + 5000 * 0.04)%float)
  /\ (exists w', applyInterest 3 (strategy_for "fixed") demo = Returned tt w'
                 /\ balance_of w' 3%positive = Some (25000 + 25000 * 0.07)%float)
  /\ (exists w', apply_interest (Some 1002) demo = Returned tt w'
                 /\ balance_of w' 2%positive = Some (1200 + 1200 * 0.005)%float).
Proof.
  split; [|split].
  - apply (C6_applyInterest 1 alice 0.04 demo); [vm_compute; reflexivity|].
    left. split; reflexivity.
  - apply (C6_applyInterest 3 corpx 0.07 demo); [vm_compute; reflexivity|].
    right; left. split; reflexivity.
  - apply (C6_applyInterest 2 bob 0.005 demo);
      [vm_compute; reflexivity | right; right; split; reflexivity
      | discriminate | vm_compute; reflexivity].
Defined.

(** ** What [transferTo] does *)

Lemma transferTo_same_id (this t : ref) (a ta : Account) (amount : float) (w : World) :
  heap w !! this = Some a ->
  heap w !! t = Some ta ->
  id a = id ta ->
  transferTo this (Some t) amount w = Thrown (Error "Cannot transfer to same account") w.
Proof.
  intros Ha Hta Hid. unfold transferTo, bind, deref, defined, ret.
  rewrite Ha, Hta. apply Z.eqb_eq in Hid. now rewrite Hid.
Qed.

Lemma transferTo_withdraw_throws (this t : ref) (a ta : Account) (amount : float)
    (w w' : World) (e : Exception) :
  heap w !! this = Some a ->
  heap w !! t = Some ta ->
  id a <> id ta ->
  withdraw this amount w = Thrown e w' ->
  transferTo this (Some t) amount w = Thrown e w.
Proof.
  intros Ha Hta Hid Hw. unfold transferTo, bind, deref, defined, ret.
  rewrite Ha, Hta. apply Z.eqb_neq in Hid. rewrite Hid.
  rewrite Hw. now rewrite (withdraw_thrown _ _ _ _ _ Hw).
Qed.

Lemma transferTo_accepts (this t : ref) (a ta : Account) (amount : float) (w : World) :
  heap w !! this = Some a ->
  heap w !! t = Some ta ->
  id a <> id ta ->
  (amount <=? 0)%float = false ->
  (balance a <? amount)%float = false ->
  exists fd ts,
    transferTo this (Some t) amount w
    = Returned tt (repaint fd ts
        (store t (set_balance (balance ta + amount)%float ta)
           (store this (set_balance (balance a - amount)%float a) w))).
Proof.
  intros Ha Hta Hid Hle Hlt.
  assert (Hne : this <> t) by (intros ->; congruence).
  unfold transferTo, bind at 1, deref. rewrite Ha.
  unfold bind at 1, defined, ret. unfold bind at 1. rewrite Hta.
  apply Z.eqb_neq in Hid. rewrite Hid.
  destruct (withdraw_accepts _ _ _ _ Ha Hle Hlt) as (fd1 & ts1 & Hw).
  unfold bind at 1. rewrite Hw.
  set (w1 := repaint fd1 ts1 (store this (set_balance (balance a - amount)%float a) w)).
  assert (Hta1 : heap w1 !! t = Some ta).
  { unfold w1. rewrite heap_repaint, heap_store, lookup_insert_ne by exact Hne. exact Hta. }
  destruct (deposit_accepts _ _ _ _ Hta1 Hle) as (fd2 & ts2 & Hd).
  unfold bind at 1. rewrite Hd.
  set (w2 := repaint fd2 ts2 (store t (set_balance (balance ta + amount)%float ta) w1)).
  assert (Ha2 : heap w2 !! this = Some (set_balance (balance a - amount)%float a)).
  { unfold w2, w1.
    rewrite heap_repaint, heap_store, lookup_insert_ne by congruence.
    rewrite heap_repaint, heap_store. apply lookup_insert_eq. }
  destruct (notify_spec this _ (MsgTransferred amount (owner ta) (id ta)) w2 Ha2)
    as (fd3 & ts3 & Hn1).
  unfold bind at 1. rewrite Hn1.
  assert (Ht3 : heap (repaint fd3 ts3 w2) !! t
                = Some (set_balance (balance ta + amount)%float ta)).
  { unfold w2. rewrite !heap_repaint, heap_store. apply lookup_insert_eq. }
  destruct (notify_spec t _ (MsgReceived amount (owner a) (id a)) _ Ht3)
    as (fd4 & ts4 & ->).
  now exists fd4, ts4.
Qed.

(** A throwing [transferTo] throws before it writes. *)
Lemma transferTo_thrown (this : ref) (target : option ref) (amount : float)
    (w w' : World) (e : Exception) :
  transferTo this target amount w = Thrown e w' -> w' = w.
Proof.
  intros H.
  destruct (heap w !! this) as [a|] eqn:Ha;
    [|unfold transferTo, bind, deref in H; rewrite Ha in H; congruence].
  destruct target as [t|];
    [|unfold transferTo, bind, deref, defined, throw in H; rewrite Ha in H; congruence].
  destruct (heap w !! t) as [ta|] eqn:Hta;
    [|unfold transferTo, bind, deref, defined, ret in H; rewrite Ha, Hta in H; congruence].
  destruct (Z.eq_dec (id a) (id ta)) as [Hid|Hid].
  - rewrite (transferTo_same_id _ _ _ _ _ _ Ha Hta Hid) in H. congruence.
  - destruct (withdraw this amount w) as [[] w1|e1 w1] eqn:Hw.
    + destruct (amount <=? 0)%float eqn:Hle;
        [rewrite (withdraw_rejects _ _ _ _ Ha Hle) in Hw; discriminate|].
      destruct (balance a <? amount)%float eqn:Hlt;
        [rewrite (withdraw_insufficient _ _ _ _ Ha Hle Hlt) in Hw; discriminate|].
      destruct (transferTo_accepts _ _ _ _ amount _ Ha Hta Hid Hle Hlt) as (fd & ts & Hok).
      rewrite Hok in H. discriminate.
    + rewrite (transferTo_withdraw_throws _ _ _ _ _ _ _ _ Ha Hta Hid Hw) in H. congruence.
Qed.

(** ** Transfers (C3, C9) *)

(** C3.  For two accounts with different ids and every amount,
    [transferTo(target, amount)] on the source succeeds exactly when
    [withdraw(amount)] on the source followed by [deposit(amount)] on the
    target succeeds, and both leave the same accounts behind: the same
    balance for the source, for the target and for every other account. *)
Theorem C3_transferTo_is_withdraw_then_deposit (this t : ref) (a ta : Account)
    (amount : float) (w : World) :
  heap w !! this = Some a ->
  heap w !! t = Some ta ->
  id a <> id ta ->
  succeeds (transferTo this (Some t) amount w)
  = succeeds (withdraw_then_deposit this t amount w)
  /\ heap (final (transferTo this (Some t) amount w))
     = heap (final (withdraw_then_deposit this t amount w))
  /\ (forall r : ref,
        balance_of (final (transferTo this (Some t) amount w)) r
        = balance_of (final (withdraw_then_deposit this t amount w)) r).
Proof.
  intros Ha Hta Hid.
  assert (Hne : this <> t) by (intros ->; congruence).
  assert (Hheap :
    succeeds (transferTo this (Some t) amount w)
    = succeeds (withdraw_then_deposit this t amount w)
    /\ heap (final (transferTo this (Some t) amount w))
       = heap (final (withdraw_then_deposit this t amount w))).
  { unfold withdraw_then_deposit.
    destruct (amount <=? 0)%float eqn:Hle.
    { pose proof (withdraw_rejects _ _ _ _ Ha Hle) as Hw.
      rewrite (transferTo_withdraw_throws _ _ _ _ _ _ _ _ Ha Hta Hid Hw).
      unfold bind. rewrite Hw. split; reflexivity. }
    destruct (balance a <? amount)%float eqn:Hlt.
    { pose proof (withdraw_insufficient _ _ _ _ Ha Hle Hlt) as Hw.
      rewrite (transferTo_withdraw_throws _ _ _ _ _ _ _ _ Ha Hta Hid Hw).
      unfold bind. rewrite Hw. split; reflexivity. }
    destruct (transferTo_accepts _ _ _ _ amount _ Ha Hta Hid Hle Hlt) as (fd & ts & ->).
    destruct (withdraw_accepts _ _ _ _ Ha Hle Hlt) as (fd1 & ts1 & Hw).
    unfold bind. rewrite Hw.
    assert (Hta1 : heap (repaint fd1 ts1
                     (store this (set_balance (balance a - amount)%float a) w)) !! t
                   = Some ta).
    { rewrite heap_repaint, heap_store, lookup_insert_ne by exact Hne. exact Hta. }
    destruct (deposit_accepts _ _ _ _ Hta1 Hle) as (fd2 & ts2 & ->).
    split; reflexivity. }
  destruct Hheap as [Hs Hh]. split; [exact Hs|]. split; [exact Hh|].
  intros r. unfold balance_of. now rewrite Hh.
Qed.

Lemma C3_transferTo_is_withdraw_then_deposit_witness :
  succeeds (transferTo 1 (Some 2%positive) 300 demo)
  = succeeds (withdraw_then_deposit 1 2 300 demo)
  /\ heap (final (transferTo 1 (Some 2%positive) 300 demo))
     = heap (final (withdraw_then_deposit 1 2 300 demo))
  /\ (forall r : ref,
        balance_of (final (transferTo 1 (Some 2%positive) 300 demo)) r
        = balance_of (final (withdraw_then_deposit 1 2 300 demo)) r).
Proof.
  apply (C3_transferTo_is_withdraw_then_deposit 1 2 alice bob 300 demo);
    [vm_compute; reflexivity | vm_compute; reflexivity | vm_compute; discriminate].
Defined.

(** C9.  [transferTo] throws "Cannot transfer to same account" whenever the
    source and the target have the same id, and whenever [transferTo]
    throws, whatever the error, the state is the one before the call: the
    source balance and the target balance are unchanged. *)
Theorem C9_transferTo_throws (this t : ref) (a ta : Account) (amount : float)
    (w : World) :
  heap w !! this = Some a ->
  heap w !! t = Some ta ->
  (id a = id ta ->
   transferTo this (Some t) amount w
   = Thrown (Error "Cannot transfer to same account") w)
  /\ (forall (e : Exception) (w' : World),
        transferTo this (Some t) amount w = Thrown e w' ->
        w' = w
        /\ balance_of w' this = Some (balance a)
        /\ balance_of w' t = Some (balance ta)).
Proof.
  intros Ha Hta. split.
  - intros Hid. exact (transferTo_same_id _ _ _ _ _ _ Ha Hta Hid).
  - intros e w' H. apply transferTo_thrown in H. subst w'.
    unfold balance_of. now rewrite Ha, Hta.
Qed.

Lemma C9_transferTo_throws_witness :
  transferTo 1 (Some 1%positive) 10 demo
  = Thrown (Error "Cannot transfer to same account") demo
  /\ (forall (e : Exception) (w' : World),
        transferTo 2 (Some 1%positive) 5000 demo = Thrown e w' ->
        w' = demo
        /\ balance_of w' 2%positive = Some 1200%float
        /\ balance_of w' 1%positive = Some 5000%float).
Proof.
  split.
  - apply (C9_transferTo_throws 1 1 alice alice 10 demo);
      vm_compute; reflexivity.
  - apply (C9_transferTo_throws 2 1 bob alice 5000 demo);
      vm_compute; reflexivity.
Defined.

(** ** Exact values of doubles

    The order of two finite doubles is the order of their exact values:
    [SFcompare] compares exponents first and mantissas next, which is sound
    because a valid double has a canonical mantissa. *)

Lemma digits2_pos_bounds (m : positive) :
  2 ^ (Zpos (digits2_pos m) - 1) <= Zpos m < 2 ^ Zpos (digits2_pos m).
Proof.
  induction m as [p IH|p IH|]; cbn [digits2_pos].
  - rewrite Pos2Z.inj_succ, (Pos2Z.inj_xI p).
    replace (Z.succ (Zpos (digits2_pos p)) - 1) with (Z.succ (Zpos (digits2_pos p) - 1)) by lia.
    rewrite !Z.pow_succ_r by lia.
    generalize dependent (2 ^ (Zpos (digits2_pos p) - 1)).
    generalize (2 ^ Zpos (digits2_pos p)). lia.
  - rewrite Pos2Z.inj_succ, (Pos2Z.inj_xO p).
    replace (Z.succ (Zpos (digits2_pos p)) - 1) with (Z.succ (Zpos (digits2_pos p) - 1)) by lia.
    rewrite !Z.pow_succ_r by lia.
    generalize dependent (2 ^ (Zpos (digits2_pos p) - 1)).
    generalize (2 ^ Zpos (digits2_pos p)). lia.
  - cbn. lia.
Qed.

(** A valid finite double [m * 2^e]: the exponent is at least [-1074], the
    mantissa is below [2^53], and at least [2^52] above the least
    exponent. *)
Lemma bounded_inv (m : positive) (e : Z) :
  bounded prec emax m e = true ->
  -1074 <= e /\ Zpos m < 2 ^ 53 /\ (-1074 < e -> 2 ^ 52 <= Zpos m).
Proof.
  unfold bounded, canonical_mantissa, fexp, SpecFloat.emin, prec, emax.
  intros H. apply andb_prop in H as [H _]. apply Z.eqb_eq in H.
  pose proof (digits2_pos_bounds m) as [Hlo Hhi].
  set (d := Zpos (digits2_pos m)) in *.
  assert (Hd : 0 < d) by (unfold d; lia).
  split; [lia|]. split.
  - apply Z.lt_le_trans with (1 := Hhi). apply Z.pow_le_mono_r; lia.
  - intros He. replace d with 53 in Hlo by lia. exact Hlo.
Qed.

Lemma scaled_lt (m1 m2 : positive) (e1 e2 : Z) :
  bounded prec emax m1 e1 = true ->
  bounded prec emax m2 e2 = true ->
  e1 < e2 ->
  Zpos m1 * 2 ^ (e1 + 1074) < Zpos m2 * 2 ^ (e2 + 1074).
Proof.
  intros H1 H2 He.
  apply bounded_inv in H1 as (He1 & Hm1 & _).
  apply bounded_inv in H2 as (He2 & _ & Hm2).
  specialize (Hm2 ltac:(lia)).
  assert (Hp : 0 < 2 ^ (e1 + 1074)) by (apply Z.pow_pos_nonneg; lia).
  assert (Hq : 2 * 2 ^ (e1 + 1074) <= 2 ^ (e2 + 1074)).
  { rewrite <- Z.pow_succ_r by lia. apply Z.pow_le_mono_r; lia. }
  change (2 ^ 53) with (2 * 2 ^ 52) in Hm1.
  assert (H52 : 0 < 2 ^ 52) by reflexivity.
  nia.
Qed.

Lemma SFcompare_value (x y : spec_float) (vx vy : Z) :
  valid_binary x = true -> valid_binary y = true ->
  SF2Z x = Some vx -> SF2Z y = Some vy ->
  SFcompare x y = Some (vx ?= vy).
Proof.
  intros Hx Hy Hvx Hvy.
  destruct x as [sx|sx| |sx mx ex], y as [sy|sy| |sy my ey];
    try discriminate; cbn in Hvx, Hvy, Hx, Hy;
    injection Hvx as <-; injection Hvy as <-.
  - reflexivity.
  - pose proof (bounded_inv _ _ Hy) as (He & _).
    assert (0 < 2 ^ (ey + 1074)) by (apply Z.pow_pos_nonneg; lia).
    cbn [SFcompare]. f_equal. symmetry.
    destruct sy; cbn [cond_Zopp]; [apply Z.compare_gt_iff | apply Z.compare_lt_iff]; nia.
  - pose proof (bounded_inv _ _ Hx) as (He & _).
    assert (0 < 2 ^ (ex + 1074)) by (apply Z.pow_pos_nonneg; lia).
    cbn [SFcompare]. f_equal. symmetry.
    destruct sx; cbn [cond_Zopp]; [apply Z.compare_lt_iff | apply Z.compare_gt_iff]; nia.
  - pose proof (bounded_inv _ _ Hx) as (Hex & _).
    pose proof (bounded_inv _ _ Hy) as (Hey & _).
    assert (Hpx : 0 < 2 ^ (ex + 1074)) by (apply Z.pow_pos_nonneg; lia).
    assert (Hpy : 0 < 2 ^ (ey + 1074)) by (apply Z.pow_pos_nonneg; lia).
    cbn [SFcompare]. f_equal. symmetry.
    destruct sx, sy; cbn [cond_Zopp].
    + (* both negative *)
      destruct (Z.compare_spec ex ey) as [->|Hlt|Hgt].
      * change (Pos.compare_cont Eq mx my) with (Zpos mx ?= Zpos my).
        destruct (Z.compare_spec (Zpos mx) (Zpos my)) as [Heq|Hl|Hg]; cbn [CompOpp].
        -- apply Z.compare_eq_iff. rewrite Heq. reflexivity.
        -- apply Z.compare_gt_iff. nia.
        -- apply Z.compare_lt_iff. nia.
      * apply Z.compare_gt_iff. pose proof (scaled_lt _ _ _ _ Hx Hy Hlt). lia.
      * apply Z.compare_lt_iff. pose proof (scaled_lt _ _ _ _ Hy Hx Hgt). lia.
    + apply Z.compare_lt_iff. nia.
    + apply Z.compare_gt_iff. nia.
    + destruct (Z.compare_spec ex ey) as [->|Hlt|Hgt].
      * change (Pos.compare_cont Eq mx my) with (Zpos mx ?= Zpos my).
        destruct (Z.compare_spec (Zpos mx) (Zpos my)) as [Heq|Hl|Hg].
        -- apply Z.compare_eq_iff. rewrite Heq. reflexivity.
        -- apply Z.compare_lt_iff. nia.
        -- apply Z.compare_gt_iff. nia.
      * apply Z.compare_lt_iff. exact (scaled_lt _ _ _ _ Hx Hy Hlt).
      * apply Z.compare_gt_iff. exact (scaled_lt _ _ _ _ Hy Hx Hgt).
Qed.

Lemma exact_value_zero : exact_value 0 = Some 0.
Proof. reflexivity. Qed.

Lemma ltb_value (x y : float) (vx vy : Z) :
  exact_value x = Some vx -> exact_value y = Some vy ->
  (x <? y)%float = (vx <? vy)%Z.
Proof.
  intros Hx Hy. rewrite ltb_spec. unfold SFltb, Z.ltb.
  now rewrite (SFcompare_value _ _ vx vy (Prim2SF_valid x) (Prim2SF_valid y) Hx Hy).
Qed.

Lemma leb_value (x y : float) (vx vy : Z) :
  exact_value x = Some vx -> exact_value y = Some vy ->
  (x <=? y)%float = (vx <=? vy)%Z.
Proof.
  intros Hx Hy. rewrite leb_spec. unfold SFleb, Z.leb.
  rewrite (SFcompare_value _ _ vx vy (Prim2SF_valid x) (Prim2SF_valid y) Hx Hy).
  now destruct (vx ?= vy).
Qed.

Lemma eqb_value (x y : float) (vx vy : Z) :
  exact_value x = Some vx -> exact_value y = Some vy ->
  (x =? y)%float = (vx =? vy)%Z.
Proof.
  intros Hx Hy. rewrite FloatAxioms.eqb_spec, Z.eqb_compare. unfold SFeqb.
  now rewrite (SFcompare_value _ _ vx vy (Prim2SF_valid x) (Prim2SF_valid y) Hx Hy).
Qed.

(** ** Signs of sums, differences and products of doubles *)

Lemma ltb_zero_nonneg (x : float) : (x <? 0)%float = negb (SFnonneg (Prim2SF x)).
Proof.
  rewrite ltb_spec. change (Prim2SF 0) with (S754_zero false).
  now destruct (Prim2SF x) as [[|]|[|]| |[|] m e].
Qed.

Lemma binary_round_aux_nonneg (m : Z) (e : Z) (l : location) :
  SFnonneg (binary_round_aux prec emax false m e l) = true.
Proof.
  unfold binary_round_aux.
  destruct (shr_fexp prec emax m e l) as [mrs' e'].
  destruct (shr_fexp prec emax _ e' loc_Exact) as [mrs'' e''].
  destruct (shr_m mrs''); [reflexivity| |reflexivity].
  now destruct (e'' <=? emax - prec).
Qed.

Lemma binary_round_nonneg (m : positive) (e : Z) :
  SFnonneg (binary_round prec emax false m e) = true.
Proof.
  unfold binary_round. destruct (shl_align _ _ _). apply binary_round_aux_nonneg.
Qed.

Lemma binary_normalize_nonneg (m e : Z) (szero : bool) :
  0 <= m -> SFnonneg (binary_normalize prec emax m e szero) = true.
Proof.
  destruct m as [|p|p]; cbn [binary_normalize]; intros Hm;
    [reflexivity | apply binary_round_nonneg | lia].
Qed.

Lemma SFadd_nonneg (x y : spec_float) :
  SFnonneg x = true -> SFnonneg y = true -> SFnonneg (SFadd prec emax x y) = true.
Proof.
  destruct x as [[|]|[|]| |[|] mx ex], y as [[|]|[|]| |[|] my ey];
    try discriminate; try reflexivity.
  intros _ _. cbn [SFadd cond_Zopp]. apply binary_normalize_nonneg. lia.
Qed.

Lemma SFmul_nonneg (x y : spec_float) :
  SFnonneg x = true -> SFnonneg y = true -> SFnonneg (SFmul prec emax x y) = true.
Proof.
  destruct x as [[|]|[|]| |[|] mx ex], y as [[|]|[|]| |[|] my ey];
    try discriminate; try reflexivity.
  intros _ _. cbn [SFmul xorb]. apply binary_round_aux_nonneg.
Qed.

Lemma iter_xO (m d : positive) : Zpos (Pos.iter xO m d) = Zpos m * 2 ^ Zpos d.
Proof.
  induction d as [|d IH] using Pos.peano_ind.
  - cbn. lia.
  - rewrite Pos.iter_succ, Pos2Z.inj_succ, Z.pow_succ_r by lia.
    rewrite (Pos2Z.inj_xO (Pos.iter xO m d)), IH. lia.
Qed.

(** Aligning a mantissa to a smaller exponent keeps the value. *)
Lemma shl_align_value (m : positive) (e e' : Z) :
  e' <= e -> Zpos (fst (shl_align m e e')) = Zpos m * 2 ^ (e - e').
Proof.
  intros He. unfold shl_align.
  destruct (e' - e) as [|d|d] eqn:Hd; cbn [fst].
  - replace (e - e') with 0 by lia. lia.
  - lia.
  - rewrite iter_xO. f_equal. f_equal. lia.
Qed.

Lemma SFsub_nonneg (x y : spec_float) :
  valid_binary x = true -> valid_binary y = true ->
  SFleb y (S754_zero false) = false ->
  SFltb x y = false ->
  SFnonneg (SFsub prec emax x y) = true.
Proof.
  intros Hx Hy Hle Hlt.
  destruct x as [[|]|[|]| |[|] mx ex], y as [[|]|[|]| |[|] my ey];
    try discriminate; try reflexivity.
  cbn [SFsub cond_Zopp]. apply binary_normalize_nonneg.
  unfold SFltb in Hlt.
  rewrite (SFcompare_value _ _ _ _ Hx Hy eq_refl eq_refl) in Hlt.
  cbn [cond_Zopp] in Hlt.
  assert (Hv : Zpos my * 2 ^ (ey + 1074) <= Zpos mx * 2 ^ (ex + 1074)).
  { destruct (Z.compare_spec (Zpos mx * 2 ^ (ex + 1074)) (Zpos my * 2 ^ (ey + 1074)));
      [lia | discriminate | lia]. }
  cbn in Hx, Hy. apply bounded_inv in Hx as (Hex & _). apply bounded_inv in Hy as (Hey & _).
  rewrite !shl_align_value by lia.
  set (ez := Z.min ex ey) in *.
  assert (Hez : -1074 <= ez <= ex /\ ez <= ey) by lia.
  replace (ex + 1074) with ((ex - ez) + (ez + 1074)) in Hv by lia.
  replace (ey + 1074) with ((ey - ez) + (ez + 1074)) in Hv by lia.
  rewrite (Z.pow_add_r 2 (ex - ez) (ez + 1074)),
    (Z.pow_add_r 2 (ey - ez) (ez + 1074)), !Z.mul_assoc in Hv by lia.
  apply Z.mul_le_mono_pos_r in Hv; [lia|].
  apply Z.pow_pos_nonneg; lia.
Qed.

Lemma add_not_negative (x y : float) :
  (x <? 0)%float = false -> (y <? 0)%float = false -> (x + y <? 0)%float = false.
Proof.
  rewrite !ltb_zero_nonneg, add_spec, !negb_false_iff. apply SFadd_nonneg.
Qed.

Lemma mul_not_negative (x y : float) :
  (x <? 0)%float = false -> (y <? 0)%float = false -> (x * y <? 0)%float = false.
Proof.
  rewrite !ltb_zero_nonneg, mul_spec, !negb_false_iff. apply SFmul_nonneg.
Qed.

Lemma sub_not_negative (x y : float) :
  (y <=? 0)%float = false -> (x <? y)%float = false -> (x - y <? 0)%float = false.
Proof.
  rewrite ltb_zero_nonneg, sub_spec, leb_spec, ltb_spec, Prim2SF_zero, negb_false_iff.
  apply SFsub_nonneg; apply Prim2SF_valid.
Qed.

Lemma not_le_not_negative (x : float) :
  (x <=? 0)%float = false -> (x <? 0)%float = false.
Proof.
  rewrite ltb_spec, leb_spec, Prim2SF_zero.
  destruct (Prim2SF x) as [[|]|[|]| |[|] m e]; cbn; congruence.
Qed.

(** ** Rounding is monotone enough

    [x + y] is the exact sum rounded to a double: the mantissa is shifted
    right ([shr_fexp] is a division by a power of two), rounded to
    nearest, and shifted once more if the rounding carried.  A double that
    the exact sum is not below is a multiple of the final unit, so the
    rounded sum is not below it either. *)

Lemma shr_1_div2 (mrs : shr_record) :
  0 <= shr_m mrs -> shr_m (shr_1 mrs) = shr_m mrs / 2.
Proof.
  destruct mrs as [m r s]. cbn [shr_m shr_1].
  destruct m as [|[p|p|]|p]; cbn [shr_m]; intros Hm.
  - reflexivity.
  - apply Z.div_unique with 1; lia.
  - apply Z.div_unique with 0; lia.
  - reflexivity.
  - lia.
Qed.

Lemma iter_shr_1 (p : positive) (mrs : shr_record) :
  0 <= shr_m mrs -> shr_m (SpecFloat.iter_pos shr_1 p mrs) = shr_m mrs / 2 ^ Zpos p.
Proof.
  revert mrs. induction p as [p IH|p IH|]; intros mrs Hm; cbn [SpecFloat.iter_pos].
  - assert (H1 : 0 <= shr_m (shr_1 mrs)) by (rewrite shr_1_div2 by lia; apply Z.div_pos; lia).
    assert (H2 : 0 <= shr_m (SpecFloat.iter_pos shr_1 p (shr_1 mrs)))
      by (rewrite IH by lia; apply Z.div_pos; lia).
    rewrite IH, IH, shr_1_div2 by lia.
    rewrite !Z.div_div by lia. f_equal.
    rewrite (Pos2Z.inj_xI p), Z.pow_add_r, Z.pow_mul_r by lia.
    change (2 ^ 2) with 4. change (2 ^ 1) with 2.
    replace (4 ^ Zpos p) with (2 ^ Zpos p * 2 ^ Zpos p); [lia|].
    rewrite <- Z.pow_mul_l. reflexivity.
  - assert (H2 : 0 <= shr_m (SpecFloat.iter_pos shr_1 p mrs))
      by (rewrite IH by lia; apply Z.div_pos; lia).
    rewrite IH, IH by lia.
    rewrite !Z.div_div by lia. f_equal.
    rewrite (Pos2Z.inj_xO p), Z.pow_mul_r by lia.
    change (2 ^ 2) with 4.
    rewrite <- Z.pow_mul_l. reflexivity.
  - rewrite shr_1_div2 by lia. reflexivity.
Qed.

Lemma shr_m_of_loc (m : Z) (l : location) : shr_m (shr_record_of_loc m l) = m.
Proof. now destruct l as [|[| |]]. Qed.

(** [shr_fexp] divides the mantissa by a power of two and raises the
    exponent by as much. *)
Lemma shr_fexp_spec (m e : Z) (l : location) :
  0 <= m ->
  let n := Z.max 0 (fexp prec emax (Zdigits2 m + e) - e) in
  snd (shr_fexp prec emax m e l) = e + n
  /\ shr_m (fst (shr_fexp prec emax m e l)) = m / 2 ^ n.
Proof.
  intros Hm n. unfold shr_fexp, shr. subst n.
  destruct (fexp prec emax (Zdigits2 m + e) - e) as [|p|p]; cbn [fst snd].
  - rewrite shr_m_of_loc, Z.div_1_r. split; [lia | reflexivity].
  - rewrite iter_shr_1 by (rewrite shr_m_of_loc; exact Hm).
    rewrite shr_m_of_loc. split; [lia|]. f_equal.
  - rewrite shr_m_of_loc, Z.div_1_r. split; [lia | reflexivity].
Qed.

Lemma shr_fexp_pos (m e : Z) (l : location) :
  0 < m -> -1074 <= e ->
  0 < shr_m (fst (shr_fexp prec emax m e l)).
Proof.
  intros Hm He.
  destruct (shr_fexp_spec m e l ltac:(lia)) as [_ ->].
  destruct m as [|p|p]; try lia.
  pose proof (digits2_pos_bounds p) as [Hlo _].
  cbn [Zdigits2]. unfold fexp, SpecFloat.emin, prec, emax.
  set (d := Zpos (digits2_pos p)) in *.
  assert (Hd : 0 < d) by (unfold d; lia).
  apply Z.div_str_pos. split; [apply Z.pow_pos_nonneg; lia|].
  apply Z.le_trans with (2 := Hlo). apply Z.pow_le_mono_r; lia.
Qed.

Lemma round_nearest_even_ge (m : Z) (l : location) : m <= round_nearest_even m l.
Proof. destruct l as [|[| |]]; cbn; try lia. destruct (Z.even m); lia. Qed.

Lemma shl_align_spec (m : positive) (e t : Z) :
  snd (shl_align m e t) = Z.min e t
  /\ Zpos (fst (shl_align m e t)) = Zpos m * 2 ^ (e - Z.min e t).
Proof.
  unfold shl_align. destruct (t - e) as [|d|d] eqn:Hd; cbn [fst snd].
  - replace (Z.min e t) with e by lia. rewrite Z.sub_diag. lia.
  - replace (Z.min e t) with e by lia. rewrite Z.sub_diag. lia.
  - replace (Z.min e t) with t by lia. split; [reflexivity|].
    rewrite iter_xO. f_equal. f_equal. lia.
Qed.

(** Rounding a positive value to a double does not go below a double that
    the value is not below. *)
Lemma binary_round_aux_ge (mz : positive) (ez1 : Z) (my : positive) (ey : Z) :
  -1074 <= ez1 ->
  Zpos my * 2 ^ (ey + 1074) <= Zpos mz * 2 ^ (ez1 + 1074) ->
  match binary_round_aux prec emax false (Zpos mz) ez1 loc_Exact with
  | S754_zero _ | S754_nan => False
  | S754_infinity s => s = false
  | S754_finite s m e =>
      s = false /\ (e <= ey -> Zpos my * 2 ^ (ey + 1074) <= Zpos m * 2 ^ (e + 1074))
  end.
Proof.
  intros Hez Hv. unfold binary_round_aux.
  pose proof (shr_fexp_spec (Zpos mz) ez1 loc_Exact ltac:(lia)) as [He' Hq].
  pose proof (shr_fexp_pos (Zpos mz) ez1 loc_Exact ltac:(lia) Hez) as Hqpos.
  destruct (shr_fexp prec emax (Zpos mz) ez1 loc_Exact) as [mrs' e'].
  cbn [fst snd] in He', Hq, Hqpos.
  set (n1 := Z.max 0 (fexp prec emax (Zdigits2 (Zpos mz) + ez1) - ez1)) in *.
  pose proof (round_nearest_even_ge (shr_m mrs') (loc_of_shr_record mrs')) as Hm1.
  set (m1 := round_nearest_even (shr_m mrs') (loc_of_shr_record mrs')) in *.
  pose proof (shr_fexp_spec m1 e' loc_Exact ltac:(lia)) as [He'' Hm2].
  pose proof (shr_fexp_pos m1 e' loc_Exact ltac:(lia) ltac:(lia)) as Hm2pos.
  destruct (shr_fexp prec emax m1 e' loc_Exact) as [mrs'' e''].
  cbn [fst snd] in He'', Hm2, Hm2pos.
  set (n2 := Z.max 0 (fexp prec emax (Zdigits2 m1 + e') - e')) in *.
  destruct (shr_m mrs'') as [|m2|m2]; try lia.
  destruct (e'' <=? emax - prec); [|reflexivity].
  split; [reflexivity|]. intros Hle.
  assert (Hn1 : 0 <= n1) by (unfold n1; lia).
  assert (Hn2 : 0 <= n2) by (unfold n2; lia).
  set (Y := Zpos my * 2 ^ (ey - e'')).
  assert (HY : Zpos my * 2 ^ (ey + 1074) = Y * 2 ^ (e'' + 1074)).
  { unfold Y. rewrite <- Z.mul_assoc, <- Z.pow_add_r by lia. f_equal. f_equal. lia. }
  rewrite HY in *.
  apply Z.mul_le_mono_nonneg_r; [apply Z.pow_nonneg; lia|].
  assert (Hmz : Y * 2 ^ n2 * 2 ^ n1 <= Zpos mz).
  { replace (e'' + 1074) with ((n2 + n1) + (ez1 + 1074)) in Hv by lia.
    rewrite Z.pow_add_r, Z.mul_assoc in Hv by lia.
    apply Z.mul_le_mono_pos_r in Hv; [|apply Z.pow_pos_nonneg; lia].
    rewrite Z.pow_add_r, Z.mul_assoc in Hv by lia. exact Hv. }
  assert (Hq' : Y * 2 ^ n2 <= shr_m mrs').
  { rewrite Hq. apply Z.div_le_lower_bound; [apply Z.pow_pos_nonneg; lia|].
    rewrite Z.mul_comm. exact Hmz. }
  rewrite Hm2. apply Z.div_le_lower_bound; [apply Z.pow_pos_nonneg; lia|].
  rewrite Z.mul_comm. lia.
Qed.

Lemma SFcompare_refl_finite (m : positive) (e : Z) :
  SFcompare (S754_finite false m e) (S754_finite false m e) = Some Eq.
Proof.
  cbn [SFcompare]. rewrite Z.compare_refl.
  change (Pos.compare_cont Eq m m) with (m ?= m)%positive.
  now rewrite Pos.compare_refl.
Qed.

(** Adding a non-negative double to a positive one does not give less. *)
Lemma SFadd_ge (x y : spec_float) :
  valid_binary x = true -> valid_binary y = true ->
  valid_binary (SFadd prec emax x y) = true ->
  SFleb (S754_zero false) x = true ->
  SFleb y (S754_zero false) = false ->
  SFltb (SFadd prec emax x y) y = false.
Proof.
  intros Hx Hy Hr Hx0 Hy0.
  destruct x as [[|]|[|]| |[|] mx ex], y as [[|]|[|]| |[|] my ey];
    try discriminate; try reflexivity;
    try (unfold SFltb; cbn [SFadd]; now rewrite SFcompare_refl_finite).
  revert Hr. cbn [SFadd cond_Zopp]. cbn in Hx, Hy.
  pose proof (bounded_inv _ _ Hx) as (Hex & _).
  pose proof (bounded_inv _ _ Hy) as (Hey & _).
  set (ez := Z.min ex ey).
  destruct (shl_align_spec mx ex ez) as [_ Hmx].
  destruct (shl_align_spec my ey ez) as [_ Hmy].
  replace (Z.min ex ez) with ez in Hmx by lia.
  replace (Z.min ey ez) with ez in Hmy by lia.
  set (mx' := fst (shl_align mx ex ez)) in *.
  set (my' := fst (shl_align my ey ez)) in *.
  change (Zpos mx' + Zpos my') with (Zpos (mx' + my')).
  cbn [binary_normalize]. unfold binary_round.
  set (t := fexp prec emax (Zpos (digits2_pos (mx' + my')) + ez)).
  destruct (shl_align_spec (mx' + my') ez t) as [Hez1 Hmz].
  destruct (shl_align (mx' + my') ez t) as [mz ez1]. cbn [fst snd] in Hez1, Hmz.
  assert (Ht : -1074 <= t) by (unfold t, fexp, SpecFloat.emin, prec, emax; lia).
  assert (Hv : Zpos my * 2 ^ (ey + 1074) <= Zpos mz * 2 ^ (ez1 + 1074)).
  { rewrite Hmz, <- Z.mul_assoc, <- Z.pow_add_r by lia.
    replace (ez - Z.min ez t + (ez1 + 1074)) with (ez + 1074) by lia.
    rewrite Pos2Z.inj_add, Hmx, Hmy, Z.mul_add_distr_r.
    rewrite <- (Z.mul_assoc (Zpos my)), <- Z.pow_add_r by lia.
    replace (ey - ez + (ez + 1074)) with (ey + 1074) by lia.
    assert (0 <= Zpos mx * 2 ^ (ex - ez) * 2 ^ (ez + 1074)); [|lia].
    apply Z.mul_nonneg_nonneg; [apply Z.mul_nonneg_nonneg|];
      try lia; apply Z.pow_nonneg; lia. }
  pose proof (binary_round_aux_ge mz ez1 my ey ltac:(lia) Hv) as Hge.
  destruct (binary_round_aux prec emax false (Zpos mz) ez1 loc_Exact)
    as [s|s| |s m e]; try contradiction.
  - subst s. reflexivity.
  - destruct Hge as [-> Hge]. intros Hr. unfold SFltb.
    rewrite (SFcompare_value (S754_finite false m e) (S754_finite false my ey)
               _ _ Hr Hy eq_refl eq_refl).
    cbn [cond_Zopp].
    destruct (Z.le_gt_cases e ey) as [Hle|Hgt].
    + specialize (Hge Hle).
      destruct (Z.compare_spec (Zpos m * 2 ^ (e + 1074)) (Zpos my * 2 ^ (ey + 1074)));
        [reflexivity | lia | reflexivity].
    + pose proof (scaled_lt _ _ _ _ Hy Hr Hgt).
      destruct (Z.compare_spec (Zpos m * 2 ^ (e + 1074)) (Zpos my * 2 ^ (ey + 1074)));
        [reflexivity | lia | reflexivity].
Qed.

Lemma add_ge (b a : float) :
  (0 <=? b)%float = true -> (a <=? 0)%float = false -> (b + a <? a)%float = false.
Proof.
  rewrite ltb_spec, !leb_spec, add_spec.
  change (Prim2SF 0) with (S754_zero false).
  intros Hb Ha.
  apply SFadd_ge; try apply Prim2SF_valid; try assumption.
  rewrite <- add_spec. apply Prim2SF_valid.
Qed.

(** ** Successful calls, read backwards *)

Lemma deposit_returned (this : ref) (a : Account) (amount : float) (w w' : World) :
  heap w !! this = Some a ->
  deposit this amount w = Returned tt w' ->
  (amount <=? 0)%float = false
  /\ exists fd ts,
       w' = repaint fd ts (store this (set_balance (balance a + amount)%float a) w).
Proof.
  intros Ha H. destruct (amount <=? 0)%float eqn:Hle.
  - rewrite (deposit_rejects _ _ _ _ Ha Hle) in H. discriminate.
  - split; [reflexivity|].
    destruct (deposit_accepts _ _ _ _ Ha Hle) as (fd & ts & Hok).
    rewrite Hok in H. injection H as <-. now exists fd, ts.
Qed.

Lemma withdraw_returned (this : ref) (a : Account) (amount : float) (w w' : World) :
  heap w !! this = Some a ->
  withdraw this amount w = Returned tt w' ->
  (amount <=? 0)%float = false
  /\ (balance a <? amount)%float = false
  /\ exists fd ts,
       w' = repaint fd ts (store this (set_balance (balance a - amount)%float a) w).
Proof.
  intros Ha H. destruct (amount <=? 0)%float eqn:Hle.
  - rewrite (withdraw_rejects _ _ _ _ Ha Hle) in H. discriminate.
  - destruct (balance a <? amount)%float eqn:Hlt.
    + rewrite (withdraw_insufficient _ _ _ _ Ha Hle Hlt) in H. discriminate.
    + split; [reflexivity|]. split; [reflexivity|].
      destruct (withdraw_accepts _ _ _ _ Ha Hle Hlt) as (fd & ts & Hok).
      rewrite Hok in H. injection H as <-. now exists fd, ts.
Qed.

Lemma transferTo_returned (this t : ref) (a ta : Account) (amount : float)
    (w w' : World) :
  heap w !! this = Some a ->
  heap w !! t = Some ta ->
  transferTo this (Some t) amount w = Returned tt w' ->
  id a <> id ta
  /\ (amount <=? 0)%float = false
  /\ (balance a <? amount)%float = false
  /\ exists fd ts,
       w' = repaint fd ts
              (store t (set_balance (balance ta + amount)%float ta)
                 (store this (set_balance (balance a - amount)%float a) w)).
Proof.
  intros Ha Hta H.
  destruct (Z.eq_dec (id a) (id ta)) as [Hid|Hid].
  { rewrite (transferTo_same_id _ _ _ _ _ _ Ha Hta Hid) in H. discriminate. }
  split; [exact Hid|].
  destruct (withdraw this amount w) as [[] w1|e1 w1] eqn:Hw.
  - destruct (withdraw_returned _ _ _ _ _ Ha Hw) as (Hle & Hlt & _).
    split; [exact Hle|]. split; [exact Hlt|].
    destruct (transferTo_accepts _ _ _ _ amount _ Ha Hta Hid Hle Hlt) as (fd & ts & Hok).
    rewrite Hok in H. injection H as <-. now exists fd, ts.
  - rewrite (transferTo_withdraw_throws _ _ _ _ _ _ _ _ Ha Hta Hid Hw) in H.
    discriminate.
Qed.

(** ** Conservation in a transfer (C10) *)

(** C10, as stated, fails: with 0.3 in one account and 0.7 in the other, a
    successful transfer of 0.1 leaves 0.19999999999999998 and
    0.7999999999999999.  Their exact sum has changed, and so has the sum
    that the script would compute: 0.9999999999999999 instead of 1. *)
Lemma C10_sum_counterexample :
  let w := two_accounts 0.3 0.7 in
  let w' := final (transferTo 1 (Some 2%positive) 0.1 w) in
  succeeds (transferTo 1 (Some 2%positive) 0.1 w) = true
  /\ balance_of w 1%positive = Some 0.3%float
  /\ balance_of w 2%positive = Some 0.7%float
  /\ balance_of w' 1%positive = Some 0.19999999999999998%float
  /\ balance_of w' 2%positive = Some 0.7999999999999999%float
  /\ total w' 1 2 <> total w 1 2
  /\ float_total w 1 2 = Some 1%float
  /\ float_total w' 1 2 = Some 0.9999999999999999%float
  /\ (0.9999999999999999 =? 1)%float = false.
Proof.
  cbv zeta. split; [vm_compute; reflexivity|].
  split; [vm_compute; reflexivity|]. split; [vm_compute; reflexivity|].
  split; [vm_compute; reflexivity|]. split; [vm_compute; reflexivity|].
  split; [vm_compute; discriminate|].
  split; [vm_compute; reflexivity|]. split; vm_compute; reflexivity.
Qed.

(** C10, amended.  Every successful [transferTo] between two accounts sets
    the source balance to [s - amount] and the target balance to
    [t + amount] in double arithmetic and leaves the balance of every other
    account unchanged; when that subtraction and that addition are exact
    (not rounded), the exact sum of the two balances is unchanged. *)
Theorem C10_transferTo_conserves (this t : ref) (a ta : Account) (amount : float)
    (w w' : World) :
  heap w !! this = Some a ->
  heap w !! t = Some ta ->
  transferTo this (Some t) amount w = Returned tt w' ->
  balance_of w' this = Some (balance a - amount)%float
  /\ balance_of w' t = Some (balance ta + amount)%float
  /\ (forall r : ref, r <> this -> r <> t -> balance_of w' r = balance_of w r)
  /\ (exact_sub (balance a) amount = true ->
      exact_add (balance ta) amount = true ->
      total w' this t = total w this t /\ total w this t <> None).
Proof.
  intros Ha Hta H.
  destruct (transferTo_returned _ _ _ _ _ _ _ Ha Hta H) as (Hid & _ & _ & fd & ts & ->).
  assert (Hne : this <> t) by (intros ->; congruence).
  assert (Hs : balance_of
                 (repaint fd ts
                    (store t (set_balance (balance ta + amount)%float ta)
                       (store this (set_balance (balance a - amount)%float a) w))) this
               = Some (balance a - amount)%float).
  { rewrite balance_of_store_ne by congruence.
    exact (balance_of_store this _ (notificationsFeed w) (toasts w) w). }
  assert (Ht : balance_of
                 (repaint fd ts
                    (store t (set_balance (balance ta + amount)%float ta)
                       (store this (set_balance (balance a - amount)%float a) w))) t
               = Some (balance ta + amount)%float).
  { now rewrite balance_of_store. }
  split; [exact Hs|]. split; [exact Ht|]. split.
  - intros r Hr1 Hr2. rewrite balance_of_store_ne by congruence.
    exact (balance_of_store_ne this r _ (notificationsFeed w) (toasts w) w
             (not_eq_sym Hr1)).
  - intros Hsub Hadd.
    destruct (exact_sub_inv _ _ Hsub) as (vs & va & Hvs & Hva & Hvs').
    destruct (exact_add_inv _ _ Hadd) as (vt & va' & Hvt & Hva' & Hvt').
    assert (va' = va) by congruence. subst va'.
    unfold total. rewrite Hs, Ht. unfold balance_of. rewrite Ha, Hta. cbn [fmap option_fmap option_map].
    rewrite Hvs, Hvt, Hvs', Hvt'. split; [f_equal; lia | discriminate].
Qed.

Lemma C10_transferTo_conserves_witness :
  let w' := final (transferTo 1 (Some 2%positive) 300 demo) in
  balance_of w' 1%positive = Some (5000 - 300)%float
  /\ balance_of w' 2%positive = Some (1200 + 300)%float
  /\ (forall r : ref, r <> 1%positive -> r <> 2%positive ->
      balance_of w' r = balance_of demo r)
  /\ total w' 1 2 = total demo 1 2
  /\ total demo 1 2 <> None.
Proof.
  cbv zeta.
  destruct (C10_transferTo_conserves 1 2 alice bob 300 demo
              (final (transferTo 1 (Some 2%positive) 300 demo)))
    as (H1 & H2 & H3 & H4);
    [vm_compute; reflexivity | vm_compute; reflexivity | vm_compute; reflexivity |].
  destruct H4 as [H4 H5]; [vm_compute; reflexivity | vm_compute; reflexivity |].
  exact (conj H1 (conj H2 (conj H3 (conj H4 H5)))).
Defined.

(** ** Undo of a command (C2) *)

Lemma balance_of_Some (w : World) (r : ref) (b : float) :
  balance_of w r = Some b -> exists a, heap w !! r = Some a /\ balance a = b.
Proof.
  unfold balance_of. destruct (heap w !! r) as [a|]; [|discriminate].
  cbn. intros [= <-]. now exists a.
Qed.

Lemma undo_deposit_spec (r : ref) (a : Account) (amount : float) (w : World) :
  heap w !! r = Some a ->
  (amount <=? 0)%float = false ->
  (balance a <? amount)%float = false ->
  exists fd ts,
    undo (DepositCommand (Some r) amount) w
    = Returned tt (repaint fd ts (store r (set_balance (balance a - amount)%float a) w)).
Proof.
  intros Ha Hle Hlt. cbn [undo defined]. unfold bind at 1, ret.
  destruct (withdraw_accepts _ _ _ _ Ha Hle Hlt) as (fd & ts & Hw).
  unfold bind at 1. rewrite Hw. unfold bind, deref.
  rewrite heap_repaint, heap_store, lookup_insert_eq.
  rewrite addNotification_spec. now eexists _, _.
Qed.

Lemma undo_withdraw_spec (r : ref) (a : Account) (amount : float) (w : World) :
  heap w !! r = Some a ->
  (amount <=? 0)%float = false ->
  exists fd ts,
    undo (WithdrawCommand (Some r) amount) w
    = Returned tt (repaint fd ts (store r (set_balance (balance a + amount)%float a) w)).
Proof.
  intros Ha Hle. cbn [undo defined]. unfold bind at 1, ret.
  destruct (deposit_accepts _ _ _ _ Ha Hle) as (fd & ts & Hd).
  unfold bind at 1. rewrite Hd. unfold bind, deref.
  rewrite heap_repaint, heap_store, lookup_insert_eq.
  rewrite addNotification_spec. now eexists _, _.
Qed.

Lemma undo_transfer_spec (f t : ref) (fa ta : Account) (amount : float) (w : World) :
  heap w !! f = Some fa ->
  heap w !! t = Some ta ->
  f <> t ->
  (amount <=? 0)%float = false ->
  (balance ta <? amount)%float = false ->
  exists fd ts,
    undo (TransferCommand (Some f) (Some t) amount) w
    = Returned tt (repaint fd ts
        (store f (set_balance (balance fa + amount)%float fa)
           (store t (set_balance (balance ta - amount)%float ta) w))).
Proof.
  intros Hfa Hta Hne Hle Hlt. cbn [undo defined]. unfold bind at 1, ret.
  destruct (withdraw_accepts _ _ _ _ Hta Hle Hlt) as (fd1 & ts1 & Hw).
  unfold bind at 1. rewrite Hw. unfold bind at 1.
  set (w1 := repaint fd1 ts1 (store t (set_balance (balance ta - amount)%float ta) w)).
  assert (Hfa1 : heap w1 !! f = Some fa).
  { unfold w1. rewrite heap_repaint, heap_store, lookup_insert_ne by congruence.
    exact Hfa. }
  destruct (deposit_accepts _ _ _ _ Hfa1 Hle) as (fd2 & ts2 & Hd).
  unfold bind at 1. rewrite Hd. unfold bind, deref.
  rewrite heap_repaint, heap_store, lookup_insert_eq.
  rewrite heap_repaint, heap_store, lookup_insert_ne by exact Hne.
  unfold w1. rewrite heap_repaint, heap_store, lookup_insert_eq.
  rewrite addNotification_spec. now eexists _, _.
Qed.

(** What exactness gives: the round trip ends on the value it started
    from. *)
Lemma add_then_sub (b amount : float) :
  exact_add b amount = true ->
  exact_sub (b + amount) amount = true ->
  (b + amount - amount =? b)%float = true.
Proof.
  intros Hadd Hsub.
  destruct (exact_add_inv _ _ Hadd) as (vb & va & Hvb & Hva & Hsum).
  destruct (exact_sub_inv _ _ Hsub) as (vs & va' & Hvs & Hva' & Hdiff).
  assert (vs = vb + va) by congruence. assert (va' = va) by congruence. subst vs va'.
  rewrite (eqb_value _ _ _ _ Hdiff Hvb). apply Z.eqb_eq. lia.
Qed.

Lemma sub_then_add (b amount : float) :
  exact_sub b amount = true ->
  exact_add (b - amount) amount = true ->
  (b - amount + amount =? b)%float = true.
Proof.
  intros Hsub Hadd.
  destruct (exact_sub_inv _ _ Hsub) as (vb & va & Hvb & Hva & Hdiff).
  destruct (exact_add_inv _ _ Hadd) as (vd & va' & Hvd & Hva' & Hsum).
  assert (vd = vb - va) by congruence. assert (va' = va) by congruence. subst vd va'.
  rewrite (eqb_value _ _ _ _ Hsum Hvb). apply Z.eqb_eq. lia.
Qed.

(** C2, as stated, fails: on an account that holds 0.1, a [DepositCommand]
    of 0.2 executes and is undone without an error, and the balance ends at
    0.10000000000000003, which is not the balance before [execute()]. *)
Lemma C2_undo_counterexample :
  let w := final (create_acct "Ann" "savings" 0.1 initial) in
  let cmd := DepositCommand (Some 1%positive) 0.2 in
  let w1 := final (execute cmd w) in
  let w2 := final (undo cmd w1) in
  balance_of w 1%positive = Some 0.1%float
  /\ (0 <=? 0.1)%float = true
  /\ succeeds (execute cmd w) = true
  /\ succeeds (undo cmd w1) = true
  /\ balance_of w2 1%positive = Some 0.10000000000000003%float
  /\ (0.10000000000000003 =? 0.1)%float = false.
Proof.
  cbv zeta. split; [vm_compute; reflexivity|].
  split; [vm_compute; reflexivity|]. split; [vm_compute; reflexivity|].
  split; [vm_compute; reflexivity|]. split; vm_compute; reflexivity.
Qed.

(** C2, amended.  For every command (deposit, withdraw or transfer) whose
    [execute()] succeeds on accounts whose balances are non-negative,
    calling [undo()] right after succeeds; and when none of the additions
    and subtractions of [execute()] and [undo()] is rounded, it restores
    the balance of every account involved ([===] to its value before
    [execute()]). *)
Theorem C2_undo_restores (cmd : Command) (w w1 : World) :
  (forall r : ref, In r (involved cmd) ->
     exists b, balance_of w r = Some b /\ (0 <=? b)%float = true) ->
  execute cmd w = Returned tt w1 ->
  exists w2,
    undo cmd w1 = Returned tt w2
    /\ (round_trip_exact cmd w = true ->
        forall r : ref, In r (involved cmd) ->
          exists b b2, balance_of w r = Some b /\ balance_of w2 r = Some b2
                       /\ (b2 =? b)%float = true).
Proof.
  intros Hnonneg Hexec.
  destruct cmd as [[r|] amount|[r|] amount|[f|] [t|] amount];
    try (cbv [execute defined bind throw] in Hexec; discriminate Hexec);
    [ | | | cbv [execute defined bind ret transferTo deref throw] in Hexec;
            destruct (heap w !! f); discriminate Hexec ].
  - (* DepositCommand *)
    destruct (Hnonneg r) as (b & Hb & Hb0); [now left|].
    destruct (balance_of_Some _ _ _ Hb) as (a & Ha & <-).
    destruct (deposit_returned _ _ _ _ _ Ha Hexec) as (Hle & fd & ts & ->).
    destruct (undo_deposit_spec r (set_balance (balance a + amount)%float a) amount
                (repaint fd ts (store r (set_balance (balance a + amount)%float a) w)))
      as (fd' & ts' & ->);
      [apply lookup_insert_eq | exact Hle | exact (add_ge _ _ Hb0 Hle) |].
    eexists. split; [reflexivity|].
    cbn [round_trip_exact]. rewrite Hb. intros Hexact.
    apply andb_prop in Hexact as [Hadd Hsub].
    intros r' [<-|[]]. exists (balance a), (balance a + amount - amount)%float.
    split; [exact Hb|]. split; [apply balance_of_store | exact (add_then_sub _ _ Hadd Hsub)].
  - (* WithdrawCommand *)
    destruct (Hnonneg r) as (b & Hb & Hb0); [now left|].
    destruct (balance_of_Some _ _ _ Hb) as (a & Ha & <-).
    destruct (withdraw_returned _ _ _ _ _ Ha Hexec) as (Hle & Hlt & fd & ts & ->).
    destruct (undo_withdraw_spec r (set_balance (balance a - amount)%float a) amount
                (repaint fd ts (store r (set_balance (balance a - amount)%float a) w)))
      as (fd' & ts' & ->); [apply lookup_insert_eq | exact Hle |].
    eexists. split; [reflexivity|].
    cbn [round_trip_exact]. rewrite Hb. intros Hexact.
    apply andb_prop in Hexact as [Hsub Hadd].
    intros r' [<-|[]]. exists (balance a), (balance a - amount + amount)%float.
    split; [exact Hb|]. split; [apply balance_of_store | exact (sub_then_add _ _ Hsub Hadd)].
  - (* TransferCommand *)
    destruct (Hnonneg f) as (s & Hs & Hs0); [now left|].
    destruct (Hnonneg t) as (b & Hb & Hb0); [now right; left|].
    destruct (balance_of_Some _ _ _ Hs) as (fa & Hfa & <-).
    destruct (balance_of_Some _ _ _ Hb) as (ta & Hta & <-).
    destruct (transferTo_returned _ _ _ _ _ _ _ Hfa Hta Hexec)
      as (Hid & Hle & Hlt & fd & ts & ->).
    assert (Hne : f <> t) by (intros ->; congruence).
    destruct (undo_transfer_spec f t
                (set_balance (balance fa - amount)%float fa)
                (set_balance (balance ta + amount)%float ta) amount
                (repaint fd ts
                   (store t (set_balance (balance ta + amount)%float ta)
                      (store f (set_balance (balance fa - amount)%float fa) w))))
      as (fd' & ts' & ->);
      [ rewrite heap_repaint, heap_store, lookup_insert_ne by congruence;
        apply lookup_insert_eq
      | apply lookup_insert_eq | exact Hne | exact Hle | exact (add_ge _ _ Hb0 Hle) |].
    eexists. split; [reflexivity|].
    cbn [round_trip_exact]. rewrite Hs, Hb. intros Hexact.
    apply andb_prop in Hexact as [Hexact Hsub2].
    apply andb_prop in Hexact as [Hexact Hadd2].
    apply andb_prop in Hexact as [Hsub1 Hadd1].
    intros r' [<-|[<-|[]]].
    + exists (balance fa), (balance fa - amount + amount)%float.
      split; [exact Hs|]. split; [apply balance_of_store | exact (sub_then_add _ _ Hsub1 Hadd1)].
    + exists (balance ta), (balance ta + amount - amount)%float.
      split; [exact Hb|]. split; [|exact (add_then_sub _ _ Hadd2 Hsub2)].
      rewrite balance_of_store_ne by exact Hne.
      apply (balance_of_store t
               (set_balance (balance (set_balance (balance ta + amount)%float ta) - amount)%float
                  (set_balance (balance ta + amount)%float ta)) fd ts).
Qed.

Lemma C2_undo_restores_witness :
  let cmd := TransferCommand (Some 1%positive) (Some 2%positive) 300 in
  exists w2,
    undo cmd (final (execute cmd demo)) = Returned tt w2
    /\ forall r : ref, In r (involved cmd) ->
         exists b b2, balance_of demo r = Some b /\ balance_of w2 r = Some b2
                      /\ (b2 =? b)%float = true.
Proof.
  cbv zeta.
  destruct (C2_undo_restores
              (TransferCommand (Some 1%positive) (Some 2%positive) 300) demo
              (final (execute (TransferCommand (Some 1%positive) (Some 2%positive) 300)
                        demo)))
    as (w2 & Hundo & Hrestored).
  - intros r [<-|[<-|[]]].
    + exists 5000%float. split; vm_compute; reflexivity.
    + exists 1200%float. split; vm_compute; reflexivity.
  - vm_compute; reflexivity.
  - exists w2. split; [exact Hundo|]. apply Hrestored. vm_compute; reflexivity.
Defined.

(** ** What a command leaves alone *)

Lemma writes_accounts_only_refl (w : World) : writes_accounts_only w w.
Proof. exists (heap w), (notificationsFeed w), (toasts w). now destruct w. Qed.

Lemma writes_accounts_only_trans (w1 w2 w3 : World) :
  writes_accounts_only w1 w2 -> writes_accounts_only w2 w3 ->
  writes_accounts_only w1 w3.
Proof.
  intros (h & fd & ts & ->) (h' & fd' & ts' & ->). now exists h', fd', ts'.
Qed.

Lemma quiet_ret {A} (a : A) : quiet (ret a).
Proof. intros w. apply writes_accounts_only_refl. Qed.

Lemma quiet_throw {A} (e : Exception) : quiet (@throw A e).
Proof. intros w. apply writes_accounts_only_refl. Qed.

Lemma quiet_bind {A B} (m : JS A) (k : A -> JS B) :
  quiet m -> (forall a, quiet (k a)) -> quiet (bind m k).
Proof.
  intros Hm Hk w. unfold bind. specialize (Hm w).
  destruct (m w) as [a w'|e w']; cbn [final] in *; [|exact Hm].
  exact (writes_accounts_only_trans _ _ _ Hm (Hk a w')).
Qed.

Lemma quiet_deref (r : ref) : quiet (deref r).
Proof.
  intros w. unfold deref. destruct (heap w !! r); apply writes_accounts_only_refl.
Qed.

Lemma quiet_defined (o : option ref) : quiet (defined o).
Proof. destruct o; [apply quiet_ret | apply quiet_throw]. Qed.

Lemma quiet_update (r : ref) (f : Account -> Account) : quiet (update r f).
Proof.
  intros w. unfold update, modify. cbn [final].
  exists (heap (with_heap (fun h => match h !! r with
                                     | Some a => <[r := f a]> h
                                     | None => h
                                     end) w)),
    (notificationsFeed w), (toasts w).
  destruct w; reflexivity.
Qed.

Lemma quiet_addNotification (title : Title) (message : Message) :
  quiet (addNotification title message).
Proof.
  intros w. rewrite addNotification_spec. cbn [final].
  exists (heap w), ((title, message) :: notificationsFeed w),
    (toasts w ++ [ToastNotification title message]).
  destruct w; reflexivity.
Qed.

Lemma quiet_forEach {A} (f : A -> JS unit) (xs : list A) :
  (forall x, quiet (f x)) -> quiet (forEach f xs).
Proof.
  intros Hf. induction xs as [|x xs IH]; cbn [forEach].
  - apply quiet_ret.
  - apply quiet_bind; [apply Hf | intros _; exact IH].
Qed.

Create HintDb quiet.
#[local] Hint Resolve quiet_ret quiet_throw quiet_deref quiet_defined quiet_update
  quiet_addNotification : quiet.

Ltac quiet_steps :=
  repeat first
    [ progress auto with quiet
    | apply quiet_bind; [|intros ?]
    | apply quiet_forEach; intros ?
    | match goal with |- quiet (if ?c then _ else _) => destruct c end ].

Lemma quiet_notify (r : ref) (message : Message) : quiet (notify r message).
Proof. unfold notify, observer_update. quiet_steps. Qed.

#[local] Hint Resolve quiet_notify : quiet.

Lemma quiet_deposit (r : ref) (amount : float) : quiet (deposit r amount).
Proof. unfold deposit. quiet_steps. Qed.

Lemma quiet_withdraw (r : ref) (amount : float) : quiet (withdraw r amount).
Proof. unfold withdraw. quiet_steps. Qed.

#[local] Hint Resolve quiet_deposit quiet_withdraw : quiet.

Lemma quiet_transferTo (r : ref) (target : option ref) (amount : float) :
  quiet (transferTo r target amount).
Proof. unfold transferTo. quiet_steps. Qed.

#[local] Hint Resolve quiet_transferTo : quiet.

Lemma quiet_execute (cmd : Command) : quiet (execute cmd).
Proof. destruct cmd; cbn [execute]; quiet_steps. Qed.

Lemma quiet_undo (cmd : Command) : quiet (undo cmd).
Proof. destruct cmd; cbn [undo]; quiet_steps. Qed.

Lemma writes_accounts_only_commandStack (w w' : World) :
  writes_accounts_only w w' -> commandStack w' = commandStack w.
Proof. now intros (h & fd & ts & ->). Qed.

Lemma writes_accounts_only_commandHistory (w w' : World) :
  writes_accounts_only w w' -> commandHistory w' = commandHistory w.
Proof. now intros (h & fd & ts & ->). Qed.

(** ** The command stack (C7, C8) *)

Lemma pop_snoc (s : list Command) (c : Command) : pop (s ++ [c]) = Some (c, s).
Proof.
  induction s as [|c' s IH]; [reflexivity|].
  cbn [app pop]. now rewrite IH.
Qed.

Lemma executeCommand_returned (cmd : Command) (w w1 : World) :
  execute cmd w = Returned tt w1 ->
  executeCommand cmd w
  = Returned tt
      (with_statCommands (length (commandStack w1 ++ [cmd]))
         (with_history (fun h => label cmd :: h)
            (with_commandStack (fun s => s ++ [cmd]) w1))).
Proof.
  intros H. unfold executeCommand, try_catch, bind. now rewrite H.
Qed.

Lemma executeCommand_thrown (cmd : Command) (w w1 : World) (e : Exception) :
  execute cmd w = Thrown e w1 ->
  executeCommand cmd w = addNotification TitleError (MsgErr e) w1.
Proof.
  intros H. unfold executeCommand, try_catch, bind. now rewrite H.
Qed.

Lemma executeCommand_final (cmd : Command) (w : World) :
  succeeds (executeCommand cmd w) = true
  /\ commandStack (final (executeCommand cmd w))
     = (if succeeds (execute cmd w) then commandStack w ++ [cmd] else commandStack w)
  /\ commandHistory (final (executeCommand cmd w))
     = (if succeeds (execute cmd w) then label cmd :: commandHistory w
        else commandHistory w).
Proof.
  pose proof (quiet_execute cmd w) as Hq.
  destruct (execute cmd w) as [[] w1|e w1] eqn:Hexec; cbn [final succeeds] in *.
  - rewrite (executeCommand_returned _ _ _ Hexec). cbn.
    now rewrite (writes_accounts_only_commandStack _ _ Hq),
      (writes_accounts_only_commandHistory _ _ Hq).
  - rewrite (executeCommand_thrown _ _ _ _ Hexec), addNotification_spec. cbn.
    now rewrite (writes_accounts_only_commandStack _ _ Hq),
      (writes_accounts_only_commandHistory _ _ Hq).
Qed.

(** C7.  [executeCommand(cmd)] never throws, and it appends [cmd] to the
    command stack (and logs it in the command history) if and only if
    [cmd.execute()] does not throw; when [execute()] throws, the stack and
    the history are unchanged. *)
Theorem C7_executeCommand (cmd : Command) (w : World) :
  let w' := final (executeCommand cmd w) in
  succeeds (executeCommand cmd w) = true
  /\ (commandStack w' = commandStack w ++ [cmd] <-> succeeds (execute cmd w) = true)
  /\ commandStack w'
     = (if succeeds (execute cmd w) then commandStack w ++ [cmd] else commandStack w)
  /\ commandHistory w'
     = (if succeeds (execute cmd w) then label cmd :: commandHistory w
        else commandHistory w).
Proof.
  cbv zeta. destruct (executeCommand_final cmd w) as (Hret & Hstack & Hhist).
  split; [exact Hret|]. split; [|split; assumption].
  rewrite Hstack. destruct (succeeds (execute cmd w)).
  - split; reflexivity.
  - split; [|discriminate].
    intros H. apply (f_equal (@length Command)) in H.
    rewrite length_app in H. cbn in H. lia.
Qed.
Lemma cmd_undo_empty (w : World) :
  commandStack w = [] ->
  cmd_undo w
  = Returned tt (with_toasts (fun ts => ts ++ [ToastText "No commands to undo"]) w).
Proof. intros H. unfold cmd_undo, bind, get. now rewrite H. Qed.

Lemma cmd_undo_pops (w : World) (s : list Command) (c : Command) :
  commandStack w = s ++ [c] ->
  cmd_undo w
  = try_catch
      (undo c ;;
       addNotification TitleUndo (MsgUndone (constructor_name c)) ;;
       show_statCommands)
      (fun e => addNotification TitleUndoError (MsgErr e))
      (with_commandStack (fun _ => s) w).
Proof.
  intros H. unfold cmd_undo at 1, bind at 1, get. rewrite H, pop_snoc. reflexivity.
Qed.

(** One click on [cmd-undo].  On an empty stack it only shows a toast: no
    balance and no stack state changes.  On a non-empty stack it pops the
    top command, the last element [c] of the array, and invokes [c.undo()]
    once: it never throws, the stack is left without [c], and the accounts
    are left as [c.undo()] leaves them.  Right after a successful
    [executeCommand(cmd)], [cmd-undo] pops [cmd], invokes [cmd.undo()], and
    leaves the stack as it was before [cmd]. *)
Lemma cmd_undo_spec (w : World) :
  (commandStack w = [] ->
   cmd_undo w
   = Returned tt (with_toasts (fun ts => ts ++ [ToastText "No commands to undo"]) w)
   /\ heap (final (cmd_undo w)) = heap w
   /\ commandStack (final (cmd_undo w)) = commandStack w)
  /\ (forall (s : list Command) (c : Command),
        commandStack w = s ++ [c] ->
        succeeds (cmd_undo w) = true
        /\ commandStack (final (cmd_undo w)) = s
        /\ heap (final (cmd_undo w))
           = heap (final (undo c (with_commandStack (fun _ => s) w))))
  /\ (forall cmd : Command,
        succeeds (execute cmd w) = true ->
        let w' := final (executeCommand cmd w) in
        succeeds (cmd_undo w') = true
        /\ commandStack (final (cmd_undo w')) = commandStack w
        /\ heap (final (cmd_undo w'))
           = heap (final (undo cmd (with_commandStack (fun _ => commandStack w) w')))).
Proof.
  assert (Hpop : forall (w0 : World) (s : list Command) (c : Command),
    commandStack w0 = s ++ [c] ->
    succeeds (cmd_undo w0) = true
    /\ commandStack (final (cmd_undo w0)) = s
    /\ heap (final (cmd_undo w0))
       = heap (final (undo c (with_commandStack (fun _ => s) w0)))).
  { intros w0 s c Hs. rewrite (cmd_undo_pops _ _ _ Hs).
    pose proof (quiet_undo c (with_commandStack (fun _ => s) w0)) as Hq.
    unfold try_catch, bind.
    destruct (undo c (with_commandStack (fun _ => s) w0)) as [[] w1|e w1];
      cbn [final] in *.
    - rewrite addNotification_spec. cbn.
      now rewrite (writes_accounts_only_commandStack _ _ Hq).
    - rewrite addNotification_spec. cbn.
      now rewrite (writes_accounts_only_commandStack _ _ Hq). }
  split; [|split].
  - intros Hs. rewrite (cmd_undo_empty _ Hs). repeat split; reflexivity.
  - exact (Hpop w).
  - intros cmd Hexec. cbv zeta. apply Hpop.
    destruct (executeCommand_final cmd w) as (_ & Hstack & _).
    now rewrite Hexec in Hstack.
Qed.

(** ** Rules for invariants *)

Lemma preserves_ret {A} (I : World -> Prop) (a : A) : preserves I (ret a).
Proof. intros w Hw. exact Hw. Qed.

Lemma preserves_throw {A} (I : World -> Prop) (e : Exception) : preserves I (@throw A e).
Proof. intros w Hw. exact Hw. Qed.

Lemma triple_bind {A B} (P : World -> Prop) (m : JS A) (k : A -> JS B)
    (Q' : A -> World -> Prop) (Q : B -> World -> Prop) (E : World -> Prop) :
  triple P m Q' E -> (forall a, triple (Q' a) (k a) Q E) -> triple P (bind m k) Q E.
Proof.
  intros Hm Hk w Hw. unfold bind. specialize (Hm w Hw).
  destruct (m w) as [a w'|e w']; [exact (Hk a w' Hm) | exact Hm].
Qed.

Lemma preserves_bind {A B} (I : World -> Prop) (m : JS A) (k : A -> JS B) :
  preserves I m -> (forall a, preserves I (k a)) -> preserves I (bind m k).
Proof. intros Hm Hk. exact (triple_bind _ _ _ _ _ _ Hm Hk). Qed.

Lemma preserves_try_catch {A} (I : World -> Prop) (body : JS A)
    (handler : Exception -> JS A) :
  preserves I body -> (forall e, preserves I (handler e)) ->
  preserves I (try_catch body handler).
Proof.
  intros Hb Hh w Hw. unfold try_catch. specialize (Hb w Hw).
  destruct (body w) as [a w'|e w']; [exact Hb | exact (Hh e w' Hb)].
Qed.

Lemma preserves_forEach {A} (I : World -> Prop) (f : A -> JS unit) (xs : list A) :
  (forall x, preserves I (f x)) -> preserves I (forEach f xs).
Proof.
  intros Hf. induction xs as [|x xs IH]; cbn [forEach].
  - apply preserves_ret.
  - apply preserves_bind; [apply Hf | intros _; exact IH].
Qed.

Lemma preserves_get (I : World -> Prop) : preserves I get.
Proof. intros w Hw. exact Hw. Qed.

Lemma preserves_deref (I : World -> Prop) (r : ref) : preserves I (deref r).
Proof. intros w Hw. unfold deref. now destruct (heap w !! r). Qed.

Lemma preserves_defined (I : World -> Prop) (o : option ref) : preserves I (defined o).
Proof. destruct o; [apply preserves_ret | apply preserves_throw]. Qed.

Lemma preserves_final {A} (I : World -> Prop) (m : JS A) (w : World) :
  preserves I m -> I w -> I (final (m w)).
Proof. intros Hm Hw. specialize (Hm w Hw). now destruct (m w). Qed.

(** ** Balances stay non-negative once opening balances are *)

Lemma solvent_frame (w w' : World) : heap w' = heap w -> solvent w -> solvent w'.
Proof. intros Hh Hs r a. rewrite Hh. apply Hs. Qed.

Lemma solvent_modify (f : World -> World) :
  (forall w, heap (f w) = heap w) -> preserves solvent (modify f).
Proof. intros Hf w Hw. exact (solvent_frame _ _ (Hf w) Hw). Qed.

Lemma solvent_store (r : ref) (a : Account) fd ts (w : World) :
  solvent w -> (balance a <? 0)%float = false -> solvent (repaint fd ts (store r a w)).
Proof.
  intros Hs Ha r' a'. rewrite heap_repaint, heap_store.
  destruct (decide (r = r')) as [<-|Hne].
  - rewrite lookup_insert_eq. now intros [= <-].
  - rewrite lookup_insert_ne by exact Hne. apply Hs.
Qed.

Lemma solvent_addNotification (title : Title) (message : Message) :
  preserves solvent (addNotification title message).
Proof. intros w Hw. rewrite addNotification_spec. exact Hw. Qed.

Lemma solvent_notify (r : ref) (message : Message) : preserves solvent (notify r message).
Proof.
  unfold notify. apply preserves_bind; [apply preserves_deref|]. intros a.
  apply preserves_forEach. intros obs. apply solvent_addNotification.
Qed.

Lemma solvent_attach (r : ref) (observer : CustomerObserver) :
  preserves solvent (attach r observer).
Proof.
  intros w Hw. unfold attach, bind, deref.
  destruct (heap w !! r) as [a|] eqn:Ha; [|exact Hw].
  rewrite (update_spec _ _ _ _ Ha). cbn [updateObserverStat modify].
  refine (solvent_frame _ _ _
            (solvent_store r (set_observers (observers a ++ [observer]) a)
               (notificationsFeed w) (toasts w) w Hw (Hw r a Ha))).
  reflexivity.
Qed.

Lemma solvent_detach (r : ref) (observerEmail : string) :
  preserves solvent (detach r observerEmail).
Proof.
  intros w Hw. unfold detach, bind, deref.
  destruct (heap w !! r) as [a|] eqn:Ha; [|exact Hw].
  rewrite (update_spec _ _ _ _ Ha). cbn [updateObserverStat modify].
  refine (solvent_frame _ _ _
            (solvent_store r
               (set_observers
                  (List.filter (fun o => negb (String.eqb (obs_email o) observerEmail))
                     (observers a)) a)
               (notificationsFeed w) (toasts w) w Hw (Hw r a Ha))).
  reflexivity.
Qed.

Lemma solvent_deposit (r : ref) (amount : float) : preserves solvent (deposit r amount).
Proof.
  intros w Hw. destruct (heap w !! r) as [a|] eqn:Ha.
  - destruct (amount <=? 0)%float eqn:Hle.
    + now rewrite (deposit_rejects _ _ _ _ Ha Hle).
    + destruct (deposit_accepts _ _ _ _ Ha Hle) as (fd & ts & ->).
      apply solvent_store; [exact Hw|]. cbn [balance set_balance].
      apply add_not_negative; [exact (Hw r a Ha) | exact (not_le_not_negative _ Hle)].
  - now rewrite (deposit_undefined _ _ _ Ha).
Qed.

Lemma solvent_withdraw (r : ref) (amount : float) : preserves solvent (withdraw r amount).
Proof.
  intros w Hw. destruct (heap w !! r) as [a|] eqn:Ha.
  - destruct (amount <=? 0)%float eqn:Hle.
    + now rewrite (withdraw_rejects _ _ _ _ Ha Hle).
    + destruct (balance a <? amount)%float eqn:Hlt.
      * now rewrite (withdraw_insufficient _ _ _ _ Ha Hle Hlt).
      * destruct (withdraw_accepts _ _ _ _ Ha Hle Hlt) as (fd & ts & ->).
        apply solvent_store; [exact Hw|]. cbn [balance set_balance].
        exact (sub_not_negative _ _ Hle Hlt).
  - now rewrite (withdraw_undefined _ _ _ Ha).
Qed.

Lemma interest_not_negative (strategy : InterestStrategy) (b : float) :
  (b <? 0)%float = false -> (b + calculate strategy b <? 0)%float = false.
Proof.
  intros Hb. apply add_not_negative; [exact Hb|].
  destruct strategy; cbn [calculate];
    [reflexivity | apply mul_not_negative; [exact Hb | reflexivity] ..].
Qed.

Lemma solvent_applyInterest (r : ref) (strategy : InterestStrategy) :
  preserves solvent (applyInterest r strategy).
Proof.
  intros w Hw. destruct (heap w !! r) as [a|] eqn:Ha.
  - destruct (applyInterest_spec _ _ strategy _ Ha) as (fd & ts & ->).
    apply solvent_store; [exact Hw|]. cbn [balance set_balance].
    exact (interest_not_negative _ _ (Hw r a Ha)).
  - unfold applyInterest, bind, deref. now rewrite Ha.
Qed.

Create HintDb solvent.
#[local] Hint Resolve preserves_ret preserves_throw preserves_get preserves_deref
  preserves_defined solvent_addNotification solvent_notify solvent_attach
  solvent_detach solvent_deposit solvent_withdraw solvent_applyInterest : solvent.

Ltac solvent_steps :=
  repeat first
    [ solve [auto with solvent]
    | apply preserves_bind; [|intros ?]
    | apply preserves_try_catch; [|intros ?]
    | apply preserves_forEach; intros ?
    | apply solvent_modify; intros ?; reflexivity
    | match goal with
      | |- preserves _ (if ?c then _ else _) => destruct c
      | |- preserves _ (match ?c with _ => _ end) => destruct c
      end ].

Lemma solvent_transferTo (r : ref) (target : option ref) (amount : float) :
  preserves solvent (transferTo r target amount).
Proof. unfold transferTo. solvent_steps. Qed.

#[local] Hint Resolve solvent_transferTo : solvent.

Lemma solvent_execute (cmd : Command) : preserves solvent (execute cmd).
Proof. destruct cmd; cbn [execute]; solvent_steps. Qed.

Lemma solvent_undo (cmd : Command) : preserves solvent (undo cmd).
Proof. destruct cmd; cbn [undo]; solvent_steps. Qed.

#[local] Hint Resolve solvent_execute solvent_undo : solvent.

Lemma solvent_executeCommand (cmd : Command) : preserves solvent (executeCommand cmd).
Proof.
  unfold executeCommand, logCommand, show_statCommands. solvent_steps.
Qed.

#[local] Hint Resolve solvent_executeCommand : solvent.

Lemma solvent_new_Account (i : Z) (o t : string) (b : float) :
  (b <? 0)%float = false -> preserves solvent (new_Account i o t b).
Proof.
  intros Hb w Hw. unfold new_Account, bind, get, modify, ret.
  exact (solvent_store (fresh (dom (heap w)))
           {| id := i; owner := o; type := t; balance := b;
              observers := []; subscribers := [] |}
           (notificationsFeed w) (toasts w) w Hw Hb).
Qed.

Lemma opening_balance_not_negative (parsed : float) :
  (parsed <? 0)%float = false ->
  ((if falsy parsed then 0 else parsed) <? 0)%float = false.
Proof. intros H. now destruct (falsy parsed). Qed.

Lemma solvent_perform (act : Action) :
  validated act = true -> preserves solvent (perform act).
Proof.
  destruct act as [name type parsed|i amount|i amount|fromId toId amount| |i| |
                   |acct email|acct email];
    cbn [perform validated]; intros Hv.
  - apply negb_true_iff in Hv. unfold create_acct, showToast.
    pose proof (solvent_new_Account) as Hnew.
    pose proof (opening_balance_not_negative _ Hv) as Hb.
    solvent_steps.
  - unfold cmd_deposit, showToast. solvent_steps.
  - unfold cmd_withdraw, showToast. solvent_steps.
  - unfold cmd_transfer, showToast. solvent_steps.
  - unfold cmd_undo, showToast, show_statCommands. solvent_steps.
  - unfold apply_interest, showToast. solvent_steps.
  - unfold demo_setup. cbn [forEach].
    pose proof (solvent_new_Account) as Hnew.
    assert (H1 : (5000 <? 0)%float = false) by reflexivity.
    assert (H2 : (1200 <? 0)%float = false) by reflexivity.
    assert (H3 : (25000 <? 0)%float = false) by reflexivity.
    solvent_steps.
  - unfold clear_all. solvent_steps.
  - unfold subscribe, showToast. solvent_steps.
  - unfold unsubscribe. solvent_steps.
Qed.

(** Apart from a negative opening balance, nothing that can be done on the
    page makes a balance negative. *)
Theorem validated_sessions_stay_solvent (acts : list Action) (w : World) :
  forallb validated acts = true -> solvent w -> solvent (run acts w).
Proof.
  revert w. induction acts as [|act acts IH]; intros w Hv Hw; [exact Hw|].
  cbn [forallb] in Hv. apply andb_prop in Hv as [Hact Hacts].
  cbn [run]. apply IH; [exact Hacts|].
  exact (preserves_final _ _ _ (solvent_perform act Hact) Hw).
Qed.

Lemma solvent_initial : solvent initial.
Proof.
  intros r a H. change (heap initial) with (∅ : gmap ref Account) in H.
  rewrite lookup_empty in H. discriminate.
Qed.

Corollary balances_never_negative (acts : list Action) (r : ref) (a : Account) :
  forallb validated acts = true ->
  heap (run acts initial) !! r = Some a ->
  (balance a <? 0)%float = false.
Proof.
  intros Hv. exact (validated_sessions_stay_solvent acts initial Hv solvent_initial r a).
Qed.

(** ** Opening balances (C1) *)

(** C1.  The balance of an account never goes negative, whatever the
    sequence of operations: the script breaks this at account creation.
    The form accepts a negative opening balance ([parseFloat("-500") || 0]
    is [-500]), the constructor stores it, and the new account starts below
    zero.  [deposit] and [withdraw] validate their amounts; the opening
    balance is not validated.  By [validated_sessions_stay_solvent] this is
    the only way to a negative balance. *)
Theorem C1_negative_opening_balance :
  let w := final (create_acct "Eve" "savings" (-500) initial) in
  succeeds (create_acct "Eve" "savings" (-500) initial) = true
  /\ accounts w !! 1001 = Some 1%positive
  /\ balance_of w 1%positive = Some (-500)%float
  /\ (-500 <? 0)%float = true.
Proof.
  cbv zeta. split; [vm_compute; reflexivity|]. split; [vm_compute; reflexivity|].
  split; vm_compute; reflexivity.
Qed.

(** ** Registered accounts carry their key as id *)

Lemma registered_frame (w w' : World) :
  heap w' = heap w -> accounts w' = accounts w -> registered w -> registered w'.
Proof. intros Hh Ha Hr i r. rewrite Hh, Ha. apply Hr. Qed.

Lemma registered_modify (f : World -> World) :
  (forall w, heap (f w) = heap w) -> (forall w, accounts (f w) = accounts w) ->
  preserves registered (modify f).
Proof. intros Hh Ha w Hw. exact (registered_frame _ _ (Hh w) (Ha w) Hw). Qed.

Lemma registered_addNotification (title : Title) (message : Message) :
  preserves registered (addNotification title message).
Proof. intros w Hw. rewrite addNotification_spec. exact Hw. Qed.

(** Assignments to [balance] or to the observer list keep the id. *)
Lemma registered_update (r : ref) (f : Account -> Account) :
  (forall a, id (f a) = id a) -> preserves registered (update r f).
Proof.
  intros Hf w Hw. destruct (heap w !! r) as [a|] eqn:Ha.
  - rewrite (update_spec _ _ _ _ Ha). intros i r' Hi.
    destruct (Hw i r' Hi) as (a' & Ha' & Hid). rewrite heap_store.
    destruct (decide (r = r')) as [<-|Hne].
    + exists (f a). rewrite lookup_insert_eq. split; [reflexivity|].
      rewrite Hf. congruence.
    + exists a'. now rewrite lookup_insert_ne by exact Hne.
  - unfold update, modify. cbn. unfold registered. cbn. rewrite Ha. exact Hw.
Qed.

Create HintDb registered.
#[local] Hint Resolve preserves_ret preserves_throw preserves_get preserves_deref
  preserves_defined registered_addNotification : registered.

Ltac registered_steps :=
  repeat first
    [ solve [auto with registered]
    | apply preserves_bind; [|intros ?]
    | apply preserves_try_catch; [|intros ?]
    | apply preserves_forEach; intros ?
    | apply registered_update; intros ?; reflexivity
    | apply registered_modify; intros ?; reflexivity
    | match goal with
      | |- preserves _ (if ?c then _ else _) => destruct c
      | |- preserves _ (match ?c with _ => _ end) => destruct c
      end ].

Lemma registered_notify (r : ref) (message : Message) :
  preserves registered (notify r message).
Proof. unfold notify, observer_update. registered_steps. Qed.

#[local] Hint Resolve registered_notify : registered.

Lemma registered_attach (r : ref) (observer : CustomerObserver) :
  preserves registered (attach r observer).
Proof. unfold attach, updateObserverStat. registered_steps. Qed.

Lemma registered_detach (r : ref) (observerEmail : string) :
  preserves registered (detach r observerEmail).
Proof. unfold detach, updateObserverStat. registered_steps. Qed.

Lemma registered_deposit (r : ref) (amount : float) :
  preserves registered (deposit r amount).
Proof. unfold deposit. registered_steps. Qed.

Lemma registered_withdraw (r : ref) (amount : float) :
  preserves registered (withdraw r amount).
Proof. unfold withdraw. registered_steps. Qed.

Lemma registered_applyInterest (r : ref) (strategy : InterestStrategy) :
  preserves registered (applyInterest r strategy).
Proof. unfold applyInterest. registered_steps. Qed.

#[local] Hint Resolve registered_attach registered_detach registered_deposit
  registered_withdraw
  registered_applyInterest : registered.

Lemma registered_transferTo (r : ref) (target : option ref) (amount : float) :
  preserves registered (transferTo r target amount).
Proof. unfold transferTo. registered_steps. Qed.

#[local] Hint Resolve registered_transferTo : registered.

Lemma registered_execute (cmd : Command) : preserves registered (execute cmd).
Proof. destruct cmd; cbn [execute]; registered_steps. Qed.

Lemma registered_undo (cmd : Command) : preserves registered (undo cmd).
Proof. destruct cmd; cbn [undo]; registered_steps. Qed.

#[local] Hint Resolve registered_execute registered_undo : registered.

Lemma registered_executeCommand (cmd : Command) :
  preserves registered (executeCommand cmd).
Proof.
  unfold executeCommand, logCommand, show_statCommands. registered_steps.
Qed.

#[local] Hint Resolve registered_executeCommand : registered.

Lemma fresh_unused (h : gmap ref Account) : h !! fresh (dom h) = None.
Proof. apply not_elem_of_dom. apply is_fresh. Qed.

(** A new object that is then stored under its own id. *)
Lemma registered_new_account (i : Z) (a : Account) (w : World) :
  registered w -> id a = i ->
  registered (with_accounts (fun m => <[i := fresh (dom (heap w))]> m)
                (store (fresh (dom (heap w))) a w)).
Proof.
  intros Hw Hid j r. cbn. intros Hj.
  destruct (decide (i = j)) as [<-|Hne].
  - rewrite lookup_insert_eq in Hj. injection Hj as <-.
    exists a. now rewrite lookup_insert_eq.
  - rewrite lookup_insert_ne in Hj by exact Hne.
    destruct (Hw j r Hj) as (a' & Ha' & Hid'). exists a'. split; [|exact Hid'].
    rewrite lookup_insert_ne; [exact Ha'|].
    intros <-. rewrite fresh_unused in Ha'. discriminate.
Qed.

Lemma registered_create_acct (name type : string) (parsed : float) :
  preserves registered (create_acct name type parsed).
Proof.
  intros w Hw. unfold create_acct.
  destruct (String.eqb name ""); [exact Hw|].
  set (b := if falsy parsed then 0%float else parsed).
  set (a := {| id := nextAcctId w; owner := name; type := type; balance := b;
               observers := []; subscribers := [] |}).
  set (w1 := with_nextAcctId (nextAcctId w + 1) w).
  assert (Hw1 : registered w1) by exact Hw.
  pose proof (registered_new_account (nextAcctId w) a w1 Hw1 eq_refl) as Hw2.
  assert (Hrest : preserves registered
            (addNotification TitleAccountCreated
               (MsgAccountCreated name type (nextAcctId w) b) ;;
             attach (fresh (dom (heap w1)))
               {| obs_name := name; obs_email := demo_email name |}))
    by registered_steps.
  exact (Hrest _ Hw2).
Qed.

Lemma registered_demo_item (n t : string) (b : float) :
  preserves registered
    (w <- get ;;
     let newId := nextAcctId w in
     modify (with_nextAcctId (newId + 1)) ;;
     acct <- new_Account newId n t b ;;
     attach acct {| obs_name := n; obs_email := demo_email n |} ;;
     modify (with_accounts (fun m => <[newId := acct]> m))).
Proof.
  intros w Hw.
  set (r := fresh (dom (heap w))).
  set (a := {| id := nextAcctId w; owner := n; type := t; balance := b;
               observers := []; subscribers := [] |}).
  cbv [bind get modify new_Account ret attach deref update updateObserverStat].
  cbn [heap with_heap with_nextAcctId]. fold r. fold a.
  rewrite lookup_insert_eq. cbn [heap with_heap with_statObservers].
  rewrite lookup_insert_eq.
  intros j r' Hj.
  cbn [heap accounts with_accounts with_statObservers with_heap with_nextAcctId]
    in Hj |- *.
  rewrite (lookup_insert_eq (heap w) r a).
  destruct (decide (nextAcctId w = j)) as [<-|Hne].
  - rewrite lookup_insert_eq in Hj. injection Hj as <-.
    exists (set_observers
              (observers a ++ [{| obs_name := n; obs_email := demo_email n |}]) a).
    split; [apply lookup_insert_eq | reflexivity].
  - rewrite lookup_insert_ne in Hj by exact Hne.
    destruct (Hw j r' Hj) as (a' & Ha' & Hid'). exists a'. split; [|exact Hid'].
    assert (r <> r') by (intros <-; unfold r in Ha'; rewrite fresh_unused in Ha'; discriminate).
    now rewrite !lookup_insert_ne by assumption.
Qed.

Lemma registered_perform (act : Action) : preserves registered (perform act).
Proof.
  destruct act as [name type parsed|i amount|i amount|fromId toId amount| |i| |
                   |acct email|acct email];
    cbn [perform].
  - apply registered_create_acct.
  - unfold cmd_deposit, showToast. registered_steps.
  - unfold cmd_withdraw, showToast. registered_steps.
  - unfold cmd_transfer, showToast. registered_steps.
  - unfold cmd_undo, showToast, show_statCommands. registered_steps.
  - unfold apply_interest, showToast. registered_steps.
  - unfold demo_setup. apply preserves_bind; [|intros _; registered_steps].
    apply preserves_forEach. intros [[n t] b]. apply registered_demo_item.
  - intros w _ i r H. cbn in H. rewrite lookup_empty in H. discriminate.
  - unfold subscribe, showToast. registered_steps.
  - unfold unsubscribe. registered_steps.
Qed.

Lemma registered_initial : registered initial.
Proof.
  intros i r H. change (accounts initial) with (∅ : gmap Z ref) in H.
  rewrite lookup_empty in H. discriminate.
Qed.

(** Throughout a session, every entry of the [accounts] map points at an
    account that carries its key as id. *)
Theorem sessions_keep_accounts_registered (acts : list Action) (w : World) :
  registered w -> registered (run acts w).
Proof.
  revert w. induction acts as [|act acts IH]; intros w Hw; [exact Hw|].
  cbn [run]. apply IH. exact (preserves_final _ _ _ (registered_perform act) Hw).
Qed.

(** So two different accounts of the page have different ids: what
    [transferTo] calls the same account is the same account. *)
Corollary distinct_accounts_have_distinct_ids (acts : list Action) (i j : Z)
    (r1 r2 : ref) (a1 a2 : Account) :
  let w := run acts initial in
  accounts w !! i = Some r1 -> accounts w !! j = Some r2 -> r1 <> r2 ->
  heap w !! r1 = Some a1 -> heap w !! r2 = Some a2 ->
  id a1 <> id a2.
Proof.
  cbv zeta. intros Hi Hj Hne H1 H2 Hid.
  pose proof (sessions_keep_accounts_registered acts initial registered_initial) as Hr.
  destruct (Hr i r1 Hi) as (a1' & H1' & <-).
  destruct (Hr j r2 Hj) as (a2' & H2' & <-).
  assert (a1' = a1) by congruence. assert (a2' = a2) by congruence. subst.
  rewrite Hid in Hi. congruence.
Qed.

(** * Further properties of the script *)

(** ** Invariants of a session *)

(** X1.  In a session that starts on the fresh page and in which no
    negative opening balance is typed, no account ever has a negative
    balance, whatever is clicked: deposits, withdrawals, transfers, undo,
    interest, demo accounts, subscriptions, reset. *)
Theorem X1_sessions_stay_solvent (acts : list Action) :
  forallb validated acts = true -> solvent (run acts initial).
Proof.
  intros Hv. exact (validated_sessions_stay_solvent acts initial Hv solvent_initial).
Qed.

Lemma X1_sessions_stay_solvent_witness : solvent (run ann_session initial).
Proof. apply (X1_sessions_stay_solvent ann_session). vm_compute; reflexivity. Defined.

(** X2.  Throughout a session every entry of the [accounts] map points at
    an account object that carries the entry's key as its id, so two
    different registered accounts never have the same id. *)
Theorem X2_registered_accounts_carry_their_id (acts : list Action) :
  registered (run acts initial)
  /\ (forall (i j : Z) (r1 r2 : ref) (a1 a2 : Account),
        accounts (run acts initial) !! i = Some r1 ->
        accounts (run acts initial) !! j = Some r2 ->
        r1 <> r2 ->
        heap (run acts initial) !! r1 = Some a1 ->
        heap (run acts initial) !! r2 = Some a2 ->
        id a1 <> id a2).
Proof.
  split.
  - exact (sessions_keep_accounts_registered acts initial registered_initial).
  - intros i j r1 r2 a1 a2.
    exact (distinct_accounts_have_distinct_ids acts i j r1 r2 a1 a2).
Qed.

(** ** Observers: fan-out, subscription and unsubscription *)

Lemma repaint_repaint fd ts fd' ts' (w : World) :
  repaint fd ts (repaint fd' ts' w) = repaint fd ts w.
Proof. reflexivity. Qed.

Lemma forEach_observer_update_exact (a : Account) (message : Message)
    (os : list CustomerObserver) (w : World) :
  forEach (fun obs => observer_update obs a message) os w
  = Returned tt
      (repaint
         (rev (map (fun obs => (observer_title (owner a) obs, message)) os)
          ++ notificationsFeed w)
         (toasts w
          ++ map (fun obs => ToastNotification (observer_title (owner a) obs) message) os)
         w).
Proof.
  revert w. induction os as [|obs os IH]; intros w.
  - cbn [forEach map rev app]. rewrite app_nil_r. unfold ret. now rewrite repaint_id.
  - cbn [forEach]. unfold bind at 1. unfold observer_update at 1.
    rewrite addNotification_spec, IH, repaint_repaint. f_equal. f_equal.
    + change (notificationsFeed (repaint ?fd ?ts w)) with fd.
      cbn [map rev]. rewrite <- app_assoc. reflexivity.
    + change (toasts (repaint ?fd ?ts w)) with ts.
      cbn [map]. rewrite <- app_assoc. reflexivity.
Qed.

Lemma notify_exact (this : ref) (a : Account) (message : Message) (w : World) :
  heap w !! this = Some a ->
  notify this message w
  = Returned tt
      (repaint
         (rev (map (fun obs => (observer_title (owner a) obs, message)) (observers a))
          ++ notificationsFeed w)
         (toasts w
          ++ map (fun obs => ToastNotification (observer_title (owner a) obs) message)
               (observers a))
         w).
Proof.
  intros Ha. unfold notify, bind, deref. rewrite Ha.
  apply forEach_observer_update_exact.
Qed.

(** X4.  [notify(message)] on an account sends the message once to each
    observer of the account, in the order of subscription: the feed gets
    one entry per observer, the latest observer on top, every entry is
    also shown as a toast, and nothing else on the page changes.  It never
    throws. *)
Theorem X4_notify_reaches_every_observer (this : ref) (a : Account)
    (message : Message) (w : World) :
  heap w !! this = Some a ->
  notify this message w
  = Returned tt
      (repaint
         (rev (map (fun obs => (observer_title (owner a) obs, message)) (observers a))
          ++ notificationsFeed w)
         (toasts w
          ++ map (fun obs => ToastNotification (observer_title (owner a) obs) message)
               (observers a))
         w).
Proof. exact (notify_exact this a message w). Qed.

Lemma attach_spec (r : ref) (a : Account) (observer : CustomerObserver) (w : World) :
  heap w !! r = Some a ->
  exists n,
    attach r observer w
    = Returned tt
        (with_statObservers n (store r (set_observers (observers a ++ [observer]) a) w)).
Proof.
  intros Ha. unfold attach, bind at 1, deref. rewrite Ha.
  unfold bind. rewrite (update_spec _ _ _ _ Ha).
  unfold updateObserverStat, modify. now eexists.
Qed.

Lemma detach_spec (r : ref) (a : Account) (email : string) (w : World) :
  heap w !! r = Some a ->
  exists n,
    detach r email w
    = Returned tt
        (with_statObservers n
           (store r
              (set_observers
                 (List.filter (fun o => negb (String.eqb (obs_email o) email))
                    (observers a)) a) w)).
Proof.
  intros Ha. unfold detach, bind at 1, deref. rewrite Ha.
  unfold bind. rewrite (update_spec _ _ _ _ Ha).
  unfold updateObserverStat, modify. now eexists.
Qed.

Lemma set_observers_id (a : Account) : set_observers (observers a) a = a.
Proof. now destruct a. Qed.

Lemma filter_all {A} (f : A -> bool) (l : list A) :
  forallb f l = true -> List.filter f l = l.
Proof.
  induction l as [|x l IH]; [reflexivity|].
  cbn [forallb List.filter]. intros H. apply andb_prop in H as [Hx Hl].
  now rewrite Hx, IH.
Qed.

Lemma X4_notify_reaches_every_observer_witness :
  notify 1 MsgDemoCreated demo_with_eve
  = Returned tt
      (repaint
         ([(TitleObserver "eve" "eve@mail.org" "Alice", MsgDemoCreated);
           (TitleObserver "Alice" "alice@demo.bank" "Alice", MsgDemoCreated)]
          ++ notificationsFeed demo_with_eve)
         (toasts demo_with_eve
          ++ [ToastNotification (TitleObserver "Alice" "alice@demo.bank" "Alice")
                MsgDemoCreated;
              ToastNotification (TitleObserver "eve" "eve@mail.org" "Alice")
                MsgDemoCreated])
         demo_with_eve).
Proof.
  apply (X4_notify_reaches_every_observer 1 alice_with_eve MsgDemoCreated demo_with_eve).
  vm_compute; reflexivity.
Defined.

(** X5.  Subscribing an observer and then unsubscribing its email address
    leaves on the account exactly the earlier observers that have another
    address, in their order: [detach] removes every observer with that
    address, earlier ones included.  When nobody had that address before,
    the round trip gives back the account as it was, and every other
    account is untouched in both cases. *)
Theorem X5_attach_then_detach (r : ref) (a : Account) (observer : CustomerObserver)
    (w : World) :
  heap w !! r = Some a ->
  exists w',
    (attach r observer ;; detach r (obs_email observer)) w = Returned tt w'
    /\ heap w'
       = <[r := set_observers
                 (List.filter (other_email (obs_email observer)) (observers a)) a]>
           (heap w)
    /\ (forallb (other_email (obs_email observer)) (observers a) = true ->
        heap w' = heap w).
Proof.
  intros Ha.
  destruct (attach_spec r a observer w Ha) as (n & Hattach).
  unfold bind. rewrite Hattach.
  set (a1 := set_observers (observers a ++ [observer]) a).
  destruct (detach_spec r a1 (obs_email observer)
              (with_statObservers n (store r a1 w))) as (n' & ->).
  { apply lookup_insert_eq. }
  eexists. split; [reflexivity|].
  assert (Hheap :
    heap (with_statObservers n'
            (store r
               (set_observers
                  (List.filter (fun o => negb (String.eqb (obs_email o) (obs_email observer)))
                     (observers a1)) a1)
               (with_statObservers n (store r a1 w))))
    = <[r := set_observers
                (List.filter (other_email (obs_email observer)) (observers a)) a]>
        (heap w)).
  { cbn [heap with_statObservers store with_heap].
    rewrite insert_insert_eq. f_equal.
    unfold a1. cbn [observers set_observers].
    rewrite List.filter_app. cbn [List.filter].
    rewrite String.eqb_refl. cbn [negb]. rewrite app_nil_r. reflexivity. }
  split; [exact Hheap|].
  intros Hall. rewrite Hheap, (filter_all _ _ Hall), set_observers_id.
  now apply insert_id.
Qed.

Lemma X5_attach_then_detach_witness :
  exists w',
    (attach 1 {| obs_name := "eve"; obs_email := "eve@mail.org" |} ;;
     detach 1 "eve@mail.org") demo = Returned tt w'
    /\ heap w' = heap demo.
Proof.
  destruct (X5_attach_then_detach 1 alice
              {| obs_name := "eve"; obs_email := "eve@mail.org" |} demo)
    as (w' & Hrun & _ & Hsame); [vm_compute; reflexivity|].
  exists w'. split; [exact Hrun|]. apply Hsame. vm_compute; reflexivity.
Defined.

Lemma deposit_notifies (r : ref) (a : Account) (amount : float) (w : World) :
  heap w !! r = Some a ->
  (amount <=? 0)%float = false ->
  deposit r amount w
  = Returned tt
      (repaint
         (rev (map (fun obs => (observer_title (owner a) obs,
                                MsgDeposited amount (balance a + amount)%float))
                 (observers a))
          ++ notificationsFeed w)
         (toasts w
          ++ map (fun obs => ToastNotification (observer_title (owner a) obs)
                               (MsgDeposited amount (balance a + amount)%float))
               (observers a))
         (store r (set_balance (balance a + amount)%float a) w)).
Proof.
  intros Ha Hle. unfold deposit, bind at 1, deref. rewrite Ha, Hle.
  unfold bind. rewrite (update_spec _ _ _ _ Ha).
  rewrite (notify_exact r (set_balance (balance a + amount)%float a)) by apply lookup_insert_eq.
  reflexivity.
Qed.

(** X6.  After [detach(email)], a deposit on the account notifies exactly
    the remaining observers, once each and in their order: nobody with the
    unsubscribed address is notified any more.  The balance becomes the
    double [balance + amount], the script's own addition, which is also the
    figure in the message. *)
Theorem X6_unsubscribed_are_not_notified (r : ref) (a : Account) (email : string)
    (amount : float) (w : World) :
  heap w !! r = Some a ->
  (0 <? amount)%float = true ->
  exists w',
    (detach r email ;; deposit r amount) w = Returned tt w'
    /\ notificationsFeed w'
       = rev (map (fun obs => (observer_title (owner a) obs,
                              MsgDeposited amount (balance a + amount)%float))
                (List.filter (other_email email) (observers a)))
         ++ notificationsFeed w
    /\ (forall obs, In obs (List.filter (other_email email) (observers a)) <->
                    In obs (observers a) /\ obs_email obs <> email)
    /\ balance_of w' r = Some (balance a + amount)%float.
Proof.
  intros Ha Hpos. pose proof (positive_not_le _ Hpos) as Hle.
  destruct (detach_spec r a email w Ha) as (n & Hdetach).
  unfold bind. rewrite Hdetach.
  rewrite (deposit_notifies r
             (set_observers (List.filter (other_email email) (observers a)) a))
    by (try apply lookup_insert_eq; exact Hle).
  eexists. split; [reflexivity|]. split; [reflexivity|]. split.
  - intros obs. rewrite List.filter_In. unfold other_email.
    rewrite negb_true_iff, String.eqb_neq. reflexivity.
  - unfold balance_of. cbn [heap repaint with_toasts with_feed store with_heap].
    rewrite lookup_insert_eq. reflexivity.
Qed.

Lemma X6_unsubscribed_are_not_notified_witness :
  exists w',
    (detach 1 "eve@mail.org" ;; deposit 1 50) demo_with_eve = Returned tt w'
    /\ notificationsFeed w'
       = [(TitleObserver "Alice" "alice@demo.bank" "Alice", MsgDeposited 50 (5000 + 50))]
         ++ notificationsFeed demo_with_eve.
Proof.
  destruct (X6_unsubscribed_are_not_notified 1 alice_with_eve "eve@mail.org" 50
              demo_with_eve) as (w' & Hrun & Hfeed & _);
    [vm_compute; reflexivity | vm_compute; reflexivity |].
  exists w'. split; [exact Hrun | exact Hfeed].
Defined.

(** ** Commands are all or nothing *)

Lemma execute_thrown (cmd : Command) (w w' : World) (e : Exception) :
  execute cmd w = Thrown e w' -> w' = w.
Proof.
  destruct cmd as [[r|] amount|[r|] amount|[f|] t amount]; cbn [execute defined];
    unfold bind, ret, throw; intros H; try congruence.
  - exact (deposit_thrown _ _ _ _ _ H).
  - exact (withdraw_thrown _ _ _ _ _ H).
  - exact (transferTo_thrown _ _ _ _ _ _ H).
Qed.

Lemma undo_thrown (cmd : Command) (w w' : World) (e : Exception) :
  well_formed w cmd -> undo cmd w = Thrown e w' -> w' = w.
Proof.
  intros [Hacc Hpos] H. cbn [amount_of] in Hpos.
  destruct cmd as [[r|] amount|[r|] amount|[f|] [t|] amount]; try contradiction;
    cbn [amount_of] in Hpos; pose proof Hpos as Hle.
  - destruct Hacc as [a Ha].
    destruct (balance a <? amount)%float eqn:Hlt.
    + cbn [undo defined] in H. unfold bind, ret in H.
      rewrite (withdraw_insufficient _ _ _ _ Ha Hle Hlt) in H. congruence.
    + destruct (undo_deposit_spec r a amount w Ha Hle Hlt) as (fd & ts & Hok).
      rewrite Hok in H. discriminate.
  - destruct Hacc as [a Ha].
    destruct (undo_withdraw_spec r a amount w Ha Hle) as (fd & ts & Hok).
    rewrite Hok in H. discriminate.
  - destruct Hacc as [[fa Hfa] [ta Hta]].
    destruct (balance ta <? amount)%float eqn:Hlt.
    + cbn [undo defined] in H. unfold bind, ret in H.
      rewrite (withdraw_insufficient _ _ _ _ Hta Hle Hlt) in H. congruence.
    + destruct (decide (f = t)) as [->|Hne].
      * (* the same object on both sides *)
        cbn [undo defined] in H. unfold bind at 1, ret in H.
        destruct (withdraw_accepts _ _ _ _ Hta Hle Hlt) as (fd1 & ts1 & Hw).
        unfold bind at 1 in H. rewrite Hw in H. unfold bind at 1 in H.
        destruct (deposit_accepts t (set_balance (balance ta - amount)%float ta) amount
                    (repaint fd1 ts1
                       (store t (set_balance (balance ta - amount)%float ta) w)))
          as (fd2 & ts2 & Hd); [apply lookup_insert_eq | exact Hle |].
        unfold bind at 1 in H. rewrite Hd in H.
        unfold bind, deref in H.
        rewrite heap_repaint, heap_store, lookup_insert_eq in H.
        cbv beta iota in H.
        rewrite heap_repaint, heap_store, lookup_insert_eq in H.
        rewrite addNotification_spec in H. discriminate.
      * destruct (undo_transfer_spec f t fa ta amount w Hfa Hta Hne Hle Hlt)
          as (fd & ts & Hok).
        rewrite Hok in H. discriminate.
Qed.

(** X7.  A command either takes effect or changes nothing.  Whenever
    [execute()] throws (unknown account, amount that is not positive,
    insufficient funds, same account) the page is exactly as before, and
    so it is whenever [undo()] throws on a command whose accounts exist and
    whose amount passes the amount guard: a transfer is never undone by
    half. *)
Theorem X7_commands_are_all_or_nothing :
  (forall (cmd : Command) (w w' : World) (e : Exception),
     execute cmd w = Thrown e w' -> w' = w)
  /\ (forall (cmd : Command) (w w' : World) (e : Exception),
       well_formed w cmd -> undo cmd w = Thrown e w' -> w' = w).
Proof. split; [exact execute_thrown | exact undo_thrown]. Qed.

(** X8.  When [cmd.execute()] throws, [executeCommand(cmd)] reports the
    error and does nothing else: the result is the page as it was, with
    one notification titled 'Error' that carries the exception, on top of
    the feed and as a toast.  No balance, command, log entry or counter
    changes. *)
Theorem X8_failed_command_only_notifies (cmd : Command) (w w1 : World)
    (e : Exception) :
  execute cmd w = Thrown e w1 ->
  executeCommand cmd w
  = Returned tt
      (repaint ((TitleError, MsgErr e) :: notificationsFeed w)
         (toasts w ++ [ToastNotification TitleError (MsgErr e)]) w).
Proof.
  intros H. rewrite (executeCommand_thrown _ _ _ _ H), addNotification_spec.
  now rewrite (execute_thrown _ _ _ _ H).
Qed.

Lemma X8_failed_command_only_notifies_witness :
  executeCommand (WithdrawCommand (Some 2%positive) 5000) demo
  = Returned tt
      (repaint ((TitleError, MsgErr (Error "Insufficient funds")) :: notificationsFeed demo)
         (toasts demo
          ++ [ToastNotification TitleError (MsgErr (Error "Insufficient funds"))]) demo).
Proof.
  apply (X8_failed_command_only_notifies (WithdrawCommand (Some 2%positive) 5000)
           demo demo (Error "Insufficient funds")).
  vm_compute; reflexivity.
Defined.

(** X9.  When the [undo()] of the top command throws, [cmd-undo] still
    removes the command from the stack: it is lost without having been
    undone.  The handler reports 'Undo Error', leaves every balance as it
    was, and does not refresh the command counter, which then shows one
    more than the stack holds. *)
Theorem X9_failed_undo_drops_the_command (w : World) (s : list Command) (c : Command) :
  commandStack w = s ++ [c] ->
  well_formed w c ->
  succeeds (undo c (with_commandStack (fun _ => s) w)) = false ->
  exists e,
    cmd_undo w
    = Returned tt
        (repaint ((TitleUndoError, MsgErr e) :: notificationsFeed w)
           (toasts w ++ [ToastNotification TitleUndoError (MsgErr e)])
           (with_commandStack (fun _ => s) w))
    /\ commandStack (final (cmd_undo w)) = s
    /\ heap (final (cmd_undo w)) = heap w
    /\ statCommands (final (cmd_undo w)) = statCommands w.
Proof.
  intros Hs Hwf Hfail. rewrite (cmd_undo_pops _ _ _ Hs).
  unfold try_catch, bind.
  destruct (undo c (with_commandStack (fun _ => s) w)) as [[] w1|e w1] eqn:Hundo;
    [discriminate|].
  assert (w1 = with_commandStack (fun _ => s) w) as ->.
  { refine (undo_thrown c _ _ e _ Hundo). exact Hwf. }
  exists e. rewrite addNotification_spec. repeat split; reflexivity.
Qed.

Lemma X9_failed_undo_drops_the_command_witness :
  let w := run (firstn 4 ann_session) initial in
  exists e,
    cmd_undo w
    = Returned tt
        (repaint ((TitleUndoError, MsgErr e) :: notificationsFeed w)
           (toasts w ++ [ToastNotification TitleUndoError (MsgErr e)])
           (with_commandStack (fun _ => []) w))
    /\ commandStack (final (cmd_undo w)) = []
    /\ heap (final (cmd_undo w)) = heap w
    /\ statCommands (final (cmd_undo w)) = statCommands w.
Proof.
  cbv zeta.
  apply (X9_failed_undo_drops_the_command (run (firstn 4 ann_session) initial) []
           (DepositCommand (Some 1%positive) 0.41)).
  - vm_compute; reflexivity.
  - split; [|vm_compute; reflexivity]. eexists. vm_compute; reflexivity.
  - vm_compute; reflexivity.
Defined.

(** ** What a handler does not touch *)

Section Blind.

Context {B : Type} (proj : World -> B).

Lemma blind_ret {A} (a : A) : blind proj (ret a).
Proof. intros w. reflexivity. Qed.

Lemma blind_throw {A} (e : Exception) : blind proj (@throw A e).
Proof. intros w. reflexivity. Qed.

Lemma blind_get : blind proj get.
Proof. intros w. reflexivity. Qed.

Lemma blind_deref (r : ref) : blind proj (deref r).
Proof. intros w. unfold deref. now destruct (heap w !! r). Qed.

Lemma blind_defined (o : option ref) : blind proj (defined o).
Proof. destruct o; intros w; reflexivity. Qed.

Lemma blind_modify (f : World -> World) :
  (forall w, proj (f w) = proj w) -> blind proj (modify f).
Proof. intros Hf w. exact (Hf w). Qed.

Lemma blind_bind {A C} (m : JS A) (k : A -> JS C) :
  blind proj m -> (forall a, blind proj (k a)) -> blind proj (bind m k).
Proof.
  intros Hm Hk w. unfold bind. specialize (Hm w).
  destruct (m w) as [a w'|e w']; cbn [final] in *; [|exact Hm].
  now rewrite (Hk a w').
Qed.

Lemma blind_try_catch {A} (body : JS A) (handler : Exception -> JS A) :
  blind proj body -> (forall e, blind proj (handler e)) ->
  blind proj (try_catch body handler).
Proof.
  intros Hb Hh w. unfold try_catch. specialize (Hb w).
  destruct (body w) as [a w'|e w']; cbn [final] in *; [exact Hb|].
  now rewrite (Hh e w').
Qed.

Lemma blind_forEach {A} (f : A -> JS unit) (xs : list A) :
  (forall x, blind proj (f x)) -> blind proj (forEach f xs).
Proof.
  intros Hf. induction xs as [|x xs IH]; cbn [forEach].
  - apply blind_ret.
  - apply blind_bind; [apply Hf | intros _; exact IH].
Qed.

End Blind.

Ltac blind_steps :=
  repeat first
    [ match goal with
      | |- blind _ (ret _) => apply blind_ret
      | |- blind _ (throw _) => apply blind_throw
      | |- blind _ get => apply blind_get
      | |- blind _ (deref _) => apply blind_deref
      | |- blind _ (defined _) => apply blind_defined
      | |- blind _ (modify _) => apply blind_modify; intros ?; reflexivity
      | |- blind _ (bind _ _) => apply blind_bind; [|intros ?]
      | |- blind _ (try_catch _ _) => apply blind_try_catch; [|intros ?]
      | |- blind _ (forEach _ _) => apply blind_forEach; intros ?
      | |- blind _ (execute ?c) => destruct c; cbn [execute]
      | |- blind _ (undo ?c) => destruct c; cbn [undo]
      | |- blind _ (if ?c then _ else _) => destruct c
      | |- blind _ (match ?c with _ => _ end) => destruct c
      end
    | progress cbv beta zeta
    | progress unfold deposit, withdraw, transferTo, applyInterest, notify,
        observer_update, addNotification, showToast, attach, detach, update,
        updateObserverStat, new_Account, executeCommand, logCommand,
        show_statCommands ].

Lemma execute_blind_to_commands (cmd : Command) : blind command_part (execute cmd).
Proof. blind_steps. Qed.

Lemma undo_blind_to_commands (cmd : Command) : blind command_part (undo cmd).
Proof. blind_steps. Qed.

Lemma blind_parts {A} (m : JS A) (w : World) :
  blind command_part m ->
  commandStack (final (m w)) = commandStack w
  /\ commandHistory (final (m w)) = commandHistory w.
Proof.
  intros H. specialize (H w). unfold command_part in H.
  now inversion H.
Qed.

Lemma cmd_undo_stack (w : World) (s : list Command) (c : Command) :
  commandStack w = s ++ [c] ->
  commandStack (final (cmd_undo w)) = s
  /\ commandHistory (final (cmd_undo w)) = commandHistory w.
Proof.
  intros H. rewrite (cmd_undo_pops _ _ _ H).
  apply (blind_parts _ (with_commandStack (fun _ => s) w)).
  blind_steps.
Qed.

Lemma stack_cases (s : list Command) : s = [] \/ exists s' c, s = s' ++ [c].
Proof.
  destruct s as [|c s] using rev_ind; [now left|right; eauto].
Qed.

Lemma cmd_undo_history (w : World) :
  commandHistory (final (cmd_undo w)) = commandHistory w.
Proof.
  destruct (stack_cases (commandStack w)) as [H|(s & c & H)].
  - now rewrite (cmd_undo_empty _ H).
  - now destruct (cmd_undo_stack _ _ _ H).
Qed.

Lemma create_acct_blind_to_commands (name type : string) (parsed : float) :
  blind command_part (create_acct name type parsed).
Proof. unfold create_acct. blind_steps. Qed.

Lemma apply_interest_blind_to_commands (i : option Z) :
  blind command_part (apply_interest i).
Proof. unfold apply_interest. blind_steps. Qed.

Lemma demo_setup_blind_to_commands : blind command_part demo_setup.
Proof. unfold demo_setup. blind_steps. Qed.

Lemma subscribe_blind_to_commands (acct : ref) (email : string) :
  blind command_part (subscribe acct email).
Proof. unfold subscribe. blind_steps. Qed.

Lemma unsubscribe_blind_to_commands (acct : ref) (email : string) :
  blind command_part (unsubscribe acct email).
Proof. unfold unsubscribe. blind_steps. Qed.

Lemma showToast_blind_to_commands (t : Toast) : blind command_part (showToast t).
Proof. blind_steps. Qed.

Lemma executeCommand_logged (cmd : Command) (w : World) :
  sublist (stack_labels w) (commandHistory w) ->
  sublist (stack_labels (final (executeCommand cmd w)))
    (commandHistory (final (executeCommand cmd w))).
Proof.
  intros H. destruct (executeCommand_final cmd w) as (_ & Hs & Hh).
  unfold stack_labels in *. rewrite Hs, Hh.
  destruct (succeeds (execute cmd w)); [|exact H].
  rewrite rev_app_distr. cbn [rev app map]. now apply sublist_skip.
Qed.

Lemma perform_logged (act : Action) (w : World) :
  sublist (stack_labels w) (commandHistory w) ->
  sublist (stack_labels (final (perform act w)))
    (commandHistory (final (perform act w))).
Proof.
  intros H.
  assert (Hblind : forall m : JS unit, blind command_part m ->
            sublist (stack_labels (final (m w))) (commandHistory (final (m w)))).
  { intros m Hm. destruct (blind_parts m w Hm) as [Hs Hh].
    unfold stack_labels in *. now rewrite Hs, Hh. }
  destruct act; cbn [perform].
  - apply Hblind, create_acct_blind_to_commands.
  - unfold cmd_deposit. destruct (falsy_id i || falsy amount).
    + apply Hblind, showToast_blind_to_commands.
    + now apply executeCommand_logged.
  - unfold cmd_withdraw. destruct (falsy_id i || falsy amount).
    + apply Hblind, showToast_blind_to_commands.
    + now apply executeCommand_logged.
  - unfold cmd_transfer. destruct (falsy_id fromId || falsy_id toId || falsy amount).
    + apply Hblind, showToast_blind_to_commands.
    + now apply executeCommand_logged.
  - rewrite cmd_undo_history.
    destruct (stack_cases (commandStack w)) as [Hw|(s & c & Hw)].
    + now rewrite (cmd_undo_empty _ Hw).
    + destruct (cmd_undo_stack _ _ _ Hw) as [Hs _].
      unfold stack_labels in *. rewrite Hs. rewrite Hw, rev_app_distr in H.
      cbn [rev app map] in H.
      etransitivity; [apply sublist_cons|exact H].
      reflexivity.
  - apply Hblind, apply_interest_blind_to_commands.
  - apply Hblind, demo_setup_blind_to_commands.
  - cbn. constructor.
  - apply Hblind, subscribe_blind_to_commands.
  - apply Hblind, unsubscribe_blind_to_commands.
Qed.

(** X10.  Every command on the undo stack is in the command history: in
    every session from the page as loaded, the labels of the stacked
    commands, most recent first, are a subsequence of the history, so the
    stack is never longer than the history; and [cmd-undo] never touches
    the history, whatever the page holds, so an undone command stays
    logged. *)
Theorem X10_stacked_commands_are_logged (acts : list Action) :
  sublist (stack_labels (run acts initial)) (commandHistory (run acts initial))
  /\ (length (commandStack (run acts initial))
      <= length (commandHistory (run acts initial)))%nat
  /\ forall w, commandHistory (final (cmd_undo w)) = commandHistory w.
Proof.
  assert (H : sublist (stack_labels (run acts initial))
                (commandHistory (run acts initial))).
  { assert (Hi : sublist (stack_labels initial) (commandHistory initial))
      by (cbn; constructor).
    revert Hi. generalize initial. induction acts as [|act acts IH]; intros w Hw.
    - exact Hw.
    - cbn [run]. apply IH. now apply perform_logged. }
  split; [exact H|]. split; [|exact cmd_undo_history].
  apply sublist_length in H. unfold stack_labels in H.
  now rewrite length_map, length_rev in H.
Qed.

Lemma run_undos (n : nat) (w : World) :
  commandStack (run (repeat CmdUndo n) w)
  = firstn (length (commandStack w) - n)%nat (commandStack w).
Proof.
  revert w. induction n as [|n IH]; intros w.
  - cbn [repeat run]. now rewrite Nat.sub_0_r, firstn_all.
  - cbn [repeat run perform]. rewrite IH.
    destruct (stack_cases (commandStack w)) as [Hw|(s & c & Hw)].
    + rewrite (cmd_undo_empty _ Hw). cbn [final]. cbn. now rewrite Hw.
    + destruct (cmd_undo_stack _ _ _ Hw) as [Hs _]. rewrite Hs, Hw.
      rewrite length_app. cbn [length].
      replace (length s + 1 - S n)%nat with (length s - n)%nat by lia.
      rewrite firstn_app.
      replace (length s - n - length s)%nat with 0%nat by lia.
      cbn [firstn]. now rewrite app_nil_r.
Qed.

(** X11.  Undo is last in, first out: [n] clicks on [cmd-undo] take the
    [n] most recent commands off the stack and leave the older ones in
    their order (nothing when fewer than [n] are stacked), whether the
    undos themselves succeed or throw. *)
Theorem X11_undo_is_last_in_first_out (n : nat) (w : World) :
  commandStack (run (repeat CmdUndo n) w)
  = firstn (length (commandStack w) - n)%nat (commandStack w)
  /\ ((length (commandStack w) <= n)%nat ->
      commandStack (run (repeat CmdUndo n) w) = [])
  /\ forall older recent,
       commandStack w = older ++ recent -> length recent = n ->
       commandStack (run (repeat CmdUndo n) w) = older.
Proof.
  split; [apply run_undos|]. split.
  - intros Hn. rewrite run_undos.
    now replace (length (commandStack w) - n)%nat with 0%nat by lia.
  - intros older recent Hw Hn. rewrite run_undos, Hw, length_app.
    replace (length older + length recent - n)%nat with (length older) by lia.
    rewrite firstn_app, firstn_all, Nat.sub_diag. cbn [firstn]. apply app_nil_r.
Qed.

(** ** Account numbers *)

Lemma blind_numbering {A} (m : JS A) (w : World) :
  blind numbering_part m ->
  accounts (final (m w)) = accounts w /\ nextAcctId (final (m w)) = nextAcctId w.
Proof.
  intros H. specialize (H w). unfold numbering_part in H. now inversion H.
Qed.

Lemma ids_in_range_frame (w w' : World) :
  accounts w' = accounts w /\ nextAcctId w' = nextAcctId w ->
  ids_in_range w -> ids_in_range w'.
Proof. unfold ids_in_range. intros [-> ->] H. exact H. Qed.

Lemma ids_in_range_next (w w' : World) (r : ref) :
  accounts w' = <[nextAcctId w := r]> (accounts w) ->
  nextAcctId w' = nextAcctId w + 1 ->
  ids_in_range w -> ids_in_range w'.
Proof.
  unfold ids_in_range. intros -> -> [Hn Hw]. split; [lia|].
  intros i r' Hi. destruct (decide (nextAcctId w = i)) as [<-|Hne]; [lia|].
  rewrite lookup_insert_ne in Hi by exact Hne.
  specialize (Hw i r' Hi). lia.
Qed.

Lemma create_acct_numbering (name type : string) (parsed : float) (w : World) :
  String.eqb name "" = false ->
  accounts (final (create_acct name type parsed w))
  = <[nextAcctId w := fresh (dom (heap w))]> (accounts w)
  /\ nextAcctId (final (create_acct name type parsed w)) = nextAcctId w + 1.
Proof.
  intros Hname. unfold create_acct. rewrite Hname.
  set (b := if falsy parsed then 0%float else parsed).
  set (r := fresh (dom (heap w))).
  set (a := {| id := nextAcctId w; owner := name; type := type; balance := b;
               observers := []; subscribers := [] |}).
  set (w2 := with_accounts (fun m => <[nextAcctId w := r]> m)
               (store r a (with_nextAcctId (nextAcctId w + 1) w))).
  assert (Hrest : blind numbering_part
            (addNotification TitleAccountCreated
               (MsgAccountCreated name type (nextAcctId w) b) ;;
             attach r {| obs_name := name; obs_email := demo_email name |}))
    by blind_steps.
  exact (blind_numbering _ w2 Hrest).
Qed.

Lemma demo_item_numbering (n t : string) (b : float) (w : World) :
  let item :=
    (w <- get ;;
     let newId := nextAcctId w in
     modify (with_nextAcctId (newId + 1)) ;;
     acct <- new_Account newId n t b ;;
     attach acct {| obs_name := n; obs_email := demo_email n |} ;;
     modify (with_accounts (fun m => <[newId := acct]> m))) in
  accounts (final (item w)) = <[nextAcctId w := fresh (dom (heap w))]> (accounts w)
  /\ nextAcctId (final (item w)) = nextAcctId w + 1.
Proof.
  cbv zeta.
  cbv [bind get modify new_Account ret attach deref update updateObserverStat].
  cbn [heap with_heap with_nextAcctId].
  rewrite lookup_insert_eq. cbn [heap with_heap with_statObservers].
  rewrite lookup_insert_eq. split; reflexivity.
Qed.

Lemma ids_in_range_perform (act : Action) (w : World) :
  ids_in_range w -> ids_in_range (final (perform act w)).
Proof.
  intros Hw.
  assert (Hblind : forall m : JS unit, blind numbering_part m ->
            ids_in_range (final (m w))).
  { intros m Hm. exact (ids_in_range_frame _ _ (blind_numbering m w Hm) Hw). }
  destruct act as [name ty parsed| | | | | | | | |]; cbn [perform].
  - destruct (String.eqb name "") eqn:Hname.
    + unfold create_acct. rewrite Hname. exact Hw.
    + destruct (create_acct_numbering name ty parsed w Hname) as [Ha Hn].
      exact (ids_in_range_next _ _ _ Ha Hn Hw).
  - apply Hblind. unfold cmd_deposit, executeCommand, logCommand, show_statCommands.
    blind_steps.
  - apply Hblind. unfold cmd_withdraw, executeCommand, logCommand, show_statCommands.
    blind_steps.
  - apply Hblind. unfold cmd_transfer, executeCommand, logCommand, show_statCommands.
    blind_steps.
  - apply Hblind. unfold cmd_undo, show_statCommands. blind_steps.
  - apply Hblind. unfold apply_interest. blind_steps.
  - unfold demo_setup.
    apply (preserves_final ids_in_range); [|exact Hw].
    apply preserves_bind.
    + apply preserves_forEach. intros [[n t] b] w0 Hw0.
      destruct (demo_item_numbering n t b w0) as [Ha Hn].
      pose proof (ids_in_range_next _ _ _ Ha Hn Hw0) as H. cbv zeta in H.
      match goal with
      | |- match ?m w0 with _ => _ end =>
          change (final (m w0)) with (final (m w0)) in H; destruct (m w0); exact H
      end.
    + intros _ w0 Hw0.
      assert (Hb : blind numbering_part (addNotification TitleDemo MsgDemoCreated))
        by blind_steps.
      exact (ids_in_range_frame _ _ (blind_numbering _ w0 Hb) Hw0).
  - split; [change (1001 <= 1001); lia|].
    intros i r Hi. change (accounts (final (clear_all w))) with (∅ : gmap Z ref) in Hi.
    rewrite lookup_empty in Hi. discriminate.
  - apply Hblind. unfold subscribe. blind_steps.
  - apply Hblind. unfold unsubscribe. blind_steps.
Qed.

Lemma ids_in_range_run (acts : list Action) (w : World) :
  ids_in_range w -> ids_in_range (run acts w).
Proof.
  revert w. induction acts as [|act acts IH]; intros w Hw; [exact Hw|].
  cbn [run]. apply IH. now apply ids_in_range_perform.
Qed.

Lemma ids_in_range_initial : ids_in_range initial.
Proof.
  split; [cbn; lia|]. intros i r Hi. cbn in Hi.
  rewrite lookup_empty in Hi. discriminate.
Qed.

(** X3.  A new account gets a number that no account of the map has.  In
    every session from the page as loaded, the accounts of the map have
    numbers from 1001 up to, and not including, [nextAcctId]; [create-acct]
    with a customer name then registers the new account under [nextAcctId],
    a number that is not in the map at that moment, keeps every other entry
    of the map, and moves [nextAcctId] on by one.  (This is about the
    accounts in the map: [clear-all] empties the map and starts again at
    1001, so a session can hand out the same number again.) *)
Theorem X3_new_account_number_is_unused (acts : list Action)
    (name type : string) (parsed : float) :
  let w := run acts initial in
  let w' := final (create_acct name type parsed w) in
  ids_in_range w
  /\ (String.eqb name "" = false ->
      accounts w !! nextAcctId w = None
      /\ is_Some (accounts w' !! nextAcctId w)
      /\ (forall i, i <> nextAcctId w -> accounts w' !! i = accounts w !! i)
      /\ nextAcctId w' = nextAcctId w + 1).
Proof.
  cbv zeta. pose proof (ids_in_range_run acts initial ids_in_range_initial) as Hw.
  split; [exact Hw|]. intros Hname.
  destruct (create_acct_numbering name type parsed (run acts initial) Hname)
    as [Ha Hn].
  rewrite Ha, Hn. split; [|split; [|split]].
  - destruct (accounts (run acts initial) !! nextAcctId (run acts initial)) eqn:E;
      [|reflexivity].
    destruct Hw as [_ Hw]. specialize (Hw _ _ E). lia.
  - rewrite lookup_insert_eq. eauto.
  - intros i Hi. now rewrite lookup_insert_ne by congruence.
  - reflexivity.
Qed.

(** ** The commands on the stack can be undone *)

Lemma alive_modify (r : ref) (f : World -> World) :
  (forall w, heap (f w) = heap w) ->
  preserves (fun w => is_Some (heap w !! r)) (modify f).
Proof. intros Hf w H. cbn. now rewrite Hf. Qed.

Lemma alive_update (r0 : ref) (f : Account -> Account) (r : ref) :
  preserves (fun w => is_Some (heap w !! r)) (update r0 f).
Proof.
  intros w H. cbn. destruct (heap w !! r0) eqn:E; [|exact H].
  apply lookup_insert_is_Some'. now right.
Qed.

Lemma alive_new_Account (i : Z) (o t : string) (b : float) (r : ref) :
  preserves (fun w => is_Some (heap w !! r)) (new_Account i o t b).
Proof.
  intros w H. cbn. apply lookup_insert_is_Some'. now right.
Qed.

Ltac alive_steps :=
  repeat first
    [ match goal with
      | |- preserves _ (ret _) => apply preserves_ret
      | |- preserves _ (throw _) => apply preserves_throw
      | |- preserves _ get => apply preserves_get
      | |- preserves _ (deref _) => apply preserves_deref
      | |- preserves _ (defined _) => apply preserves_defined
      | |- preserves _ (update _ _) => apply alive_update
      | |- preserves _ (new_Account _ _ _ _) => apply alive_new_Account
      | |- preserves _ (modify _) => apply alive_modify; intros ?; reflexivity
      | |- preserves _ (bind _ _) => apply preserves_bind; [|intros ?]
      | |- preserves _ (try_catch _ _) => apply preserves_try_catch; [|intros ?]
      | |- preserves _ (forEach _ _) => apply preserves_forEach; intros ?
      | |- preserves _ (execute ?c) => destruct c; cbn [execute]
      | |- preserves _ (undo ?c) => destruct c; cbn [undo]
      | |- preserves _ (if ?c then _ else _) => destruct c
      | |- preserves _ (match ?c with _ => _ end) => destruct c
      end
    | progress cbv beta zeta
    | progress unfold deposit, withdraw, transferTo, applyInterest, notify,
        observer_update, addNotification, showToast, attach, detach,
        updateObserverStat, executeCommand, logCommand, show_statCommands ].

Lemma execute_keeps_objects (cmd : Command) : keeps_objects (execute cmd).
Proof. intros r. alive_steps. Qed.

Lemma undo_keeps_objects (cmd : Command) : keeps_objects (undo cmd).
Proof. intros r. alive_steps. Qed.

Lemma perform_keeps_objects (act : Action) : keeps_objects (perform act).
Proof.
  intros r. destruct act; cbn [perform];
    unfold create_acct, cmd_deposit, cmd_withdraw, cmd_transfer, cmd_undo,
      apply_interest, demo_setup, subscribe, unsubscribe, clear_all;
    alive_steps.
Qed.

Lemma well_formed_alive (w w' : World) (cmd : Command) :
  (forall r, is_Some (heap w !! r) -> is_Some (heap w' !! r)) ->
  well_formed w cmd -> well_formed w' cmd.
Proof.
  intros Hr [Hacc Hamt]. split; [|exact Hamt].
  destruct cmd as [[r|] amount|[r|] amount|[f|] [t|] amount]; try contradiction.
  - now apply Hr.
  - now apply Hr.
  - destruct Hacc. split; now apply Hr.
Qed.

Lemma keeps_objects_final {A} (m : JS A) (w : World) (r : ref) :
  keeps_objects m -> is_Some (heap w !! r) -> is_Some (heap (final (m w)) !! r).
Proof.
  intros Hm H. exact (preserves_final _ m w (Hm r) H).
Qed.

Lemma execute_returned_well_formed (cmd : Command) (w w1 : World) :
  execute cmd w = Returned tt w1 -> well_formed w cmd.
Proof.
  intros H.
  destruct cmd as [[r|] amount|[r|] amount|[f|] [t|] amount];
    cbn [execute defined] in H; unfold bind at 1 in H; cbn [ret throw] in H;
    try discriminate.
  - destruct (heap w !! r) as [a|] eqn:Ha;
      [|unfold deposit, bind, deref in H; rewrite Ha in H; discriminate].
    destruct (amount <=? 0)%float eqn:Hle.
    + rewrite (deposit_rejects _ _ _ _ Ha Hle) in H. discriminate.
    + split; [eauto | exact Hle].
  - destruct (heap w !! r) as [a|] eqn:Ha;
      [|unfold withdraw, bind, deref in H; rewrite Ha in H; discriminate].
    destruct (amount <=? 0)%float eqn:Hle.
    + rewrite (withdraw_rejects _ _ _ _ Ha Hle) in H. discriminate.
    + split; [eauto | exact Hle].
  - unfold transferTo in H. unfold bind at 1, deref at 1 in H.
    destruct (heap w !! f) as [fa|] eqn:Hfa; [|discriminate].
    unfold bind at 1 in H. cbn [defined ret] in H.
    unfold bind at 1, deref at 1 in H.
    destruct (heap w !! t) as [ta|] eqn:Hta; [|discriminate].
    destruct (id fa =? id ta)%Z; [discriminate|].
    destruct (amount <=? 0)%float eqn:Hle.
    + unfold bind at 1 in H. rewrite (withdraw_rejects _ _ _ _ Hfa Hle) in H.
      discriminate.
    + split; [split; eauto | exact Hle].
  - unfold transferTo in H. unfold bind at 1, deref at 1 in H.
    destruct (heap w !! f) as [fa|]; discriminate.
Qed.

Lemma stack_well_formed_alive (w w' : World) :
  (forall r, is_Some (heap w !! r) -> is_Some (heap w' !! r)) ->
  commandStack w' = commandStack w ->
  stack_well_formed w -> stack_well_formed w'.
Proof.
  unfold stack_well_formed. intros Hr -> Hw.
  eapply Forall_impl; [exact Hw|]. intros cmd. now apply well_formed_alive.
Qed.

Lemma stack_well_formed_executeCommand (cmd : Command) (w : World) :
  stack_well_formed w -> stack_well_formed (final (executeCommand cmd w)).
Proof.
  intros Hw.
  pose proof (fun r => keeps_objects_final _ w r (execute_keeps_objects cmd)) as Hr.
  destruct (blind_parts _ w (execute_blind_to_commands cmd)) as [Hs _].
  destruct (execute cmd w) as [[] w1|e w1] eqn:Hexec; cbn [final] in *.
  - rewrite (executeCommand_returned _ _ _ Hexec). cbn [final].
    unfold stack_well_formed. cbn [commandStack with_statCommands with_history
      with_commandStack].
    apply Forall_app. split.
    + rewrite Hs. eapply Forall_impl; [exact Hw|]. intros c. now apply well_formed_alive.
    + constructor; [|constructor].
      apply (well_formed_alive w); [exact Hr|].
      exact (execute_returned_well_formed _ _ _ Hexec).
  - rewrite (executeCommand_thrown _ _ _ _ Hexec), addNotification_spec. cbn [final].
    apply (stack_well_formed_alive w); [exact Hr | exact Hs | exact Hw].
Qed.

Lemma stack_well_formed_perform (act : Action) (w : World) :
  stack_well_formed w -> stack_well_formed (final (perform act w)).
Proof.
  intros Hw.
  pose proof (fun r => keeps_objects_final _ w r (perform_keeps_objects act)) as Hr.
  assert (Hblind : blind command_part (perform act) ->
            stack_well_formed (final (perform act w))).
  { intros Hm. destruct (blind_parts _ w Hm) as [Hs _].
    exact (stack_well_formed_alive _ _ Hr Hs Hw). }
  destruct act; cbn [perform] in *.
  - apply Hblind, create_acct_blind_to_commands.
  - unfold cmd_deposit in *. destruct (falsy_id i || falsy amount).
    + apply Hblind, showToast_blind_to_commands.
    + now apply stack_well_formed_executeCommand.
  - unfold cmd_withdraw in *. destruct (falsy_id i || falsy amount).
    + apply Hblind, showToast_blind_to_commands.
    + now apply stack_well_formed_executeCommand.
  - unfold cmd_transfer in *. destruct (falsy_id fromId || falsy_id toId || falsy amount).
    + apply Hblind, showToast_blind_to_commands.
    + now apply stack_well_formed_executeCommand.
  - destruct (stack_cases (commandStack w)) as [Hs|(s & c & Hs)].
    + rewrite (cmd_undo_empty _ Hs). exact Hw.
    + destruct (cmd_undo_stack _ _ _ Hs) as [Hs' _].
      unfold stack_well_formed in *. rewrite Hs'. rewrite Hs in Hw.
      apply Forall_app in Hw as [Hw _].
      eapply Forall_impl; [exact Hw|]. intros cmd. now apply well_formed_alive.
  - apply Hblind, apply_interest_blind_to_commands.
  - apply Hblind, demo_setup_blind_to_commands.
  - constructor.
  - apply Hblind, subscribe_blind_to_commands.
  - apply Hblind, unsubscribe_blind_to_commands.
Qed.

Lemma cmd_undo_failed (w : World) (s : list Command) (c : Command) :
  commandStack w = s ++ [c] ->
  well_formed w c ->
  succeeds (undo c (with_commandStack (fun _ => s) w)) = false ->
  heap (final (cmd_undo w)) = heap w.
Proof.
  intros Hs Hc Hfail. rewrite (cmd_undo_pops _ _ _ Hs).
  set (w0 := with_commandStack (fun _ => s) w) in *.
  destruct (undo c w0) as [[] w1|e w1] eqn:Hundo; [discriminate|].
  assert (Hc0 : well_formed w0 c) by exact Hc.
  pose proof (undo_thrown _ _ _ _ Hc0 Hundo) as ->.
  unfold try_catch, bind. rewrite Hundo. rewrite addNotification_spec.
  reflexivity.
Qed.

(** X12.  Whatever is on the undo stack can be undone or is refused as a
    whole.  In every session from the page as loaded, each stacked command
    still has its account objects in the heap and an amount that passes the
    amount guard (the script never deletes an account object, and only a
    command whose [execute()] returned is pushed); so a click on [cmd-undo]
    whose [undo()] throws leaves every account as it was. *)
Theorem X12_stacked_commands_stay_undoable (acts : list Action) :
  let w := run acts initial in
  stack_well_formed w
  /\ forall (s : list Command) (c : Command),
       commandStack w = s ++ [c] ->
       succeeds (undo c (with_commandStack (fun _ => s) w)) = false ->
       heap (final (cmd_undo w)) = heap w.
Proof.
  cbv zeta.
  assert (H : stack_well_formed (run acts initial)).
  { assert (Hi : stack_well_formed initial) by constructor.
    revert Hi. generalize initial. induction acts as [|act acts IH]; intros w Hw.
    - exact Hw.
    - cbn [run]. apply IH. now apply stack_well_formed_perform. }
  split; [exact H|]. intros s c Hs Hfail.
  apply (cmd_undo_failed _ s c Hs); [|exact Hfail].
  unfold stack_well_formed in H. rewrite Hs in H.
  apply Forall_app in H as [_ H]. now inversion H.
Qed.

(** ** The observers counter *)

Lemma observer_count_insert (h : gmap ref Account) (m : gmap Z ref) (i : Z)
    (r : ref) (a : Account) :
  m !! i = None -> h !! r = Some a ->
  observer_count h (<[i := r]> m) = (observer_count h m + length (observers a))%nat.
Proof.
  intros Hi Hr. unfold observer_count.
  rewrite map_fold_insert_L; [now rewrite Hr| |exact Hi].
  intros j1 j2 z1 z2 y _ _ _.
  destruct (h !! z1), (h !! z2); lia.
Qed.

Lemma updateObserverStat_exact (w : World) :
  statObservers (final (updateObserverStat w)) = count_observers w
  /\ count_observers (final (updateObserverStat w)) = count_observers w.
Proof. split; reflexivity. Qed.

Lemma demo_item_spec (n t : string) (b : float) (w : World) :
  exists w',
    demo_item n t b w = Returned tt w'
    /\ accounts w' = <[nextAcctId w := fresh (dom (heap w))]> (accounts w)
    /\ nextAcctId w' = nextAcctId w + 1
    /\ statObservers w' = observer_count (heap w') (accounts w)
    /\ (exists a, heap w' !! fresh (dom (heap w)) = Some a
                  /\ length (observers a) = 1%nat).
Proof.
  eexists. split.
  - cbv [demo_item bind get modify new_Account ret attach deref update
         updateObserverStat].
    cbn [heap with_heap with_nextAcctId].
    rewrite lookup_insert_eq. cbn [heap with_heap with_statObservers].
    rewrite lookup_insert_eq. reflexivity.
  - cbn [accounts nextAcctId statObservers heap with_accounts with_statObservers
         with_heap with_nextAcctId].
    rewrite lookup_insert_eq.
    split; [reflexivity|]. split; [reflexivity|]. split; [reflexivity|].
    eexists. split; [apply lookup_insert_eq | reflexivity].
Qed.

Lemma demo_item_keeps_range (n t : string) (b : float) (w w' : World) :
  demo_item n t b w = Returned tt w' -> ids_in_range w -> ids_in_range w'.
Proof.
  intros H Hw. destruct (demo_item_spec n t b w) as (w1 & H1 & Ha & Hn & _).
  assert (w' = w1) as -> by congruence.
  exact (ids_in_range_next _ _ _ Ha Hn Hw).
Qed.

Lemma demo_setup_counter (w : World) :
  ids_in_range w ->
  count_observers (final (demo_setup w)) = S (statObservers (final (demo_setup w))).
Proof.
  intros Hw.
  change demo_setup with
    (forEach (fun '(n, t, b) => demo_item n t b)
       [("Alice"%string, "savings"%string, 5000%float);
        ("Bob"%string, "current"%string, 1200%float);
        ("CorpX"%string, "fixed"%string, 25000%float)] ;;
     addNotification TitleDemo MsgDemoCreated).
  cbn [forEach].
  destruct (demo_item_spec "Alice" "savings" 5000 w) as (w1 & H1 & _).
  pose proof (demo_item_keeps_range _ _ _ _ _ H1 Hw) as Hw1.
  destruct (demo_item_spec "Bob" "current" 1200 w1) as (w2 & H2 & _).
  pose proof (demo_item_keeps_range _ _ _ _ _ H2 Hw1) as Hw2.
  destruct (demo_item_spec "CorpX" "fixed" 25000 w2)
    as (w3 & H3 & Ha & _ & Hstat & a & Hr & Hlen).
  unfold bind. rewrite H1, H2, H3. cbn [ret]. rewrite addNotification_spec.
  cbn [final]. unfold count_observers.
  change (heap (repaint ?fd ?ts w3)) with (heap w3).
  change (accounts (repaint ?fd ?ts w3)) with (accounts w3).
  change (statObservers (repaint ?fd ?ts w3)) with (statObservers w3).
  rewrite Ha, Hstat.
  rewrite (observer_count_insert _ _ _ _ a); [lia| |exact Hr].
  destruct (accounts w2 !! nextAcctId w2) eqn:E; [|reflexivity].
  destruct Hw2 as [_ Hw2]. specialize (Hw2 _ _ E). lia.
Qed.

Lemma create_acct_counter (name type : string) (parsed : float) (w : World) :
  String.eqb name "" = false ->
  statObservers (final (create_acct name type parsed w))
  = count_observers (final (create_acct name type parsed w)).
Proof.
  intros Hname. unfold create_acct. rewrite Hname.
  cbv [bind get modify new_Account ret attach deref update updateObserverStat
       addNotification showToast].
  cbn [heap with_heap with_nextAcctId with_accounts with_feed with_toasts].
  rewrite lookup_insert_eq.
  cbn [heap with_heap with_nextAcctId with_accounts with_feed with_toasts
       with_statObservers].
  rewrite lookup_insert_eq. unfold count_observers.
  cbn [final heap accounts statObservers with_heap with_nextAcctId with_accounts
       with_feed with_toasts with_statObservers].
  rewrite lookup_insert_eq. reflexivity.
Qed.

(** X13.  The observers counter of the page is exact after [create-acct]
    and one short after [demo-setup].  [create-acct] puts the new account
    into the map before it attaches the owner, so the count that [attach]
    displays includes the owner; the loop of [demo-setup] attaches first
    and registers afterwards, so in every session the counter it leaves
    behind misses the observer of the third account. *)
Theorem X13_observer_counter (acts : list Action)
    (name type : string) (parsed : float) :
  let w := run acts initial in
  (String.eqb name "" = false ->
   statObservers (final (create_acct name type parsed w))
   = count_observers (final (create_acct name type parsed w)))
  /\ count_observers (final (demo_setup w))
     = S (statObservers (final (demo_setup w))).
Proof.
  cbv zeta. split.
  - apply create_acct_counter.
  - apply demo_setup_counter, ids_in_range_run, ids_in_range_initial.
Qed.

(** ** A number that is not in the map *)

Lemma transferTo_undefined (f : ref) (t : option ref) (amount : float) (w : World) :
  t = None -> transferTo f t amount w = Thrown TypeError w.
Proof.
  intros ->. unfold transferTo, bind, deref, defined, throw.
  now destruct (heap w !! f).
Qed.

Lemma execute_transfer_undefined (from to : option ref) (amount : float) (w : World) :
  from = None \/ to = None ->
  execute (TransferCommand from to amount) w = Thrown TypeError w.
Proof.
  intros H. cbn [execute]. destruct from as [f|]; [|reflexivity].
  destruct H as [H|H]; [discriminate|].
  unfold bind at 1. cbn [defined ret]. now apply transferTo_undefined.
Qed.

(** X14.  A click that names an account number that is not in the map
    moves no money.  [accounts.get] is [undefined] then; the commands of
    [cmd-deposit], [cmd-withdraw] and [cmd-transfer] (when either side is
    unknown) throw a [TypeError] that [executeCommand] reports as 'Error',
    and nothing else on the page changes; [apply-interest] has no handler
    around it: the [TypeError] escapes and the page stays as it was. *)
Theorem X14_unknown_account_number (i j : option Z) (amount : float) (w : World) :
  falsy_id i = false -> falsy_id j = false -> falsy amount = false ->
  accounts_get i w = None ->
  cmd_deposit i amount w = Returned tt (error_reported TypeError w)
  /\ cmd_withdraw i amount w = Returned tt (error_reported TypeError w)
  /\ cmd_transfer i j amount w = Returned tt (error_reported TypeError w)
  /\ cmd_transfer j i amount w = Returned tt (error_reported TypeError w)
  /\ apply_interest i w = Thrown TypeError w.
Proof.
  intros Hi Hj Ha Hget.
  unfold cmd_deposit, cmd_withdraw, cmd_transfer, apply_interest.
  rewrite Hi, Hj, Ha. cbn [orb]. unfold bind at 1 2 3 4 5, get. rewrite Hget.
  split; [|split; [|split; [|split]]].
  - now rewrite (executeCommand_thrown (DepositCommand None amount) w w TypeError
                   eq_refl), addNotification_spec.
  - now rewrite (executeCommand_thrown (WithdrawCommand None amount) w w TypeError
                   eq_refl), addNotification_spec.
  - rewrite (executeCommand_thrown _ w w TypeError), addNotification_spec;
      [reflexivity|]. apply execute_transfer_undefined. now left.
  - rewrite (executeCommand_thrown _ w w TypeError), addNotification_spec;
      [reflexivity|]. apply execute_transfer_undefined. now right.
  - reflexivity.
Qed.

Lemma X14_unknown_account_number_witness :
  cmd_deposit (Some 7) 10 demo = Returned tt (error_reported TypeError demo)
  /\ cmd_withdraw (Some 7) 10 demo = Returned tt (error_reported TypeError demo)
  /\ cmd_transfer (Some 7) (Some 1001) 10 demo
     = Returned tt (error_reported TypeError demo)
  /\ cmd_transfer (Some 1001) (Some 7) 10 demo
     = Returned tt (error_reported TypeError demo)
  /\ apply_interest (Some 7) demo = Thrown TypeError demo.
Proof.
  apply (X14_unknown_account_number (Some 7) (Some 1001) 10 demo);
    vm_compute; reflexivity.
Defined.

(** ** Balances at the edge of the number line *)

Lemma SFcompare_refl (s : bool) (m : positive) (e : Z) :
  SFcompare (S754_finite s m e) (S754_finite s m e) = Some Eq.
Proof.
  destruct s; cbn [SFcompare]; rewrite Z.compare_refl;
    change (Pos.compare_cont Eq m m) with (m ?= m)%positive;
    rewrite Pos.compare_refl; reflexivity.
Qed.

Lemma is_nan_Prim2SF (x : float) : is_nan x = true -> Prim2SF x = S754_nan.
Proof.
  unfold is_nan. rewrite FloatAxioms.eqb_spec. unfold SFeqb.
  destruct (Prim2SF x) as [[|]|[|]| |s m e]; try (cbn; discriminate).
  - reflexivity.
  - now rewrite SFcompare_refl.
Qed.

Lemma Prim2SF_is_nan (x : float) : Prim2SF x = S754_nan -> is_nan x = true.
Proof.
  intros H. unfold is_nan. now rewrite FloatAxioms.eqb_spec, H.
Qed.

Lemma nan_not_below (x y : float) : is_nan x = true -> (x <? y)%float = false.
Proof.
  intros H. now rewrite ltb_spec, (is_nan_Prim2SF _ H).
Qed.

Lemma nan_sub (x y : float) : is_nan x = true -> is_nan (x - y) = true.
Proof.
  intros H. apply Prim2SF_is_nan. now rewrite sub_spec, (is_nan_Prim2SF _ H).
Qed.

Lemma nan_add (x y : float) : is_nan x = true -> is_nan (x + y) = true.
Proof.
  intros H. apply Prim2SF_is_nan. now rewrite add_spec, (is_nan_Prim2SF _ H).
Qed.

(** A positive double below [Infinity] is a finite double with a positive
    sign. *)
Lemma finite_positive (x : float) :
  (0 <? x)%float = true -> (x <? infinity)%float = true ->
  exists m e, Prim2SF x = S754_finite false m e.
Proof.
  rewrite !ltb_spec, Prim2SF_zero.
  change (Prim2SF infinity) with (S754_infinity false).
  destruct (Prim2SF x) as [[|]|[|]| |[|] m e]; cbn; try discriminate.
  eauto.
Qed.

Lemma sub_diag (x : float) (m : positive) (e : Z) (s : bool) :
  Prim2SF x = S754_finite s m e -> (x - x)%float = 0%float.
Proof.
  intros H. apply Prim2SF_inj. rewrite sub_spec, H, Prim2SF_zero.
  unfold SF64sub. cbn [SFsub]. cbv zeta. now rewrite Z.sub_diag.
Qed.

Lemma not_below_itself (x : float) : (x <? x)%float = false.
Proof.
  rewrite ltb_spec. unfold SFltb.
  destruct (Prim2SF x) as [[|]|[|]| |s m e]; try reflexivity.
  now rewrite SFcompare_refl.
Qed.

(** X15.  Withdrawing the whole balance empties the account exactly.  For
    a positive balance below [Infinity], [withdraw(balance)] is accepted
    and leaves the balance [0], with no rounding residue; after that the
    account refuses every withdrawal of a positive amount with
    'Insufficient funds'. *)
Theorem X15_withdrawing_everything (r : ref) (a : Account) (w : World) :
  heap w !! r = Some a ->
  (0 <? balance a)%float = true ->
  (balance a <? infinity)%float = true ->
  exists fd ts,
    let w' := repaint fd ts (store r (set_balance 0 a) w) in
    withdraw r (balance a) w = Returned tt w'
    /\ forall amount, (0 <? amount)%float = true ->
         withdraw r amount w' = Thrown (Error "Insufficient funds") w'.
Proof.
  intros Ha Hpos Hfin.
  destruct (finite_positive _ Hpos Hfin) as (m & e & Hb).
  destruct (withdraw_accepts r a (balance a) w Ha (positive_not_le _ Hpos)
              (not_below_itself _)) as (fd & ts & Hw).
  rewrite (sub_diag _ _ _ _ Hb) in Hw.
  exists fd, ts. cbv zeta. split; [exact Hw|].
  intros amount Hamt.
  apply (withdraw_insufficient r (set_balance 0 a));
    [now rewrite heap_repaint, heap_store, lookup_insert_eq
    | now apply positive_not_le
    | exact Hamt].
Qed.

Lemma X15_withdrawing_everything_witness :
  exists fd ts,
    let w' := repaint fd ts (store 1%positive (set_balance 0 alice) demo) in
    withdraw 1 5000 demo = Returned tt w'
    /\ forall amount, (0 <? amount)%float = true ->
         withdraw 1 amount w' = Thrown (Error "Insufficient funds") w'.
Proof.
  apply (X15_withdrawing_everything 1 alice demo); vm_compute; reflexivity.
Defined.

(** X16.  A balance that is [NaN] is not guarded.  No comparison with
    [NaN] holds, so [withdraw] accepts every amount that passes the amount
    guard, however large, and so does [deposit]; the balance is [NaN]
    afterwards as well.  (An account gets there when a deposit of
    [Infinity] is undone: the undo computes [Infinity - Infinity].) *)
Theorem X16_nan_balance_is_not_guarded (r : ref) (a : Account) (amount : float)
    (w : World) :
  heap w !! r = Some a ->
  is_nan (balance a) = true ->
  (amount <=? 0)%float = false ->
  (exists fd ts b,
      withdraw r amount w = Returned tt (repaint fd ts (store r (set_balance b a) w))
      /\ is_nan b = true)
  /\ (exists fd ts b,
        deposit r amount w = Returned tt (repaint fd ts (store r (set_balance b a) w))
        /\ is_nan b = true).
Proof.
  intros Ha Hnan Hamt. split.
  - destruct (withdraw_accepts r a amount w Ha Hamt (nan_not_below _ _ Hnan))
      as (fd & ts & Hw).
    exists fd, ts, (balance a - amount)%float. split; [exact Hw|].
    now apply nan_sub.
  - destruct (deposit_accepts r a amount w Ha Hamt) as (fd & ts & Hw).
    exists fd, ts, (balance a + amount)%float. split; [exact Hw|].
    now apply nan_add.
Qed.

Lemma X16_nan_balance_is_not_guarded_witness :
  let w := run infinity_session initial in
  (exists fd ts b,
      withdraw 1 1000000 w
      = Returned tt (repaint fd ts (store 1%positive (set_balance b ann_nan) w))
      /\ is_nan b = true)
  /\ (exists fd ts b,
        deposit 1 1000000 w
        = Returned tt (repaint fd ts (store 1%positive (set_balance b ann_nan) w))
        /\ is_nan b = true).
Proof.
  cbv zeta.
  apply (X16_nan_balance_is_not_guarded 1 ann_nan 1000000
           (run infinity_session initial)); vm_compute; reflexivity.
Defined.

(** ** Subscribing by email *)

Lemma before_at_app (name rest : string) :
  no_at name = true -> before_at (name ++ String "@" rest) = name.
Proof.
  induction name as [|c name IH]; simpl; intros H.
  - reflexivity.
  - apply andb_prop in H as [Hc Hn]. apply negb_true_iff in Hc.
    now rewrite Hc, (IH Hn).
Qed.

Lemma before_at_no_at (s : string) : no_at s = true -> before_at s = s.
Proof.
  induction s as [|c s IH]; cbn [no_at before_at]; intros H.
  - reflexivity.
  - apply andb_prop in H as [Hc Hn]. apply negb_true_iff in Hc.
    now rewrite Hc, (IH Hn).
Qed.

Lemma subscribe_spec (acct : ref) (a : Account) (email : string) (w : World) :
  heap w !! acct = Some a -> String.eqb email "" = false ->
  exists n,
    subscribe acct email w
    = Returned tt
        (subscribed acct a {| obs_name := before_at email; obs_email := email |} n w).
Proof.
  intros Ha He. unfold subscribe. rewrite He. cbv zeta.
  destruct (attach_spec acct a {| obs_name := before_at email; obs_email := email |}
              w Ha) as (n & Hattach).
  exists n. unfold bind at 1. rewrite Hattach.
  unfold bind, deref. cbn [heap with_statObservers].
  rewrite heap_store, lookup_insert_eq. now rewrite addNotification_spec.
Qed.

(** X17.  [subscribe-btn] names the observer after the part of the email
    before the first [@].  For an email [name@domain] whose [name] has no
    [@], the observer [(name, name@domain)] is appended to the observers
    of the account and the feed says that [name] subscribed; an email
    without any [@] is taken as the name itself.  The account is otherwise
    unchanged. *)
Theorem X17_subscribe_names_the_observer (acct : ref) (a : Account)
    (name : string) (w : World) :
  heap w !! acct = Some a ->
  no_at name = true ->
  (forall domain : string,
     let email := (name ++ String "@" domain)%string in
     exists n,
       subscribe acct email w
       = Returned tt
           (subscribed acct a {| obs_name := name; obs_email := email |} n w))
  /\ (name <> ""%string ->
      exists n,
        subscribe acct name w
        = Returned tt
            (subscribed acct a {| obs_name := name; obs_email := name |} n w)).
Proof.
  intros Ha Hname. split.
  - intros domain. cbv zeta.
    assert (He : String.eqb (name ++ String "@" domain) "" = false)
      by (destruct name; reflexivity).
    destruct (subscribe_spec acct a _ w Ha He) as (n & H).
    rewrite (before_at_app _ _ Hname) in H. eauto.
  - intros Hne.
    assert (He : String.eqb name "" = false)
      by (destruct name; [contradiction|reflexivity]).
    destruct (subscribe_spec acct a _ w Ha He) as (n & H).
    rewrite (before_at_no_at _ Hname) in H. eauto.
Qed.

Lemma X17_subscribe_names_the_observer_witness :
  (forall domain : string,
     let email := ("eve" ++ String "@" domain)%string in
     exists n,
       subscribe 1 email demo
       = Returned tt
           (subscribed 1 alice {| obs_name := "eve"; obs_email := email |} n demo))
  /\ ("eve"%string <> ""%string ->
      exists n,
        subscribe 1 "eve" demo
        = Returned tt
            (subscribed 1 alice {| obs_name := "eve"; obs_email := "eve" |} n demo)).
Proof.
  apply (X17_subscribe_names_the_observer 1 alice "eve" demo);
    vm_compute; reflexivity.
Defined.

(** ** Who hears of a transfer *)

Lemma withdraw_notifies (r : ref) (a : Account) (amount : float) (w : World) :
  heap w !! r = Some a ->
  (amount <=? 0)%float = false ->
  (balance a <? amount)%float = false ->
  withdraw r amount w
  = Returned tt
      (repaint
         (notices a (MsgWithdrawn amount (balance a - amount)%float)
          ++ notificationsFeed w)
         (toasts w
          ++ map (fun obs => ToastNotification (observer_title (owner a) obs)
                               (MsgWithdrawn amount (balance a - amount)%float))
               (observers a))
         (store r (set_balance (balance a - amount)%float a) w)).
Proof.
  intros Ha Hle Hlt. unfold withdraw, bind at 1, deref. rewrite Ha, Hle, Hlt.
  unfold bind. rewrite (update_spec _ _ _ _ Ha).
  rewrite (notify_exact r (set_balance (balance a - amount)%float a))
    by apply lookup_insert_eq.
  reflexivity.
Qed.

(** X18.  A transfer is announced four times, to both sides.  When
    [transferTo] goes through, the feed gains, from the oldest to the
    newest entry: the withdrawal, to the observers of the source; the
    deposit, to the observers of the target; 'Transferred', to the
    observers of the source; 'Received', to the observers of the target.
    Nothing else is added to the feed. *)
Theorem X18_transfer_notifies_both_sides (f t : ref) (fa ta : Account)
    (amount : float) (w : World) :
  heap w !! f = Some fa ->
  heap w !! t = Some ta ->
  f <> t ->
  id fa <> id ta ->
  (amount <=? 0)%float = false ->
  (balance fa <? amount)%float = false ->
  succeeds (transferTo f (Some t) amount w) = true
  /\ notificationsFeed (final (transferTo f (Some t) amount w))
     = notices ta (MsgReceived amount (owner fa) (id fa))
       ++ notices fa (MsgTransferred amount (owner ta) (id ta))
       ++ notices ta (MsgDeposited amount (balance ta + amount)%float)
       ++ notices fa (MsgWithdrawn amount (balance fa - amount)%float)
       ++ notificationsFeed w.
Proof.
  intros Hfa Hta Hne Hid Hle Hlt.
  assert (H : exists w',
             transferTo f (Some t) amount w = Returned tt w'
             /\ notificationsFeed w'
                = notices ta (MsgReceived amount (owner fa) (id fa))
                  ++ notices fa (MsgTransferred amount (owner ta) (id ta))
                  ++ notices ta (MsgDeposited amount (balance ta + amount)%float)
                  ++ notices fa (MsgWithdrawn amount (balance fa - amount)%float)
                  ++ notificationsFeed w).
  { eexists. split.
    - unfold transferTo. unfold bind at 1, deref at 1. rewrite Hfa.
      unfold bind at 1. cbn [defined ret]. unfold bind at 1, deref at 1. rewrite Hta.
      apply Z.eqb_neq in Hid. rewrite Hid.
      unfold bind at 1. rewrite (withdraw_notifies _ _ _ _ Hfa Hle Hlt).
      unfold bind at 1.
      rewrite (deposit_notifies t ta)
        by (try exact Hle; rewrite heap_repaint, heap_store;
            now rewrite lookup_insert_ne by exact Hne).
      unfold bind at 1.
      rewrite (notify_exact f (set_balance (balance fa - amount)%float fa))
        by (rewrite heap_repaint, heap_store, lookup_insert_ne by congruence;
            rewrite heap_repaint, heap_store; apply lookup_insert_eq).
      rewrite (notify_exact t (set_balance (balance ta + amount)%float ta))
        by (rewrite !heap_repaint, heap_store; apply lookup_insert_eq).
      reflexivity.
    - reflexivity. }
  destruct H as (w' & -> & Hfeed). split; [reflexivity | exact Hfeed].
Qed.

Lemma X18_transfer_notifies_both_sides_witness :
  succeeds (transferTo 1 (Some 2%positive) 300 demo) = true
  /\ notificationsFeed (final (transferTo 1 (Some 2%positive) 300 demo))
     = notices bob (MsgReceived 300 (owner alice) (id alice))
       ++ notices alice (MsgTransferred 300 (owner bob) (id bob))
       ++ notices bob (MsgDeposited 300 (balance bob + 300)%float)
       ++ notices alice (MsgWithdrawn 300 (balance alice - 300)%float)
       ++ notificationsFeed demo.
Proof.
  apply (X18_transfer_notifies_both_sides 1 2 alice bob 300 demo);
    vm_compute; try reflexivity; discriminate.
Defined.

(** ** What a button leaves alone *)

Lemma perform_blind_to_panel (act : Action) :
  uses_commands act = false -> blind command_panel (perform act).
Proof.
  destruct act; try discriminate; intros _; cbn [perform];
    unfold create_acct, apply_interest, demo_setup, subscribe, unsubscribe;
    blind_steps.
Qed.

(** X19.  Only the command panel changes the command panel.  [create-acct],
    [apply-interest], [demo-setup] and the subscribe and unsubscribe
    buttons leave the undo stack, the command history and the command
    counter as they are; in particular interest, once applied, is not a
    command: no later [cmd-undo] takes it back. *)
Theorem X19_only_commands_are_stacked (act : Action) (w : World) :
  uses_commands act = false ->
  commandStack (final (perform act w)) = commandStack w
  /\ commandHistory (final (perform act w)) = commandHistory w
  /\ statCommands (final (perform act w)) = statCommands w.
Proof.
  intros Hact. pose proof (perform_blind_to_panel act Hact w) as H.
  unfold command_panel in H. now inversion H.
Qed.

Lemma X19_only_commands_are_stacked_witness :
  commandStack (final (perform (ApplyInterest (Some 1001)) demo)) = commandStack demo
  /\ commandHistory (final (perform (ApplyInterest (Some 1001)) demo))
     = commandHistory demo
  /\ statCommands (final (perform (ApplyInterest (Some 1001)) demo))
     = statCommands demo.
Proof.
  apply (X19_only_commands_are_stacked (ApplyInterest (Some 1001)) demo).
  reflexivity.
Defined.

Lemma held_modify (r : ref) (a : Account) (f : World -> World) :
  (forall w, heap (f w) = heap w) -> preserves (holds_account r a) (modify f).
Proof. intros Hf w H. cbn. unfold holds_account. now rewrite Hf. Qed.

Lemma held_update_observers (r0 : ref) (os : list CustomerObserver) (r : ref)
    (a : Account) :
  preserves (holds_account r a) (update r0 (set_observers os)).
Proof.
  intros w (a' & Ha' & Heq). unfold update, modify, holds_account.
  cbn [heap with_heap].
  destruct (heap w !! r0) as [a0|] eqn:E; [|eauto].
  destruct (decide (r0 = r)) as [->|Hne].
  - rewrite lookup_insert_eq. eexists. split; [reflexivity|].
    assert (a0 = a') as -> by congruence. exact Heq.
  - rewrite lookup_insert_ne by exact Hne. eauto.
Qed.

Lemma held_new_Account (i : Z) (o t : string) (b : float) (r : ref) (a : Account) :
  preserves (holds_account r a) (new_Account i o t b).
Proof.
  intros w (a' & Ha' & Heq). unfold new_Account, bind, get, modify, ret, holds_account.
  cbn [heap with_heap].
  rewrite lookup_insert_ne; [eauto|].
  intros <-. rewrite fresh_unused in Ha'. discriminate.
Qed.

Ltac held_steps :=
  repeat first
    [ match goal with
      | |- preserves _ (ret _) => apply preserves_ret
      | |- preserves _ (throw _) => apply preserves_throw
      | |- preserves _ get => apply preserves_get
      | |- preserves _ (deref _) => apply preserves_deref
      | |- preserves _ (defined _) => apply preserves_defined
      | |- preserves _ (update _ (set_observers _)) => apply held_update_observers
      | |- preserves _ (new_Account _ _ _ _) => apply held_new_Account
      | |- preserves _ (modify _) => apply held_modify; intros ?; reflexivity
      | |- preserves _ (bind _ _) => apply preserves_bind; [|intros ?]
      | |- preserves _ (forEach _ _) => apply preserves_forEach; intros ?
      | |- preserves _ (if ?c then _ else _) => destruct c
      | |- preserves _ (match ?c with _ => _ end) => destruct c
      end
    | progress cbv beta zeta
    | progress unfold addNotification, showToast, attach, detach,
        updateObserverStat ].

Lemma perform_holds_account (act : Action) (r : ref) (a : Account) :
  moves_money act = false -> preserves (holds_account r a) (perform act).
Proof.
  destruct act; try discriminate; intros _; cbn [perform];
    unfold create_acct, demo_setup, subscribe, unsubscribe, clear_all;
    held_steps.
Qed.

(** X20.  Managing accounts and observers moves no money.  [create-acct],
    [demo-setup], [clear-all] and the subscribe and unsubscribe buttons
    leave every existing account object with its balance, number, owner
    and type; only its list of observers may change. *)
Theorem X20_other_buttons_move_no_money (act : Action) (r : ref) (a : Account)
    (w : World) :
  moves_money act = false ->
  heap w !! r = Some a ->
  exists a',
    heap (final (perform act w)) !! r = Some a'
    /\ balance a' = balance a /\ id a' = id a
    /\ owner a' = owner a /\ type a' = type a.
Proof.
  intros Hact Ha.
  assert (Hw : holds_account r a w) by (exists a; eauto).
  destruct (preserves_final _ _ w (perform_holds_account act r a Hact) Hw)
    as (a' & Ha' & Heq).
  exists a'. split; [exact Ha'|].
  destruct a, a'. cbn in Heq. injection Heq as -> -> -> -> _.
  cbn. eauto.
Qed.

Lemma X20_other_buttons_move_no_money_witness :
  exists a',
    heap (final (perform (Unsubscribe 1 "alice@demo.bank") demo)) !! 1%positive
    = Some a'
    /\ balance a' = balance alice /\ id a' = id alice
    /\ owner a' = owner alice /\ type a' = type alice.
Proof.
  apply (X20_other_buttons_move_no_money (Unsubscribe 1 "alice@demo.bank") 1 alice demo);
    vm_compute; reflexivity.
Defined.

(** ** Account numbers depend on the clicks only *)

Lemma perform_blind_to_numbering (act : Action) :
  numbers_accounts act = false -> blind numbering_part (perform act).
Proof.
  destruct act; try discriminate; intros _; cbn [perform];
    unfold cmd_deposit, cmd_withdraw, cmd_transfer, cmd_undo, apply_interest,
      subscribe, unsubscribe;
    blind_steps.
Qed.

Lemma numbering_next (w w' : World) (r : ref) :
  accounts w' = <[nextAcctId w := r]> (accounts w) ->
  nextAcctId w' = nextAcctId w + 1 ->
  numbering w' = (nextAcctId w + 1, {[nextAcctId w]} ∪ dom (accounts w)).
Proof.
  intros Ha Hn. unfold numbering. now rewrite Ha, Hn, dom_insert_L.
Qed.

Lemma demo_item_numbers (n t : string) (b : float) (w : World) :
  exists w',
    demo_item n t b w = Returned tt w'
    /\ numbering w' = (nextAcctId w + 1, {[nextAcctId w]} ∪ dom (accounts w)).
Proof.
  destruct (demo_item_spec n t b w) as (w' & H & Ha & Hn & _).
  exists w'. split; [exact H|]. exact (numbering_next _ _ _ Ha Hn).
Qed.

Lemma demo_setup_numbers (w : World) :
  numbering (final (demo_setup w))
  = (nextAcctId w + 1 + 1 + 1,
     {[nextAcctId w + 1 + 1]}
       ∪ ({[nextAcctId w + 1]} ∪ ({[nextAcctId w]} ∪ dom (accounts w)))).
Proof.
  change demo_setup with
    (forEach (fun '(n, t, b) => demo_item n t b)
       [("Alice"%string, "savings"%string, 5000%float);
        ("Bob"%string, "current"%string, 1200%float);
        ("CorpX"%string, "fixed"%string, 25000%float)] ;;
     addNotification TitleDemo MsgDemoCreated).
  cbn [forEach].
  destruct (demo_item_numbers "Alice" "savings" 5000 w) as (w1 & H1 & N1).
  destruct (demo_item_numbers "Bob" "current" 1200 w1) as (w2 & H2 & N2).
  destruct (demo_item_numbers "CorpX" "fixed" 25000 w2) as (w3 & H3 & N3).
  unfold bind. rewrite H1, H2, H3. cbn [ret]. rewrite addNotification_spec.
  cbn [final]. change (numbering (repaint ?fd ?ts w3)) with (numbering w3).
  unfold numbering in *.
  injection N1 as N1 D1. injection N2 as N2 D2. injection N3 as N3 D3.
  now rewrite N3, D3, N2, D2, N1, D1.
Qed.

Lemma numbering_perform (act : Action) (w1 w2 : World) :
  numbering w1 = numbering w2 ->
  numbering (final (perform act w1)) = numbering (final (perform act w2)).
Proof.
  intros H. pose proof H as H'. unfold numbering in H'. injection H' as Hn Hd.
  destruct (numbers_accounts act) eqn:Hact.
  - destruct act as [name ty parsed| | | | | | | | |]; try discriminate;
      cbn [perform].
    + destruct (String.eqb name "") eqn:Hname.
      * unfold create_acct. rewrite Hname. exact H.
      * destruct (create_acct_numbering name ty parsed w1 Hname) as [A1 N1].
        destruct (create_acct_numbering name ty parsed w2 Hname) as [A2 N2].
        rewrite (numbering_next _ _ _ A1 N1), (numbering_next _ _ _ A2 N2).
        now rewrite Hn, Hd.
    + rewrite !demo_setup_numbers. now rewrite Hn, Hd.
    + reflexivity.
  - pose proof (perform_blind_to_numbering act Hact) as Hb.
    destruct (blind_numbering _ w1 Hb) as [A1 N1].
    destruct (blind_numbering _ w2 Hb) as [A2 N2].
    unfold numbering. now rewrite A1, N1, A2, N2, Hn, Hd.
Qed.

Lemma numbering_run (acts : list Action) (w1 w2 : World) :
  numbering w1 = numbering w2 -> numbering (run acts w1) = numbering (run acts w2).
Proof.
  revert w1 w2. induction acts as [|act acts IH]; intros w1 w2 H; [exact H|].
  cbn [run]. apply IH. now apply numbering_perform.
Qed.

(** X21.  Account numbers depend on the clicks only, and [clear-all] starts
    them over.  Two pages with the same account numbers in use and the same
    next number have the same after any sequence of clicks, whatever the
    balances, the observers and the outcome of the commands; and whatever
    the page held before [clear-all], the clicks after it number the
    accounts as they do on the page as loaded. *)
Theorem X21_account_numbers_follow_the_clicks (acts : list Action) :
  (forall w1 w2, numbering w1 = numbering w2 ->
                 numbering (run acts w1) = numbering (run acts w2))
  /\ forall w, numbering (run (ClearAll :: acts) w) = numbering (run acts initial).
Proof.
  split; [apply numbering_run|].
  intros w. cbn [run]. apply numbering_run. reflexivity.
Qed.

(** * The undo action over a session (C8) *)

Lemma perform_command (act : Action) (w : World) (cmd : Command) :
  command_of act w = Some cmd -> perform act w = executeCommand cmd w.
Proof.
  destruct act; cbn [command_of perform]; try discriminate.
  - unfold cmd_deposit. destruct (falsy_id i || falsy amount); [discriminate|].
    now intros [= <-].
  - unfold cmd_withdraw. destruct (falsy_id i || falsy amount); [discriminate|].
    now intros [= <-].
  - unfold cmd_transfer.
    destruct (falsy_id fromId || falsy_id toId || falsy amount); [discriminate|].
    now intros [= <-].
Qed.

Lemma perform_without_command (act : Action) (w : World) :
  command_of act w = None -> act <> CmdUndo -> act <> ClearAll ->
  commandStack (final (perform act w)) = commandStack w.
Proof.
  intros Hcmd Hundo Hclear.
  assert (Hblind : blind command_part (perform act) ->
            commandStack (final (perform act w)) = commandStack w).
  { intros Hm. now destruct (blind_parts _ w Hm). }
  destruct act; cbn [command_of perform] in *; try contradiction.
  - apply Hblind, create_acct_blind_to_commands.
  - unfold cmd_deposit in *. destruct (falsy_id i || falsy amount); [|discriminate].
    apply Hblind, showToast_blind_to_commands.
  - unfold cmd_withdraw in *. destruct (falsy_id i || falsy amount); [|discriminate].
    apply Hblind, showToast_blind_to_commands.
  - unfold cmd_transfer in *.
    destruct (falsy_id fromId || falsy_id toId || falsy amount); [|discriminate].
    apply Hblind, showToast_blind_to_commands.
  - apply Hblind, apply_interest_blind_to_commands.
  - apply Hblind, demo_setup_blind_to_commands.
  - apply Hblind, subscribe_blind_to_commands.
  - apply Hblind, unsubscribe_blind_to_commands.
Qed.

Lemma ledger_agrees_later (t : nat) (w w' : World) (g : Ledger) :
  commandStack w' = commandStack w ->
  ledger_agrees t w g -> ledger_agrees (S t) w' g.
Proof.
  intros Hs (Hst & Hstack & Hnd & Hlt). split; [exact Hst|].
  split; [now rewrite Hs|]. split; [exact Hnd|].
  eapply Forall_impl; [exact Hlt|]. cbv beta. intros k Hk. lia.
Qed.

Lemma ledger_agrees_push (t : nat) (w w' : World) (g : Ledger) (cmd : Command) :
  commandStack w' = commandStack w ++ [cmd] ->
  ledger_agrees t w g ->
  ledger_agrees (S t) w'
    {| stamps := stamps g ++ [t]; in_effect := in_effect g ++ [(t, cmd)] |}.
Proof.
  intros Hs (Hst & Hstack & Hnd & Hlt). unfold ledger_agrees.
  cbn [stamps in_effect].
  split; [now rewrite map_app, Hst|].
  split; [now rewrite map_app, Hs, Hstack|]. split.
  - apply NoDup_app. split; [exact Hnd|]. split; [|apply NoDup_singleton].
    intros k Hk Hin. apply list_elem_of_singleton in Hin. subst k.
    rewrite Forall_forall in Hlt. specialize (Hlt t Hk). lia.
  - apply Forall_app. split.
    + eapply Forall_impl; [exact Hlt|]. cbv beta. intros k Hk. lia.
    + constructor; [lia|constructor].
Qed.

Lemma ledger_agrees_pop (t : nat) (w w' : World) (g : Ledger) (s : list Command)
    (c : Command) :
  commandStack w = s ++ [c] ->
  commandStack w' = s ->
  ledger_agrees t w g ->
  exists k,
    last (stamps g) = Some k
    /\ ledger_agrees (S t) w'
         {| stamps := removelast (stamps g);
            in_effect := List.filter (fun e => negb (fst e =? k)%nat) (in_effect g) |}.
Proof.
  intros Hw Hw' (Hst & Hstack & Hnd & Hlt).
  rewrite Hw in Hstack. symmetry in Hstack.
  apply map_eq_app in Hstack as (e & l & He & Hes & Hl).
  destruct l as [|[k c'] [|? ?]]; try discriminate.
  cbn in Hl. injection Hl as ->.
  rewrite He in Hst. rewrite map_app in Hst. cbn [map fst] in Hst.
  exists k. rewrite Hst. split; [apply last_snoc|].
  rewrite Hst in Hnd, Hlt. apply NoDup_app in Hnd as (Hnd & Hfresh & _).
  apply Forall_app in Hlt as [Hlt _].
  assert (Hkeep : List.filter (fun x => negb (fst x =? k)%nat) e = e).
  { apply forallb_filter_id. apply forallb_forall. intros [k' c0] Hin.
    cbn [fst]. apply negb_true_iff, Nat.eqb_neq. intros ->.
    apply (Hfresh k); [|apply list_elem_of_singleton; reflexivity].
    apply list_elem_of_In. apply (in_map fst) in Hin. exact Hin. }
  unfold ledger_agrees.
  cbn [stamps in_effect]. rewrite removelast_last, He, List.filter_app, Hkeep.
  cbn [List.filter fst]. rewrite Nat.eqb_refl. cbn [negb]. rewrite app_nil_r.
  split; [reflexivity|]. split; [now rewrite Hw', Hes|]. split; [exact Hnd|].
  eapply Forall_impl; [exact Hlt|]. cbv beta. intros k' Hk'. lia.
Qed.

Lemma ledger_step_agrees (t : nat) (act : Action) (w : World) (g : Ledger) :
  (act = CmdUndo -> undo_returns w = true) ->
  ledger_agrees t w g ->
  ledger_agrees (S t) (final (perform act w)) (ledger_step t act w g).
Proof.
  intros Hret Hg.
  assert (Hcommand : forall cmd, command_of act w = Some cmd ->
            ledger_agrees (S t) (final (perform act w))
              (if succeeds (execute cmd w)
               then {| stamps := stamps g ++ [t];
                       in_effect := in_effect g ++ [(t, cmd)] |}
               else g)).
  { intros cmd Hcmd. rewrite (perform_command _ _ _ Hcmd).
    destruct (executeCommand_final cmd w) as (_ & Hs & _).
    destruct (succeeds (execute cmd w)).
    - now apply (ledger_agrees_push t w).
    - now apply (ledger_agrees_later t w). }
  assert (Hother : command_of act w = None -> act <> CmdUndo -> act <> ClearAll ->
            ledger_agrees (S t) (final (perform act w)) g).
  { intros Hcmd Hu Hc. apply (ledger_agrees_later t w); [|exact Hg].
    now apply perform_without_command. }
  destruct act; cbn [ledger_step];
    try (destruct (command_of _ w) as [cmd|] eqn:Hcmd;
         [now apply Hcommand | now apply Hother]).
  - (* cmd-undo *)
    specialize (Hret eq_refl). cbn [perform].
    destruct (stack_cases (commandStack w)) as [Hw|(s & c & Hw)].
    + rewrite Hw. cbn [pop].
      apply (ledger_agrees_later t w); [|exact Hg].
      now rewrite (cmd_undo_empty _ Hw).
    + destruct (cmd_undo_stack _ _ _ Hw) as [Hs _].
      destruct (ledger_agrees_pop t w _ g s c Hw Hs Hg) as (k & Hk & Hg').
      rewrite Hw, pop_snoc, Hk. now rewrite Hret.
  - (* clear-all *)
    split; [reflexivity|]. split; [reflexivity|].
    split; [apply NoDup_nil_2 | constructor].
Qed.

Lemma ledger_agrees_run (acts : list Action) (t : nat) (w : World) (g : Ledger) :
  undos_return acts w = true ->
  ledger_agrees t w g ->
  ledger_agrees (t + length acts) (run acts w) (ledger t acts w g).
Proof.
  revert t w g. induction acts as [|act acts IH]; intros t w g Hret Hg.
  - cbn [run ledger length]. now rewrite Nat.add_0_r.
  - cbn [run ledger length undos_return] in *.
    apply andb_prop in Hret as [Hact Hret].
    replace (t + S (length acts))%nat with (S t + length acts)%nat by lia.
    apply IH; [exact Hret|]. apply ledger_step_agrees; [|exact Hg].
    intros ->. exact Hact.
Qed.

Lemma ledger_agrees_targets (t : nat) (w : World) (g : Ledger) :
  ledger_agrees t w g -> targets_most_recent g = true.
Proof.
  intros (Hst & _). unfold targets_most_recent. rewrite Hst.
  destruct (in_effect g) as [|[k c] e _] using rev_ind; [reflexivity|].
  rewrite map_app. cbn [map fst]. rewrite !last_snoc. apply Nat.eqb_refl.
Qed.

(** C8, as stated, fails.  In [lost_undo_session] the undo of Ann's deposit
    of 0.41 throws, and [cmd-undo] has popped that command all the same:
    the deposit is in effect (Ann holds 0.40999999999999992) and is the most
    recently executed command that is not undone, but the stack holds only
    Bob's older deposit of 1, and the next click on [cmd-undo] undoes
    that. *)
Lemma C8_undo_counterexample :
  let w := run lost_undo_session initial in
  let g := ledger_of lost_undo_session in
  commandStack w = [DepositCommand (Some 2%positive) 1]
  /\ in_effect g = [(2%nat, DepositCommand (Some 2%positive) 1);
                    (3%nat, DepositCommand (Some 1%positive) 0.41)]
  /\ targets_most_recent g = false
  /\ balance_of w 1%positive = Some 0.40999999999999992%float
  /\ balance_of w 2%positive = Some 1%float
  /\ balance_of (final (cmd_undo w)) 1%positive = Some 0.40999999999999992%float
  /\ balance_of (final (cmd_undo w)) 2%positive = Some 0%float.
Proof.
  cbv zeta. split; [vm_compute; reflexivity|].
  split; [vm_compute; reflexivity|]. split; [vm_compute; reflexivity|].
  split; [vm_compute; reflexivity|]. split; [vm_compute; reflexivity|].
  split; vm_compute; reflexivity.
Qed.

(** C8, amended.  [cmd-undo] pops the top element of the command stack and
    invokes the [undo()] of that command; on an empty stack it changes no
    account balance and no stack state.  As long as no [undo()] invoked by
    the action has thrown, the stack holds exactly the commands that were
    executed and are not yet undone, in the order of their execution, so
    the element that the action pops is the most recently executed,
    not-yet-undone command. *)
Theorem C8_cmd_undo :
  (forall w : World,
     (commandStack w = [] ->
      cmd_undo w
      = Returned tt (with_toasts (fun ts => ts ++ [ToastText "No commands to undo"]) w)
      /\ heap (final (cmd_undo w)) = heap w
      /\ commandStack (final (cmd_undo w)) = commandStack w)
     /\ (forall (s : list Command) (c : Command),
           commandStack w = s ++ [c] ->
           succeeds (cmd_undo w) = true
           /\ commandStack (final (cmd_undo w)) = s
           /\ heap (final (cmd_undo w))
              = heap (final (undo c (with_commandStack (fun _ => s) w))))
     /\ (forall cmd : Command,
           succeeds (execute cmd w) = true ->
           let w' := final (executeCommand cmd w) in
           succeeds (cmd_undo w') = true
           /\ commandStack (final (cmd_undo w')) = commandStack w
           /\ heap (final (cmd_undo w'))
              = heap (final (undo cmd
                               (with_commandStack (fun _ => commandStack w) w')))))
  /\ (forall acts : list Action,
        undos_return acts initial = true ->
        commandStack (run acts initial) = map snd (in_effect (ledger_of acts))
        /\ targets_most_recent (ledger_of acts) = true).
Proof.
  split; [exact cmd_undo_spec|].
  intros acts Hret.
  assert (Hinit : ledger_agrees 0 initial {| stamps := []; in_effect := [] |}).
  { split; [reflexivity|]. split; [reflexivity|].
    split; [apply NoDup_nil_2 | constructor]. }
  pose proof (ledger_agrees_run acts 0 initial _ Hret Hinit) as Hg.
  fold (ledger_of acts) in Hg. split.
  - now destruct Hg as (_ & Hstack & _).
  - exact (ledger_agrees_targets _ _ _ Hg).
Qed.

Lemma C8_cmd_undo_witness :
  (let cmd := TransferCommand (Some 1%positive) (Some 2%positive) 300 in
   let w' := final (executeCommand cmd demo) in
   succeeds (cmd_undo w') = true
   /\ commandStack (final (cmd_undo w')) = commandStack demo
   /\ heap (final (cmd_undo w'))
      = heap (final (undo cmd (with_commandStack (fun _ => commandStack demo) w'))))
  /\ commandStack (run plain_undo_session initial)
     = map snd (in_effect (ledger_of plain_undo_session))
  /\ targets_most_recent (ledger_of plain_undo_session) = true.
Proof.
  split.
  - cbv zeta. apply (proj1 C8_cmd_undo demo). vm_compute; reflexivity.
  - apply (proj2 C8_cmd_undo plain_undo_session). vm_compute; reflexivity.
Defined.
